(** * Delhi NCR noise-pollution dashboard: the client-side logic

    A shallow embedding of the dashboard's computational code:

    - [Predictor]: [generateStaticPredictions] of
      [dashboard/src/components/DataTable.tsx];
    - [DataUtils]: [parseCSV] and [calculateKeyMetrics] of the data
      utilities;
    - [Gemini]: [listAvailableModels], [pickModelWithGenerateContent] and
      [callGeminiAPI] of the Gemini service;
    - [PredictiveMap]: the marker helpers, the summary values and
      [fetchPredictions] of the predictive map;
    - [DataUtilsRest]: [fetchCSV] and [getSeverityColor];
    - [DataTable]: [handleSort] and the sorted rows of the tables;
    - [Validator]: [validateCSV] and the main part of the validation
      script;
    - [AIPanels]: the handlers of [AISummary] and [PolicyModal].

    Conventions of the embedding.

    - A JavaScript [number] is a rational ([Q]); where a string is
      converted to a number the outcome can also be [NaN] or an infinity
      ([JS.number]).  Arithmetic is exact: the rounding of binary64 to
      the nearest representable value is not modelled, comparisons of
      numbers are stated with [==], [<=] and [<] of [Q].
    - A JavaScript string is a [string]: the code units below 256.
    - [Math.random()] reads the next value of a stream of draws; the
      state of the generator is the number of draws consumed so far.
    - An exception is a value of [JS.exn]; code that can throw or that
      has effects runs in the monad [JS.M].
    - An [async] function runs from its call to its end without another
      handler in between; [Array.prototype.sort] is a stable insertion
      sort. *)

From Stdlib Require Import QArith Qround Qabs Lqa Lia ZArith Ascii String.
From Stdlib Require Import DecimalString Sorted.
From stdpp Require Import gmap strings list.

Local Open Scope Q_scope.

(** ** JavaScript primitives used by the sources *)

Module JS.

Inductive exn : Type :=
| TypeError (message : string)
| SyntaxError (message : string)
| Error (message : string).

Inductive outcome (A : Type) : Type :=
| Ok (value : A)
| Throw (e : exn).
Arguments Ok {A} value.
Arguments Throw {A} e.

(** Computations over a state of type [S] that may throw: the calls of
    [Math.random()] advance a generator, the calls of [fetch] extend a
    log of requests.  The state reached is kept when an exception is
    thrown. *)
Definition M (S A : Type) : Type := S -> outcome A * S.

Definition ret {S A} (a : A) : M S A := fun s => (Ok a, s).

Definition throw {S A} (e : exn) : M S A := fun s => (Throw e, s).

Definition bind {S A B} (m : M S A) (k : A -> M S B) : M S B :=
  fun s => match m s with
           | (Ok a, s') => k a s'
           | (Throw e, s') => (Throw e, s')
           end.

Notation "'do' x <- m ; k" := (bind m (fun x => k))
  (at level 10, x name, m at level 100, k at level 200).

(** [Array.prototype.map] with a callback in [M]. *)
Fixpoint mapM {S A B} (f : A -> M S B) (l : list A) : M S (list B) :=
  match l with
  | [] => ret []
  | a :: l' => do b <- f a; do bs <- mapM f l'; ret (b :: bs)
  end.

(** [x < y] and [x <= y] on numbers. *)
Definition ltb (x y : Q) : bool := negb (Qle_bool y x).
Definition leb (x y : Q) : bool := Qle_bool x y.

Definition pow10 (n : nat) : Q := inject_Z (10 ^ Z.of_nat n).

(** The integer [n] for which [n - x] is closest to zero, the larger
    one of two candidates (step 9 of [Number.prototype.toFixed]). *)
Definition nearest_up (x : Q) : Z := Qfloor (x + (1 # 2)).

(** The number denoted by the string [x.toFixed(fractionDigits)], which
    is what [parseFloat] and [Number] read back from it: [x] rounded to
    [fractionDigits] decimals, ties away from zero.  From 1e21 on
    [toFixed] prints the number itself. *)
Definition toFixed (x : Q) (fractionDigits : nat) : Q :=
  if leb (pow10 21) (Qabs x) then x
  else if ltb x 0
       then - (inject_Z (nearest_up (- x * pow10 fractionDigits))
               / pow10 fractionDigits)
       else inject_Z (nearest_up (x * pow10 fractionDigits))
            / pow10 fractionDigits.

(** *** Strings *)

(** [WhiteSpace] and [LineTerminator] among the code units below 256:
    TAB, LF, VT, FF, CR, SP and NBSP. *)
Definition isWhiteSpace (c : ascii) : bool :=
  let n := N_of_ascii c in
  ((9 <=? n) && (n <=? 13) || (n =? 32) || (n =? 160))%N.

Definition isEmpty (s : string) : bool :=
  match s with
  | EmptyString => true
  | String _ _ => false
  end.

Fixpoint trimStart (s : string) : string :=
  match s with
  | EmptyString => EmptyString
  | String c s' => if isWhiteSpace c then trimStart s' else s
  end.

Fixpoint trimEnd (s : string) : string :=
  match s with
  | EmptyString => EmptyString
  | String c s' =>
      let t := trimEnd s' in
      if isWhiteSpace c && isEmpty t then EmptyString else String c t
  end.

(** [String.prototype.trim] *)
Definition trim (s : string) : string := trimEnd (trimStart s).

(** [s.split(sep)] for a separator of one character: the pieces between
    the occurrences of [sep], always at least one piece. *)
Fixpoint split (sep : ascii) (s : string) : list string :=
  match s with
  | EmptyString => [EmptyString]
  | String c s' =>
      if Ascii.eqb c sep then EmptyString :: split sep s'
      else match split sep s' with
           | piece :: pieces => String c piece :: pieces
           | [] => [String c EmptyString]
           end
  end.

(** *** Conversion of a string to a number: [Number(s)] *)

Inductive number : Type :=
| Finite (q : Q)
| PosInfinity
| NegInfinity
| NaN.

Definition isNaN (x : number) : bool :=
  match x with
  | NaN => true
  | _ => false
  end.

Definition isFinite (x : number) : bool :=
  match x with
  | Finite _ => true
  | _ => false
  end.

(** The value of a digit below [radix]. *)
Definition digitValue (radix : Z) (c : ascii) : option Z :=
  let n := Z.of_N (N_of_ascii c) in
  let v := if (48 <=? n)%Z && (n <=? 57)%Z then Some (n - 48)%Z
           else if (97 <=? n)%Z && (n <=? 102)%Z then Some (n - 87)%Z
           else if (65 <=? n)%Z && (n <=? 70)%Z then Some (n - 55)%Z
           else None in
  match v with
  | Some d => if (d <? radix)%Z then Some d else None
  | None => None
  end.

Fixpoint digitsFrom (radix : Z) (s : string) (acc : Z) : option Z :=
  match s with
  | EmptyString => Some acc
  | String c s' =>
      match digitValue radix c with
      | Some d => digitsFrom radix s' (acc * radix + d)%Z
      | None => None
      end
  end.

(** A non-empty run of digits, read in [radix]. *)
Definition digits (radix : Z) (s : string) : option Z :=
  if isEmpty s then None else digitsFrom radix s 0.

(** The text before the first character satisfying [p], and the text
    after that character when there is one. *)
Fixpoint breakAt (p : ascii -> bool) (s : string) : string * option string :=
  match s with
  | EmptyString => (EmptyString, None)
  | String c s' =>
      if p c then (EmptyString, Some s')
      else let '(before, after) := breakAt p s' in (String c before, after)
  end.

Definition stripSign (s : string) : bool * string :=
  match s with
  | String "+" s' => (false, s')
  | String "-" s' => (true, s')
  | _ => (false, s)
  end.

(** [ExponentPart], absent ([None]) or the text after [e] or [E]. *)
Definition exponentPart (e : option string) : option Z :=
  match e with
  | None => Some 0%Z
  | Some t =>
      let '(negative, ds) := stripSign t in
      match digits 10 ds with
      | Some v => Some (if negative then (- v)%Z else v)
      | None => None
      end
  end.

(** The mathematical value of a [StrUnsignedDecimalLiteral] other than
    [Infinity]: digits, an optional fraction and an optional exponent. *)
Definition unsignedDecimal (s : string) : option Q :=
  let '(mantissa, e) :=
    breakAt (fun c => Ascii.eqb c "e" || Ascii.eqb c "E") s in
  match exponentPart e with
  | None => None
  | Some ex =>
      let '(whole, fraction) := breakAt (fun c => Ascii.eqb c ".") mantissa in
      match fraction with
      | None =>
          match digits 10 whole with
          | Some i => Some (inject_Z i * 10 ^ ex)
          | None => None
          end
      | Some f =>
          if isEmpty whole && isEmpty f then None
          else
            match (if isEmpty whole then Some 0%Z else digits 10 whole),
                  (if isEmpty f then Some 0%Z else digits 10 f) with
            | Some i, Some fr =>
                Some ((inject_Z i
                       + inject_Z fr / 10 ^ Z.of_nat (String.length f))
                      * 10 ^ ex)
            | _, _ => None
            end
      end
  end.

(** [0x], [0o] and [0b] literals. *)
Definition nonDecimal (s : string) : option Z :=
  match s with
  | String "0" (String c s') =>
      if Ascii.eqb c "x" || Ascii.eqb c "X" then digits 16 s'
      else if Ascii.eqb c "o" || Ascii.eqb c "O" then digits 8 s'
      else if Ascii.eqb c "b" || Ascii.eqb c "B" then digits 2 s'
      else None
  | _ => None
  end.

(** From 2^1024 - 2^970 on a value is rounded to an infinity.  A finite
    value is kept exact, in lowest terms. *)
Definition overflowBound : Q := inject_Z (2 ^ 1024 - 2 ^ 970).

Definition numberOf (q : Q) : number :=
  if leb overflowBound (Qabs q)
  then if ltb q 0 then NegInfinity else PosInfinity
  else Finite (Qred q).

(** [Number(s)]: [StringToNumber]. *)
Definition Number (s : string) : number :=
  let t := trim s in
  if isEmpty t then Finite 0
  else
    match nonDecimal t with
    | Some n => numberOf (inject_Z n)
    | None =>
        let '(negative, u) := stripSign t in
        if String.eqb u "Infinity"
        then if negative then NegInfinity else PosInfinity
        else match unsignedDecimal u with
             | Some q => numberOf (if negative then - q else q)
             | None => NaN
             end
    end.

End JS.

(** ** The synthetic predictor (DataTable.tsx) *)

Module Predictor.
Import JS.

Record Location : Type := {
  name : string;
  lat : Q;
  lon : Q;
  zone : string;
  baseNoise : Q
}.

Record Limits : Type := { day : Q; night : Q }.

Record MapDataPoint : Type := {
  location : string;
  latitude : Q;
  longitude : Q;
  predicted_noise : Q;
  zone_type : string;
  noise_limit : Q;
  is_violation : bool;
  confidence : Q
}.

Definition locations : list Location := [
  {| name := "nsit"; lat := 28.61; lon := 77.04;
     zone := "Silence Zone"; baseNoise := 65 |};
  {| name := "ito"; lat := 28.631; lon := 77.248;
     zone := "Commercial"; baseNoise := 76 |};
  {| name := "punjabi"; lat := 28.66; lon := 77.12;
     zone := "Residential"; baseNoise := 72 |};
  {| name := "isbt"; lat := 28.667; lon := 77.231;
     zone := "Commercial"; baseNoise := 75 |};
  {| name := "mandir_marg"; lat := 28.628; lon := 77.203;
     zone := "Commercial"; baseNoise := 68 |};
  {| name := "civil_lines"; lat := 28.678; lon := 77.222;
     zone := "Residential"; baseNoise := 70 |};
  {| name := "CPCBHQ"; lat := 28.59; lon := 77.25;
     zone := "Commercial"; baseNoise := 66 |};
  {| name := "Dilshad"; lat := 28.68; lon := 77.31;
     zone := "Residential"; baseNoise := 64 |};
  {| name := "centralschool"; lat := 28.53; lon := 77.25;
     zone := "Silence Zone"; baseNoise := 62 |}
].

Definition noiseLimits : gmap string Limits :=
  {[ "Industrial" := {| day := 75; night := 70 |};
     "Commercial" := {| day := 65; night := 55 |};
     "Residential" := {| day := 55; night := 45 |};
     "Silence Zone" := {| day := 50; night := 40 |} ]}.

(** The locals of the callback of [locations.map], in the order of the
    source. *)

Definition timeFactor (hour : Q) : Q :=
  if leb 8 hour && leb hour 10 then 4.5
  else if leb 17 hour && leb hour 20 then 6.0
  else if leb 0 hour && leb hour 5 then -8.0
  else 0.

Definition dayFactor (dayOfWeek : Q) : Q :=
  if leb 5 dayOfWeek then -3.5 else 0.

Definition environmentalNoise (hour dayOfWeek : Q) (loc : Location) : Q :=
  baseNoise loc + timeFactor hour + dayFactor dayOfWeek.

(** [random] is the value returned by the call of [Math.random()]. *)
Definition predictedNoise
    (hour dayOfWeek noiseLag : Q) (loc : Location) (random : Q) : Q :=
  (0.6 * noiseLag) + (0.4 * environmentalNoise hour dayOfWeek loc)
  + (random * 3 - 1.5).

Definition isNight (hour : Q) : bool := leb 22 hour || ltb hour 6.

Section WithRandom.

(** [draws n] is what the [n]-th call of [Math.random()] returns. *)
Variable draws : nat -> Q.

(** The state is the number of draws consumed. *)
Definition Math_random : M nat Q := fun n => (Ok (draws n), S n).

(** [noiseLimits[loc.zone][isNight ? 'night' : 'day']]: reading a
    property of [undefined] throws. *)
Definition limitOf (zoneName : string) (night_time : bool) : M nat Q :=
  match noiseLimits !! zoneName with
  | Some l => ret (if night_time then night l else day l)
  | None =>
      throw (TypeError "Cannot read properties of undefined")
  end.

Definition predictLocation
    (hour dayOfWeek noiseLag : Q) (loc : Location) : M nat MapDataPoint :=
  do r <- Math_random;
  let predicted := predictedNoise hour dayOfWeek noiseLag loc r in
  do limit <- limitOf (zone loc) (isNight hour);
  do c <- Math_random;
  ret {| location := name loc;
         latitude := lat loc;
         longitude := lon loc;
         predicted_noise := toFixed predicted 2;
         zone_type := zone loc;
         noise_limit := limit;
         is_violation := ltb limit predicted;
         confidence := toFixed (0.75 + c * 0.2) 2 |}.

Definition generateStaticPredictions
    (hour dayOfWeek noiseLag : Q) : M nat (list MapDataPoint) :=
  mapM (predictLocation hour dayOfWeek noiseLag) locations.

End WithRandom.

End Predictor.

(** ** The data utilities: [parseCSV] and [calculateKeyMetrics] *)

Module DataUtils.
Import JS.

Module StationRanking.
Record t : Type := {
  Location : string;
  Average_LAeq_dBA : Q;
  Zone_Type : string;
  Day_Limit_dBA : Q;
  Night_Limit_dBA : Q
}.
End StationRanking.

Module ExceedanceSummary.
Record t : Type := {
  Location : string;
  Zone_Type : string;
  Day_Limit_dBA : Q;
  Night_Limit_dBA : Q;
  Exceedance_Count : Q;
  Total_Count : Q;
  Exceedance_Percentage : Q
}.
End ExceedanceSummary.

(** A value of a row: [string | number]. *)
Inductive cell : Type :=
| NumberCell (n : number)
| StringCell (s : string).

(** [row[key] = v] on an object created by a literal.  The key
    [__proto__] reaches the setter of [Object.prototype], which ignores
    a string or a number: no property is created. *)
Definition assign (row : gmap string cell) (key : string) (v : cell)
    : gmap string cell :=
  if String.eqb key "__proto__" then row else <[key := v]> row.

(** [(value !== '' && !isNaN(numValue)) ? numValue : value] *)
Definition coerce (value : string) : cell :=
  let numValue := Number value in
  if negb (isEmpty value) && negb (isNaN numValue)
  then NumberCell numValue
  else StringCell value.

(** [headers.forEach((header, index) => ...)], from position [index];
    [values[index] || ''] is the empty string past the end of [values]. *)
Fixpoint forEachHeader (headers : list string) (index : nat)
    (values : list string) (row : gmap string cell) : gmap string cell :=
  match headers with
  | [] => row
  | header :: headers' =>
      let value := default EmptyString (values !! index) in
      forEachHeader headers' (S index) values
        (assign row header (coerce value))
  end.

(** The loop over the lines after the header line; [data] is the array
    built so far. *)
Fixpoint dataLoop (headers : list string) (lines : list string)
    (data : list (gmap string cell)) : list (gmap string cell) :=
  match lines with
  | [] => data
  | l :: lines' =>
      let line := trim l in
      if isEmpty line then dataLoop headers lines' data
      else
        let values := map trim (split "," line) in
        let row := forEachHeader headers 0 values ∅ in
        dataLoop headers lines' (data ++ [row])
  end.

Definition parseCSV (csvText : string) : list (gmap string cell) :=
  let lines := split "010" (trim csvText) in
  if (length lines <? 2)%nat then []
  else
    match lines with
    | [] => []
    | first :: rest =>
        let headers := map trim (split "," first) in
        dataLoop headers rest []
    end.

Record KeyMetrics : Type := {
  loudestStation : string;
  highestAvgNoise : Q;
  avgViolationRate : Q
}.

Definition calculateKeyMetrics
    (stationRankings : list StationRanking.t)
    (exceedanceSummary : list ExceedanceSummary.t) : KeyMetrics :=
  match stationRankings, exceedanceSummary with
  | first :: _, _ :: _ =>
      let totalViolationRate :=
        fold_left
          (fun sum station =>
             sum + ExceedanceSummary.Exceedance_Percentage station)
          exceedanceSummary 0 in
      let avgViolationRate :=
        totalViolationRate / inject_Z (Z.of_nat (length exceedanceSummary)) in
      {| loudestStation := StationRanking.Location first;
         highestAvgNoise :=
           toFixed (StationRanking.Average_LAeq_dBA first) 1;
         avgViolationRate := toFixed avgViolationRate 1 |}
  | _, _ =>
      {| loudestStation := "N/A";
         highestAvgNoise := 0;
         avgViolationRate := 0 |}
  end.

End DataUtils.

(** ** The Gemini service *)

Module Gemini.
Import JS.

Record Part : Type := { text : string }.
Record Content : Type := { parts : list Part }.
Record Candidate : Type := { content : Content }.

(** [candidates] is tested before use: [None] is a reply without it. *)
Record GeminiResponse : Type := { candidates : option (list Candidate) }.

(** [supportedGenerationMethods] is tested with [Array.isArray]: [None]
    is a value that is not an array. *)
Record ModelInfo : Type := {
  name : string;
  supportedGenerationMethods : option (list string)
}.

Record ListModelsResponse : Type := { models : list ModelInfo }.

(** A reply of [fetch].  [errorMessage] is [err?.error?.message] of the
    body read as JSON, [None] when the body is not JSON or has no such
    member; [json] is the body read as JSON with the shape the source
    casts it to, [None] when the body is not JSON. *)
Record Response (A : Type) : Type := {
  ok : bool;
  statusText : string;
  errorMessage : option string;
  json : option A
}.
Arguments ok {A} _.
Arguments statusText {A} _.
Arguments errorMessage {A} _.
Arguments json {A} _.

Inductive FetchResult (A : Type) : Type :=
| Rejected (e : exn)
| Resolved (resp : Response A).
Arguments Rejected {A} e.
Arguments Resolved {A} resp.

Record GenerationConfig : Type := {
  temperature : Q;
  maxOutputTokens : Z;
  topP : Q;
  topK : Z
}.

Record GenerateBody : Type := {
  contents : list (list string);
  generationConfig : GenerationConfig;
  safetySettings : list (string * string)
}.

Record Request : Type := {
  method : string;
  url : string;
  body : option GenerateBody
}.

(** [err?.error?.message || resp.statusText]: an empty message is falsy. *)
Definition messageOf {A} (resp : Response A) : string :=
  match errorMessage resp with
  | Some m => if isEmpty m then statusText resp else m
  | None => statusText resp
  end.

Section WithService.

Variable GEMINI_API_KEY : string.

(** The service: the reply to the request number [k] of the session,
    when that request lists the models and when it asks for content. *)
Variable listReply : nat -> FetchResult ListModelsResponse.
Variable generateReply : nat -> Request -> FetchResult GeminiResponse.

Definition MODELS_LIST_URL : string :=
  "https://generativelanguage.googleapis.com/v1beta/models?key="
  ++ GEMINI_API_KEY.

(** The state is the log of the requests sent so far. *)
Definition Net (A : Type) : Type := M (list Request) A.

Definition settle {A} (r : FetchResult A) : outcome (Response A) :=
  match r with
  | Rejected e => Throw e
  | Resolved resp => Ok resp
  end.

Definition fetchModels (req : Request)
    : Net (Response ListModelsResponse) :=
  fun log => (settle (listReply (length log)), log ++ [req]).

Definition fetchContent (req : Request)
    : Net (Response GeminiResponse) :=
  fun log => (settle (generateReply (length log) req), log ++ [req]).

(** [await resp.json()] *)
Definition readJson {A} (resp : Response A) : Net A :=
  match json resp with
  | Some data => ret data
  | None => throw (SyntaxError "Unexpected token in JSON")
  end.

Definition listRequest : Request :=
  {| method := "GET"; url := MODELS_LIST_URL; body := None |}.

Definition listAvailableModels : Net (list ModelInfo) :=
  do resp <- fetchModels listRequest;
  if negb (ok resp)
  then throw (Error ("Failed to list Gemini models: " ++ messageOf resp))
  else do data <- readJson resp; ret (models data).

Definition supportsGenerateContent (m : ModelInfo) : bool :=
  match supportedGenerationMethods m with
  | Some methods => existsb (String.eqb "generateContent") methods
  | None => false
  end.

Definition pickModelWithGenerateContent : Net string :=
  do models <- listAvailableModels;
  let usable := List.filter supportsGenerateContent models in
  match usable with
  | [] => throw (Error "No model supports generateContent in this project.")
  | m :: _ => ret (name m)
  end.

Definition generateRequest (modelName prompt : string) : Request :=
  {| method := "POST";
     url := "https://generativelanguage.googleapis.com/v1beta/"
            ++ modelName ++ ":generateContent?key=" ++ GEMINI_API_KEY;
     body := Some
       {| contents := [[prompt]];
          generationConfig :=
            {| temperature := 0.7; maxOutputTokens := 500;
               topP := 0.95; topK := 40 |};
          safetySettings :=
            [("HARM_CATEGORY_HARASSMENT", "BLOCK_NONE");
             ("HARM_CATEGORY_HATE_SPEECH", "BLOCK_NONE");
             ("HARM_CATEGORY_SEXUALLY_EXPLICIT", "BLOCK_NONE");
             ("HARM_CATEGORY_DANGEROUS_CONTENT", "BLOCK_NONE")]%string |} |}.

Definition callGeminiAPI (prompt : string) : Net string :=
  do modelName <- pickModelWithGenerateContent;
  do resp <- fetchContent (generateRequest modelName prompt);
  if negb (ok resp)
  then throw (Error ("Gemini API error: " ++ messageOf resp))
  else
    do data <- readJson resp;
    match candidates data with
    | None | Some [] => throw (Error "No response returned from Gemini API")
    | Some (first :: _) =>
        match parts (content first) with
        | [] =>
            throw (TypeError
                     "Cannot read properties of undefined (reading 'text')")
        | part :: _ => ret (trim (text part))
        end
    end.

End WithService.

End Gemini.

(** ** Reference definitions for the predictor

    The factors as the specification words them, on an integer hour and
    day, and the record that one location yields from its two draws. *)

Module PredictorSpec.
Import JS Predictor.

Definition specTimeFactor (hour : Z) : Q :=
  if (8 <=? hour)%Z && (hour <=? 10)%Z then 4.5
  else if (17 <=? hour)%Z && (hour <=? 20)%Z then 6.0
  else if (0 <=? hour)%Z && (hour <=? 5)%Z then -8.0
  else 0.

Definition specDayFactor (dayOfWeek : Z) : Q :=
  if (5 <=? dayOfWeek)%Z then -3.5 else 0.

Definition specEnvNoise (hour dayOfWeek : Z) (loc : Location) : Q :=
  baseNoise loc + specTimeFactor hour + specDayFactor dayOfWeek.

(** The limit of the zone of [loc]: the night limit when
    [hour >= 22] or [hour < 6], the day limit otherwise. *)
Definition specLimit (hour : Z) (loc : Location) : option Q :=
  l ← noiseLimits !! zone loc;
  Some (if (22 <=? hour)%Z || (hour <? 6)%Z then night l else day l).

Definition limitAt (hour : Q) (loc : Location) : Q :=
  match noiseLimits !! zone loc with
  | Some l => if isNight hour then night l else day l
  | None => 0
  end.

Definition pointOf (hour dayOfWeek noiseLag : Q) (loc : Location)
    (r c : Q) : MapDataPoint :=
  {| location := name loc;
     latitude := lat loc;
     longitude := lon loc;
     predicted_noise :=
       toFixed (predictedNoise hour dayOfWeek noiseLag loc r) 2;
     zone_type := zone loc;
     noise_limit := limitAt hour loc;
     is_violation :=
       ltb (limitAt hour loc) (predictedNoise hour dayOfWeek noiseLag loc r);
     confidence := toFixed (0.75 + c * 0.2) 2 |}.

(** The records of a run; none when the run throws. *)
Definition recordsOf (run : outcome (list MapDataPoint) * nat)
    : list MapDataPoint :=
  match fst run with
  | Ok recs => recs
  | Throw _ => []
  end.

End PredictorSpec.

(** ** Reference definitions for the data utilities *)

Module DataUtilsSpec.
Import JS DataUtils.

(** The trimmed lines that are not empty, in order. *)
Definition nonBlankLines (lines : list string) : list string :=
  List.filter (fun l => negb (isEmpty l)) (map trim lines).

(** The trimmed comma-separated fields of a line. *)
Definition cellsOf (line : string) : list string :=
  map trim (split "," line).

(** The record of one data line under the header fields [headers]. *)
Definition recordOf (headers : list string) (line : string)
    : gmap string cell :=
  forEachHeader headers 0 (cellsOf line) ∅.

(** A text of several lines. *)
Definition LF : string := String "010" EmptyString.

Definition unlines (lines : list string) : string :=
  match lines with
  | [] => EmptyString
  | l :: ls => fold_left (fun text line => text +:+ LF +:+ line) ls l
  end.

Definition sumQ (l : list Q) : Q := fold_right Qplus 0 l.

(** The unweighted arithmetic mean. *)
Definition mean (l : list Q) : Q :=
  sumQ l / inject_Z (Z.of_nat (length l)).

Definition placeholder : KeyMetrics :=
  {| loudestStation := "N/A"; highestAvgNoise := 0; avgViolationRate := 0 |}.

End DataUtilsSpec.

(** ** Reference definitions for the Gemini service *)

Module GeminiSpec.
Import JS Gemini.

(** A request fails when [fetch] rejects or the reply is not a success. *)
Definition requestFails {A} (r : FetchResult A) : Prop :=
  match r with
  | Rejected _ => True
  | Resolved resp => ok resp = false
  end.

(** A model whose [supportedGenerationMethods] contains
    [generateContent]. *)
Definition capable (m : ModelInfo) : bool :=
  match supportedGenerationMethods m with
  | Some methods => bool_decide ("generateContent"%string ∈ methods)
  | None => false
  end.

(** The first listed model that is capable. *)
Definition firstCapable (ms : list ModelInfo) : option ModelInfo :=
  List.find capable ms.

Definition noCandidates (g : GeminiResponse) : Prop :=
  candidates g = None \/ candidates g = Some [].

End GeminiSpec.

(** ** The predictive map component: colours, radii and summary values *)

Module PredictiveMap.
Import JS Predictor.

Definition getColor (noise : Q) : string :=
  if ltb 80 noise then "#ae017e"
  else if ltb 75 noise then "#f768a1"
  else if ltb 65 noise then "#fbb4b9"
  else "#feebe2".

Definition getRadius (noise : Q) : Z :=
  if ltb 80 noise then 35%Z
  else if ltb 75 noise then 30%Z
  else if ltb 65 noise then 25%Z
  else 20%Z.

(** The values derived from [mapData] on every render. *)
Definition avgNoise (mapData : list MapDataPoint) : Q :=
  if (0 <? length mapData)%nat
  then fold_left (fun sum d => sum + predicted_noise d) mapData 0
       / inject_Z (Z.of_nat (length mapData))
  else 0.

Definition violationCount (mapData : list MapDataPoint) : nat :=
  length (List.filter is_violation mapData).

Definition avgConfidence (mapData : list MapDataPoint) : Q :=
  if (0 <? length mapData)%nat
  then fold_left (fun sum d => sum + confidence d) mapData 0
       / inject_Z (Z.of_nat (length mapData))
  else 0.

(** *** The component state and [fetchPredictions] *)

Record UI : Type := {
  hour : Q;
  dayOfWeek : Q;
  noiseLag : Q;
  mapData : list MapDataPoint;
  isLoading : bool;
  loadingStage : string;
  loadingProgress : Q;
  error : string;
  updateKey : Z;
  isMapOpen : bool
}.

(** What a handler of the component acts on: the generator of
    [Math.random()], the time elapsed in timers (ms), the state of the
    component and the values passed to [console.error]. *)
Record World : Type := {
  rng : nat;
  clock : Z;
  ui : UI;
  console : list exn
}.

Definition setUI (f : UI -> UI) : M World unit :=
  fun w => (Ok tt, {| rng := rng w; clock := clock w; ui := f (ui w);
                      console := console w |}).

Definition setIsLoading (v : bool) : M World unit :=
  setUI (fun u =>
    {| hour := hour u; dayOfWeek := dayOfWeek u; noiseLag := noiseLag u;
       mapData := mapData u; isLoading := v; loadingStage := loadingStage u;
       loadingProgress := loadingProgress u; error := error u;
       updateKey := updateKey u; isMapOpen := isMapOpen u |}).

Definition setLoadingStage (v : string) : M World unit :=
  setUI (fun u =>
    {| hour := hour u; dayOfWeek := dayOfWeek u; noiseLag := noiseLag u;
       mapData := mapData u; isLoading := isLoading u; loadingStage := v;
       loadingProgress := loadingProgress u; error := error u;
       updateKey := updateKey u; isMapOpen := isMapOpen u |}).

Definition setLoadingProgress (v : Q) : M World unit :=
  setUI (fun u =>
    {| hour := hour u; dayOfWeek := dayOfWeek u; noiseLag := noiseLag u;
       mapData := mapData u; isLoading := isLoading u;
       loadingStage := loadingStage u; loadingProgress := v;
       error := error u; updateKey := updateKey u;
       isMapOpen := isMapOpen u |}).

Definition setError (v : string) : M World unit :=
  setUI (fun u =>
    {| hour := hour u; dayOfWeek := dayOfWeek u; noiseLag := noiseLag u;
       mapData := mapData u; isLoading := isLoading u;
       loadingStage := loadingStage u;
       loadingProgress := loadingProgress u; error := v;
       updateKey := updateKey u; isMapOpen := isMapOpen u |}).

Definition setMapData (v : list MapDataPoint) : M World unit :=
  setUI (fun u =>
    {| hour := hour u; dayOfWeek := dayOfWeek u; noiseLag := noiseLag u;
       mapData := v; isLoading := isLoading u;
       loadingStage := loadingStage u;
       loadingProgress := loadingProgress u; error := error u;
       updateKey := updateKey u; isMapOpen := isMapOpen u |}).

(** [setUpdateKey(prev => prev + 1)] *)
Definition setUpdateKey (f : Z -> Z) : M World unit :=
  setUI (fun u =>
    {| hour := hour u; dayOfWeek := dayOfWeek u; noiseLag := noiseLag u;
       mapData := mapData u; isLoading := isLoading u;
       loadingStage := loadingStage u;
       loadingProgress := loadingProgress u; error := error u;
       updateKey := f (updateKey u); isMapOpen := isMapOpen u |}).

(** [await new Promise(resolve => setTimeout(resolve, duration))] *)
Definition sleep (duration : Z) : M World unit :=
  fun w => (Ok tt, {| rng := rng w; clock := (clock w + duration)%Z;
                      ui := ui w; console := console w |}).

Definition console_error (e : exn) : M World unit :=
  fun w => (Ok tt, {| rng := rng w; clock := clock w; ui := ui w;
                      console := console w ++ [e] |}).

(** A computation on the generator, run in the world. *)
Definition withRandom {A} (m : M nat A) : M World A :=
  fun w => let '(r, n) := m (rng w) in
           (r, {| rng := n; clock := clock w; ui := ui w;
                  console := console w |}).

(** [try { body } catch (err) { handler } finally { cleanup }] *)
Definition tryCatchFinally {S} (body : M S unit) (handler : exn -> M S unit)
    (cleanup : M S unit) : M S unit :=
  fun s =>
    let '(r, s1) := match body s with
                    | (Ok a, s') => (Ok a, s')
                    | (Throw e, s') => handler e s'
                    end in
    match cleanup s1 with
    | (Ok _, s2) => (r, s2)
    | (Throw e, s2) => (Throw e, s2)
    end.

Record Stage : Type := {
  stage_name : string;
  duration : Z;
  progress : Q
}.

Definition stages : list Stage := [
  {| stage_name := "Initializing model..."; duration := 800; progress := 20 |};
  {| stage_name := "Loading features..."; duration := 600; progress := 40 |};
  {| stage_name := "Processing temporal data..."; duration := 700;
     progress := 60 |};
  {| stage_name := "Computing predictions..."; duration := 900;
     progress := 80 |};
  {| stage_name := "Finalizing results..."; duration := 500;
     progress := 100 |}
].

(** [for (const stage of stages) { ... }] *)
Fixpoint forStages (l : list Stage) : M World unit :=
  match l with
  | [] => ret tt
  | stage :: l' =>
      do _ <- setLoadingStage (stage_name stage);
      do _ <- setLoadingProgress (progress stage);
      do _ <- sleep (duration stage);
      forStages l'
  end.

Definition simulateLoading : M World unit := forStages stages.

Section WithRandom.

Variable draws : nat -> Q.

(** [hour], [dayOfWeek] and [noiseLag] are the values of the render in
    which the handler was created: those of the state it is called in. *)
Definition fetchPredictions : M World unit :=
  fun w =>
    let u := ui w in
    (do _ <- setIsLoading true;
     do _ <- setError "";
     do _ <- setLoadingProgress 0;
     tryCatchFinally
       (do _ <- simulateLoading;
        do predictions <-
          withRandom (generateStaticPredictions draws (hour u) (dayOfWeek u)
                        (noiseLag u));
        do _ <- setMapData predictions;
        setUpdateKey (fun prev => (prev + 1)%Z))
       (fun err =>
          do _ <- setError "Failed to generate predictions. Please try again.";
          console_error err)
       (do _ <- setIsLoading false;
        do _ <- setLoadingStage "";
        setLoadingProgress 0)) w.

End WithRandom.

End PredictiveMap.

(** ** Reference definitions for strings *)

Module StringSpec.
Import JS.

(** The last character of a string, when there is one. *)
Fixpoint lastChar (s : string) : option ascii :=
  match s with
  | EmptyString => None
  | String c EmptyString => Some c
  | String _ s' => lastChar s'
  end.

End StringSpec.

(** ** Reference definitions for the parser *)

Module ParseSpec.
Import JS DataUtils DataUtilsSpec.

(** The text with every line feed preceded by a carriage return. *)
Fixpoint crlf (s : string) : string :=
  match s with
  | EmptyString => EmptyString
  | String c s' =>
      if Ascii.eqb c "010" then String "013" (String "010" (crlf s'))
      else String c (crlf s')
  end.

(** The keys of the records of a text with the header fields [headers]. *)
Definition keysOf (headers : list string) : gset string :=
  list_to_set headers ∖ {[ "__proto__"%string ]}.

(** What a stored cell can be: a number other than [NaN], or a trimmed
    string that is empty or not numeric. *)
Definition wellFormedCell (c : cell) : Prop :=
  match c with
  | NumberCell n => isNaN n = false
  | StringCell v =>
      trim v = v /\ (v = EmptyString \/ isNaN (Number v) = true)
  end.

End ParseSpec.

(** ** The rest of the data utilities: [fetchCSV] and [getSeverityColor] *)

Module DataUtilsRest.
Import JS DataUtils.

(** [String(n)] for an integer below 1e21: its decimal digits. *)
Definition integerToString (n : Z) : string :=
  NilZero.string_of_int (Z.to_int n).

(** [String.prototype.toLowerCase] on the code units below 256: the
    letters A to Z and the accented capitals other than the
    multiplication sign move up by 32. *)
Definition lowerChar (c : ascii) : ascii :=
  let n := N_of_ascii c in
  if ((65 <=? n) && (n <=? 90)
      || (192 <=? n) && (n <=? 222) && negb (n =? 215))%N
  then ascii_of_N (n + 32)
  else c.

Fixpoint toLowerCase (s : string) : string :=
  match s with
  | EmptyString => EmptyString
  | String c s' => String (lowerChar c) (toLowerCase s')
  end.

(** [category] is the value of a property of a parsed row: absent
    ([undefined]), a string or a number.  Only a non-empty string passes
    the first test. *)
Definition getSeverityColor (category : option cell) : string :=
  match category with
  | Some (StringCell s) =>
      if isEmpty s then "default"
      else
        let lower := toLowerCase s in
        if String.eqb lower "extreme" then "destructive"
        else if String.eqb lower "severe" then "destructive"
        else if String.eqb lower "high" then "default"
        else if String.eqb lower "moderate" then "secondary"
        else if String.eqb lower "low" then "outline"
        else "default"
  | _ => "default"
  end.

(** A reply to the request of a table: [response.ok],
    [response.status] and the outcome of [await response.text()]. *)
Record TextResponse : Type := {
  ok : bool;
  status : Z;
  text : outcome string
}.

Inductive TextFetch : Type :=
| Rejected (e : exn)
| Resolved (resp : TextResponse).

(** What [fetchCSV] acts on: the URLs requested so far and the calls of
    [console.error] (message and error). *)
Record Page : Type := {
  requested : list string;
  console : list (string * exn)
}.

Section WithServer.

(** [import.meta.env.BASE_URL]; [None] when it is not defined. *)
Variable BASE_URL : option string.

(** The reply to the request number [k] of the page, for its URL. *)
Variable reply : nat -> string -> TextFetch.

Definition fetchText (url : string) : M Page TextResponse :=
  fun p =>
    (match reply (length (requested p)) url with
     | Rejected e => Throw e
     | Resolved resp => Ok resp
     end,
     {| requested := requested p ++ [url]; console := console p |}).

Definition readText (resp : TextResponse) : M Page string :=
  fun p => (text resp, p).

Definition console_error (message : string) (e : exn) : M Page unit :=
  fun p => (Ok tt, {| requested := requested p;
                      console := console p ++ [(message, e)] |}).

(** [try { body } catch (error) { handler }] *)
Definition tryCatch {S A} (body : M S A) (handler : exn -> M S A) : M S A :=
  fun s => match body s with
           | (Ok a, s') => (Ok a, s')
           | (Throw e, s') => handler e s'
           end.

(** [import.meta.env.BASE_URL || '/'] *)
Definition basePath : string :=
  match BASE_URL with
  | Some b => if isEmpty b then "/" else b
  | None => "/"
  end.

Definition fetchCSV (filename : string) : M Page (list (gmap string cell)) :=
  tryCatch
    (do response <- fetchText (basePath ++ "data/Tables/" ++ filename);
     if negb (ok response)
     then throw (Error ("Failed to fetch " ++ filename ++ ": "
                        ++ integerToString (status response)))
     else do csvText <- readText response; ret (parseCSV csvText))
    (fun error =>
       do _ <- console_error ("Error loading " ++ filename ++ ":") error;
       ret []).

End WithServer.

End DataUtilsRest.

(** ** The data table component: sorting *)

Module DataTable.
Import JS DataUtils.

Inductive Direction : Type := asc | desc.

Record SortState : Type := {
  sortColumn : string;
  sortDirection : Direction
}.

(** [useState('')] and [useState('desc')] *)
Definition initialSort : SortState :=
  {| sortColumn := ""; sortDirection := desc |}.

Definition handleSort (column : string) (st : SortState) : SortState :=
  if String.eqb (sortColumn st) column
  then {| sortColumn := sortColumn st;
          sortDirection := match sortDirection st with
                           | asc => desc
                           | desc => asc
                           end |}
  else {| sortColumn := column; sortDirection := desc |}.

(** [x - y] on numbers. *)
Definition minus (x y : number) : number :=
  match x, y with
  | NaN, _ | _, NaN => NaN
  | Finite a, Finite b => numberOf (a - b)
  | Finite _, PosInfinity => NegInfinity
  | Finite _, NegInfinity => PosInfinity
  | PosInfinity, PosInfinity => NaN
  | PosInfinity, _ => PosInfinity
  | NegInfinity, NegInfinity => NaN
  | NegInfinity, _ => NegInfinity
  end.

(** [v < 0], the test by which [sort] puts the first argument of the
    comparator before the second; 0 and [NaN] leave the order. *)
Definition negative (v : number) : bool :=
  match v with
  | Finite q => ltb q 0
  | NegInfinity => true
  | PosInfinity | NaN => false
  end.

(** [Array.prototype.sort] is stable; for a comparator that orders the
    elements consistently its result is the stable sort, computed here
    by insertion: an element goes before the first one that the
    comparator puts after it. *)
Fixpoint insert {A} (compare : A -> A -> number) (x : A) (l : list A)
    : list A :=
  match l with
  | [] => [x]
  | y :: l' =>
      if negative (compare x y) then x :: y :: l'
      else y :: insert compare x l'
  end.

Definition sort {A} (compare : A -> A -> number) (l : list A) : list A :=
  fold_left (fun sorted x => insert compare x sorted) l [].

Section WithLocale.

(** [String(n)] for a number and [a.localeCompare(b)], which depend on
    the runtime and its locale. *)
Variable numberToString : number -> string.
Variable localeCompare : string -> string -> number.

(** [String(value)] for the value of a property of a row. *)
Definition stringOf (value : option cell) : string :=
  match value with
  | None => "undefined"
  | Some (StringCell s) => s
  | Some (NumberCell n) => numberToString n
  end.

(** The comparator of [sortedData]. *)
Definition compareRows (st : SortState) (a b : gmap string cell) : number :=
  if isEmpty (sortColumn st) then Finite 0
  else
    let aVal := a !! sortColumn st in
    let bVal := b !! sortColumn st in
    match aVal, bVal with
    | Some (NumberCell x), Some (NumberCell y) =>
        match sortDirection st with
        | asc => minus x y
        | desc => minus y x
        end
    | _, _ =>
        let aStr := stringOf aVal in
        let bStr := stringOf bVal in
        match sortDirection st with
        | asc => localeCompare aStr bStr
        | desc => localeCompare bStr aStr
        end
    end.

(** [[...data].sort(...)]: [data] itself is not changed. *)
Definition sortedData (st : SortState) (data : list (gmap string cell))
    : list (gmap string cell) :=
  sort (compareRows st) data.

End WithLocale.

End DataTable.

(** ** Reference definitions for the data table *)

Module DataTableSpec.
Import JS DataUtils DataTable.

(** The finite number a row holds in a column (0 when it holds none). *)
Definition keyAt (column : string) (row : gmap string cell) : Q :=
  match row !! column with
  | Some (NumberCell (Finite q)) => q
  | _ => 0
  end.

(** Every row holds a finite number in the column. *)
Definition numericColumn (column : string) (data : list (gmap string cell))
    : Prop :=
  Forall (fun row => exists q, row !! column = Some (NumberCell (Finite q)))
         data.

(** The rows whose number in the column equals [k], in order. *)
Definition rowsWith (column : string) (k : Q)
    (data : list (gmap string cell)) : list (gmap string cell) :=
  List.filter (fun row => Qeq_bool (keyAt column row) k) data.

End DataTableSpec.

(** ** The CSV validation script *)

Module Validator.
Import JS DataUtils.

Record Options : Type := {
  numericColumns : option (list string);
  validateSeverity : bool
}.

(** The lines written by [log] and [console.log], each with the values
    it prints; a line and the hint printed with it are one message. *)
Inductive Message : Type :=
| FileNotFound (filename : string)
| Validating (filename : string)
| NoDataRows (filename : string) (lineCount : nat)
| HeadersFound (headers : list string)
| MissingColumns (missing required : list string)
| ExtraColumns (extra : list string)
| EmptyLine (lineNum : nat)
| ColumnCount (lineNum expected got : nat) (line : string)
| EmptyValues (lineNum : nat) (columns : list (option string))
| NotNumeric (lineNum : nat) (colName : string) (value : option string)
| InvalidSeverity (lineNum : nat) (value : string)
| DataRows (validRows : nat)
| ErrorsFound (errors : nat)
| WarningsFound (warnings : nat)
| AllRowsValid (validRows : nat)
| Banner
| AllFilesValid
| SomeFilesInvalid.

(** The counters of the loop and the output so far. *)
Record Tally : Type := {
  validRows : nat;
  errors : nat;
  warnings : nat;
  output : list Message
}.

Definition say (m : Message) (t : Tally) : Tally :=
  {| validRows := validRows t; errors := errors t; warnings := warnings t;
     output := output t ++ [m] |}.

Definition addError (m : Message) (t : Tally) : Tally :=
  {| validRows := validRows t; errors := S (errors t);
     warnings := warnings t; output := output t ++ [m] |}.

Definition addWarning (m : Message) (t : Tally) : Tally :=
  {| validRows := validRows t; errors := errors t;
     warnings := S (warnings t); output := output t ++ [m] |}.

Definition addValidRow (t : Tally) : Tally :=
  {| validRows := S (validRows t); errors := errors t;
     warnings := warnings t; output := output t |}.

(** [l.includes(x)] *)
Definition includes (l : list string) (x : string) : bool :=
  existsb (String.eqb x) l.

(** [l.indexOf(x)]; [None] stands for -1. *)
Fixpoint indexOf (x : string) (l : list string) : option nat :=
  match l with
  | [] => None
  | y :: l' => if String.eqb y x then Some 0%nat
               else option_map S (indexOf x l')
  end.

Definition validCategories : list string :=
  ["Extreme"; "Severe"; "High"; "Moderate"; "Low"].

(** [values.map((v, idx) => v === '' ? idx : -1).filter(idx => idx !== -1)] *)
Fixpoint emptyIndices (values : list string) (idx : nat) : list nat :=
  match values with
  | [] => []
  | v :: values' =>
      if isEmpty v then idx :: emptyIndices values' (S idx)
      else emptyIndices values' (S idx)
  end.

(** [options.numericColumns.forEach(colName => ...)]; a value that is
    missing is not [''] and converts to [NaN]. *)
Fixpoint checkNumeric (headers values : list string) (lineNum : nat)
    (columns : list string) (t : Tally) : Tally :=
  match columns with
  | [] => t
  | colName :: columns' =>
      let t' :=
        match indexOf colName headers with
        | Some idx =>
            match values !! idx with
            | Some v =>
                if negb (isEmpty v) && isNaN (Number v)
                then addError (NotNumeric lineNum colName (Some v)) t
                else t
            | None => addError (NotNumeric lineNum colName None) t
            end
        | None => t
        end in
      checkNumeric headers values lineNum columns' t'
  end.

Definition checkSeverity (headers values : list string) (lineNum : nat)
    (t : Tally) : Tally :=
  match indexOf "Severity_Category" headers with
  | Some idx =>
      match values !! idx with
      | Some v =>
          if negb (isEmpty v) && negb (includes validCategories v)
          then addError (InvalidSeverity lineNum v) t
          else t
      | None => t
      end
  | None => t
  end.

(** The loop over the data lines; [i] is the index of the first of
    [lines] in the file. *)
Fixpoint rowLoop (headers : list string) (options : Options)
    (lines : list string) (i : nat) (t : Tally) : Tally :=
  match lines with
  | [] => t
  | l :: lines' =>
      let lineNum := (i + 1)%nat in
      let line := trim l in
      if isEmpty line
      then rowLoop headers options lines' (S i)
             (addWarning (EmptyLine lineNum) t)
      else
        let values := map trim (split "," line) in
        if negb (length values =? length headers)%nat
        then rowLoop headers options lines' (S i)
               (addError (ColumnCount lineNum (length headers)
                            (length values) line) t)
        else
          let empties := emptyIndices values 0 in
          let t1 :=
            match empties with
            | [] => t
            | _ :: _ =>
                addWarning
                  (EmptyValues lineNum (map (fun idx => headers !! idx) empties))
                  t
            end in
          let t2 :=
            match numericColumns options with
            | Some columns => checkNumeric headers values lineNum columns t1
            | None => t1
            end in
          let t3 :=
            if validateSeverity options
            then checkSeverity headers values lineNum t2
            else t2 in
          rowLoop headers options lines' (S i) (addValidRow t3)
  end.

Definition summary (t : Tally) : Tally :=
  let t1 := say (DataRows (validRows t)) t in
  let t2 := if (0 <? errors t)%nat then say (ErrorsFound (errors t)) t1
            else t1 in
  let t3 := if (0 <? warnings t)%nat
            then say (WarningsFound (warnings t)) t2 else t2 in
  if (errors t =? 0)%nat && (warnings t =? 0)%nat
  then say (AllRowsValid (validRows t)) t3 else t3.

Section WithFiles.

(** [files filename] is the content of the file of that name in
    [public/data/Tables], [None] when there is no such file. *)
Variable files : string -> option string.

Definition validateCSV (filename : string) (requiredColumns : list string)
    (options : Options) : bool * list Message :=
  match files filename with
  | None => (false, [FileNotFound filename])
  | Some content =>
      let lines := split "010" (trim content) in
      let out := [Validating filename] in
      if (length lines <? 2)%nat
      then (false, out ++ [NoDataRows filename (length lines)])
      else
        match lines with
        | [] => (false, out)
        | first :: rest =>
            let headers := map trim (split "," first) in
            let out := out ++ [HeadersFound headers] in
            let missing :=
              List.filter (fun col => negb (includes headers col))
                requiredColumns in
            match missing with
            | _ :: _ => (false, out ++ [MissingColumns missing requiredColumns])
            | [] =>
                let extra :=
                  List.filter (fun h => negb (includes requiredColumns h))
                    headers in
                let out := match extra with
                           | [] => out
                           | _ :: _ => out ++ [ExtraColumns extra]
                           end in
                let t := rowLoop headers options rest 1
                           {| validRows := 0; errors := 0; warnings := 0;
                              output := out |} in
                ((errors t =? 0)%nat, output (summary t))
            end
        end
  end.

(** The three checks of the script, the status it exits with and what it
    has printed by then; [allValid &= ...] runs every check. *)
Definition main : Z * list Message :=
  let '(v1, o1) :=
    validateCSV "01_station_rankings.csv"
      ["Location"; "Average_LAeq_dBA"; "Zone_Type"; "Day_Limit_dBA";
       "Night_Limit_dBA"]
      {| numericColumns :=
           Some ["Average_LAeq_dBA"; "Day_Limit_dBA"; "Night_Limit_dBA"];
         validateSeverity := false |} in
  let '(v2, o2) :=
    validateCSV "02_exceedance_summary.csv"
      ["Location"; "Zone_Type"; "Day_Limit_dBA"; "Night_Limit_dBA";
       "Exceedance_Count"; "Total_Count"; "Exceedance_Percentage"]
      {| numericColumns :=
           Some ["Day_Limit_dBA"; "Night_Limit_dBA"; "Exceedance_Count";
                 "Total_Count"; "Exceedance_Percentage"];
         validateSeverity := false |} in
  let '(v3, o3) :=
    validateCSV "04_violation_severity.csv"
      ["Location"; "Zone_Type"; "Avg_Excess_dBA"; "Max_Excess_dBA";
       "Severity_Category"]
      {| numericColumns := Some ["Avg_Excess_dBA"; "Max_Excess_dBA"];
         validateSeverity := true |} in
  let allValid := v1 && v2 && v3 in
  let out := [Banner] ++ o1 ++ o2 ++ o3 in
  if allValid then (0%Z, out ++ [AllFilesValid])
  else (1%Z, out ++ [SomeFilesInvalid]).

End WithFiles.

End Validator.

(** ** What the validation script checks, in terms of the parsed file *)

Module ValidatorSpec.
Import JS DataUtils DataUtilsSpec Validator.

(** The value of a line in the first column named [colName]. *)
Definition valueAt (headers values : list string) (colName : string)
    : option string :=
  match indexOf colName headers with
  | Some idx => values !! idx
  | None => None
  end.

(** A cell that is empty or converts to a number. *)
Definition numericOrEmpty (v : string) : bool :=
  isEmpty v || negb (isNaN (Number v)).

Definition categoryOrEmpty (v : string) : bool :=
  isEmpty v || includes validCategories v.

(** A data line without an error. *)
Definition lineOk (headers : list string) (options : Options)
    (line : string) : bool :=
  let values := cellsOf line in
  (length values =? length headers)%nat
  && forallb (fun colName =>
                match valueAt headers values colName with
                | Some v => numericOrEmpty v
                | None => true
                end)
       (default [] (numericColumns options))
  && (negb (validateSeverity options)
      || match valueAt headers values "Severity_Category" with
         | Some v => categoryOrEmpty v
         | None => true
         end).

(** The column occurs once among the header fields. *)
Definition occursOnce (colName : string) (headers : list string) : Prop :=
  length (List.filter (String.eqb colName) headers) = 1%nat.

(** A directory with one table, for the examples. *)
Definition sampleFiles (filename : string) : option string :=
  if String.eqb filename "levels.csv"
  then Some (unlines ["Location,Level"; "ito,61.5"; EmptyString; "nsit,"])
  else None.

End ValidatorSpec.

(** ** The panels that ask the Gemini service: [AISummary], [PolicyModal]

    A handler is run from its call to the end of its [finally] block;
    what the page does while a request is under way is not modelled. *)

Module AIPanels.
Import JS DataUtils Gemini.

(** [err.message] *)
Definition message (err : exn) : string :=
  match err with
  | TypeError m | SyntaxError m | Error m => m
  end.

(** The state of a panel: the text shown ([summary] in [AISummary],
    [suggestions] in [PolicyModal]), [loading] and [error]. *)
Record Panel : Type := {
  shown : string;
  loading : bool;
  error : string
}.

Record Page : Type := {
  panel : Panel;
  requests : list Request
}.

Definition setShown (v : string) (w : Page) : Page :=
  {| panel := {| shown := v; loading := loading (panel w);
                 error := error (panel w) |};
     requests := requests w |}.

Definition setLoading (v : bool) (w : Page) : Page :=
  {| panel := {| shown := shown (panel w); loading := v;
                 error := error (panel w) |};
     requests := requests w |}.

Definition setError (v : string) (w : Page) : Page :=
  {| panel := {| shown := shown (panel w); loading := loading (panel w);
                 error := v |};
     requests := requests w |}.

(** [await call] inside [try { ... } catch (err) { ... }]: the requests
    of the call are logged, then one of the two branches runs; every
    value thrown in the model is an [Error]. *)
Definition tryAwait (call : M (list Request) string)
    (onResult : string -> Page -> Page) (onError : exn -> Page -> Page)
    (w : Page) : Page :=
  match call (requests w) with
  | (Ok result, log) =>
      onResult result {| panel := panel w; requests := log |}
  | (Throw err, log) =>
      onError err {| panel := panel w; requests := log |}
  end.

Record PolicyLocation : Type := {
  name : string;
  zoneType : string;
  violationRate : Q;
  avgNoise : Q;
  limit : Q
}.

(** The button of [AISummary]: [disabled={loading || !!summary}]. *)
Definition disabled (p : Panel) : bool :=
  loading p || negb (isEmpty (shown p)).

Section WithService.

Variable GEMINI_API_KEY : string.
Variable listReply : nat -> FetchResult ListModelsResponse.
Variable generateReply : nat -> Request -> FetchResult GeminiResponse.

(** The texts of the two prompts, which print numbers as the engine
    does. *)
Variable analysisPrompt : KeyMetrics -> string.
Variable policyPrompt : PolicyLocation -> string.

Definition generateAnalysisSummary (keyMetrics : KeyMetrics)
    : M (list Request) string :=
  callGeminiAPI GEMINI_API_KEY listReply generateReply
    (analysisPrompt keyMetrics).

Definition generatePolicySuggestions (location : PolicyLocation)
    : M (list Request) string :=
  callGeminiAPI GEMINI_API_KEY listReply generateReply
    (policyPrompt location).

Definition handleGenerateSummary (keyMetrics : KeyMetrics) (w : Page)
    : Page :=
  let w := setLoading true w in
  let w := setError EmptyString w in
  let w := tryAwait (generateAnalysisSummary keyMetrics)
             setShown (fun err => setError (message err)) w in
  setLoading false w.

Definition generateSuggestions (location : option PolicyLocation)
    (w : Page) : Page :=
  match location with
  | None => w
  | Some loc =>
      let w := setLoading true w in
      let w := setError EmptyString w in
      let w := setShown EmptyString w in
      let w := tryAwait (generatePolicySuggestions loc)
                 setShown (fun err => setError (message err)) w in
      setLoading false w
  end.

(** The effect of [PolicyModal], run when [isOpen] or [location]
    changes. *)
Definition policyEffect (isOpen : bool) (location : option PolicyLocation)
    (w : Page) : Page :=
  if isOpen && bool_decide (is_Some location)
  then generateSuggestions location w
  else setError EmptyString (setShown EmptyString w).

End WithService.

End AIPanels.

(** * Properties *)

Module JSFacts.
Import JS.

Lemma ltb_lt x y : ltb x y = true <-> x < y.
Proof.
  unfold ltb. rewrite negb_true_iff, <- not_true_iff_false, Qle_bool_iff.
  split; [apply Qnot_le_lt | apply Qlt_not_le].
Qed.

Lemma ltb_ge x y : ltb x y = false <-> y <= x.
Proof. unfold ltb. rewrite negb_false_iff. apply Qle_bool_iff. Qed.

Lemma leb_le x y : leb x y = true <-> x <= y.
Proof. apply Qle_bool_iff. Qed.

Lemma leb_gt x y : leb x y = false <-> y < x.
Proof.
  unfold leb. rewrite <- not_true_iff_false, Qle_bool_iff.
  split; [apply Qnot_le_lt | apply Qlt_not_le].
Qed.

Lemma leb_inject_Z a b : leb (inject_Z a) (inject_Z b) = (a <=? b)%Z.
Proof.
  unfold leb, Qle_bool, inject_Z. simpl. now rewrite !Z.mul_1_r.
Qed.

Lemma ltb_inject_Z a b : ltb (inject_Z a) (inject_Z b) = (a <? b)%Z.
Proof.
  unfold ltb. change (Qle_bool ?x ?y) with (leb x y).
  rewrite leb_inject_Z. now rewrite Z.ltb_antisym.
Qed.

Lemma inject_Z_between (lo hi z : Z) :
  (lo <= z <= hi)%Z -> inject_Z lo <= inject_Z z /\ inject_Z z <= inject_Z hi.
Proof. rewrite <- !Zle_Qle. tauto. Qed.

(** Rounding to the nearest integer does not cross an integer. *)
Lemma nearest_up_ge (A : Z) (y : Q) :
  inject_Z A <= y -> (A <= nearest_up y)%Z.
Proof.
  intros HA. unfold nearest_up.
  rewrite <- (Qfloor_Z A). apply Qfloor_resp_le. lra.
Qed.

Lemma nearest_up_le (B : Z) (y : Q) :
  y <= inject_Z B -> (nearest_up y <= B)%Z.
Proof.
  intros HB. unfold nearest_up.
  assert (H : inject_Z (Qfloor (y + (1 # 2))) < inject_Z (B + 1)).
  { pose proof (Qfloor_le (y + (1 # 2))) as Hf.
    rewrite inject_Z_plus. change (inject_Z 1) with 1. lra. }
  rewrite <- Zlt_Qlt in H. lia.
Qed.

Lemma toFixed_small_nonneg (x : Q) (d : nat) :
  0 <= x -> x < pow10 21 ->
  toFixed x d = inject_Z (nearest_up (x * pow10 d)) / pow10 d.
Proof.
  intros H0 H1. unfold toFixed.
  assert (Hl : leb (pow10 21) (Qabs x) = false).
  { apply leb_gt. rewrite Qabs_pos by assumption. assumption. }
  assert (Hn : ltb x 0 = false) by (now apply ltb_ge).
  now rewrite Hl, Hn.
Qed.

(** On the two-decimal grid: [x.toFixed(2)] does not cross a grid
    point. *)
Lemma toFixed2_lower (A : Z) (x : Q) :
  0 <= x -> x < pow10 21 ->
  inject_Z A <= x * 100 -> inject_Z A / 100 <= toFixed x 2.
Proof.
  intros H0 H1 HA.
  rewrite (toFixed_small_nonneg x 2 H0 H1).
  change (pow10 2) with 100.
  pose proof (nearest_up_ge A (x * 100) HA) as Hlo.
  rewrite Zle_Qle in Hlo.
  set (k := inject_Z (nearest_up (x * 100))) in *.
  unfold Qdiv. change (/ 100) with (1 # 100). lra.
Qed.

Lemma toFixed2_upper (B : Z) (x : Q) :
  0 <= x -> x < pow10 21 ->
  x * 100 <= inject_Z B -> toFixed x 2 <= inject_Z B / 100.
Proof.
  intros H0 H1 HB.
  rewrite (toFixed_small_nonneg x 2 H0 H1).
  change (pow10 2) with 100.
  pose proof (nearest_up_le B (x * 100) HB) as Hhi.
  rewrite Zle_Qle in Hhi.
  set (k := inject_Z (nearest_up (x * 100))) in *.
  unfold Qdiv. change (/ 100) with (1 # 100). lra.
Qed.

Lemma toFixed2_between (A B : Z) (x : Q) :
  0 <= x -> x < pow10 21 ->
  inject_Z A <= x * 100 -> x * 100 < inject_Z B ->
  inject_Z A / 100 <= toFixed x 2 /\ toFixed x 2 <= inject_Z B / 100.
Proof.
  intros H0 H1 HA HB. split.
  - now apply toFixed2_lower.
  - apply toFixed2_upper; auto. lra.
Qed.

(** An integer lies on the two-decimal grid: rounding can reach it but
    not cross it. *)
Lemma toFixed2_integer_order (L : Z) (x : Q) :
  0 <= x -> x < pow10 21 ->
  (inject_Z L < toFixed x 2 -> inject_Z L < x)
  /\ (inject_Z L < x -> inject_Z L <= toFixed x 2).
Proof.
  intros H0 H1.
  assert (HL : inject_Z (100 * L) == 100 * inject_Z L)
    by (now rewrite inject_Z_mult).
  split; intros H.
  - destruct (Qlt_le_dec (inject_Z L) x) as [Hlt | Hge]; [assumption |].
    pose proof (toFixed2_upper (100 * L) x H0 H1) as Hup.
    unfold Qdiv in Hup. change (/ 100) with (1 # 100) in Hup.
    assert (Hx : x * 100 <= inject_Z (100 * L)) by lra.
    specialize (Hup Hx). lra.
  - pose proof (toFixed2_lower (100 * L) x H0 H1) as Hlow.
    unfold Qdiv in Hlow. change (/ 100) with (1 # 100) in Hlow.
    assert (Hx : inject_Z (100 * L) <= x * 100) by lra.
    specialize (Hlow Hx). lra.
Qed.

(** The primitives on sample inputs. *)
Example toFixed_samples :
  toFixed 65.0037109375 2 == 65 /\ toFixed 0.125 2 == 0.13
  /\ toFixed (-0.125) 2 == -0.13 /\ toFixed 76.46 1 == 76.5
  /\ toFixed 0.9498046875 2 == 0.95 /\ toFixed 0.944 2 == 0.94.
Proof. repeat split. Qed.

Example trim_samples :
  map trim [" a b "; "x  "; "   "; ""]%string = ["a b"; "x"; ""; ""]%string.
Proof. reflexivity. Qed.

Example split_samples :
  map (split ",") ["a,b"; ""; "a,"; "a,,b"]%string
  = [["a"; "b"]; [""]; ["a"; ""]; ["a"; ""; "b"]]%string.
Proof. reflexivity. Qed.

Example Number_samples :
  map Number ["1"; " 12 "; "1.50"; "-3.25"; ".5"; "5."; "1e3"; "0x1F"; ""]%string
  = [Finite 1; Finite 12; Finite (3 # 2); Finite (-13 # 4); Finite (1 # 2);
     Finite 5; Finite 1000; Finite 31; Finite 0]
  /\ map Number ["."; "1e"; "12px"; "1_000"; "-0x10"; "High"; "infinity"]%string
     = [NaN; NaN; NaN; NaN; NaN; NaN; NaN]
  /\ map Number ["Infinity"; "-Infinity"; "1e999"; "-1.8e308"]%string
     = [PosInfinity; NegInfinity; PosInfinity; NegInfinity].
Proof. repeat split; vm_compute; reflexivity. Qed.

(** [toFixed] reads its argument as a number: equal rationals give
    equal results. *)
Lemma toFixed_comp (x y : Q) (d : nat) :
  x == y -> toFixed x d == toFixed y d.
Proof.
  intros Hxy. unfold toFixed, leb, ltb.
  rewrite (Qleb_comp _ _ (Qeq_refl (pow10 21)) _ _ (Qabs_wd _ _ Hxy)).
  rewrite (Qleb_comp _ _ (Qeq_refl 0) _ _ Hxy).
  destruct (Qle_bool (pow10 21) (Qabs y)); [assumption |].
  unfold nearest_up.
  destruct (Qle_bool 0 y); cbn [negb].
  - rewrite (Qfloor_comp (x * pow10 d + (1 # 2)) (y * pow10 d + (1 # 2)));
      [reflexivity | now rewrite Hxy].
  - rewrite (Qfloor_comp (- x * pow10 d + (1 # 2))
               (- y * pow10 d + (1 # 2)));
      [reflexivity | now rewrite Hxy].
Qed.

(** Rounding to the nearest integer moves a value by at most 1/2. *)
Lemma nearest_up_close (y : Q) :
  y - (1 # 2) < inject_Z (nearest_up y) /\ inject_Z (nearest_up y) <= y + (1 # 2).
Proof.
  unfold nearest_up.
  pose proof (Qfloor_le (y + (1 # 2))) as Hle.
  pose proof (Qlt_floor (y + (1 # 2))) as Hlt.
  rewrite inject_Z_plus in Hlt. change (inject_Z 1) with 1 in Hlt.
  split; lra.
Qed.

(** [x.toFixed(1)] is within 0.05 of [x]. *)
Lemma toFixed1_close (x : Q) : Qabs (toFixed x 1 - x) <= 0.05.
Proof.
  apply Qabs_Qle_condition. unfold toFixed.
  destruct (leb (pow10 21) (Qabs x)); [split; lra |].
  change (pow10 1) with 10. unfold Qdiv. change (/ 10) with (1 # 10).
  destruct (ltb x 0).
  - destruct (nearest_up_close (- x * 10)) as [Hlo Hhi].
    set (k := inject_Z (nearest_up (- x * 10))) in *. split; lra.
  - destruct (nearest_up_close (x * 10)) as [Hlo Hhi].
    set (k := inject_Z (nearest_up (x * 10))) in *. split; lra.
Qed.

End JSFacts.

Module PredictorFacts.
Import JS JSFacts Predictor PredictorSpec.

(** Splits a property of all nine records into one goal per record. *)
Ltac each_record :=
  repeat match goal with
         | |- Forall2 _ (_ :: _) (_ :: _) => constructor
         | |- Forall2 _ [] [] => constructor
         | |- Forall _ (_ :: _) => constructor
         | |- Forall _ [] => constructor
         end.

(** One run of [generateStaticPredictions] from generator state [n]:
    location [i] reads the draws [2i + n] (jitter) and [2i + 1 + n]
    (confidence), and 18 draws are consumed. *)
Lemma generate_run (draws : nat -> Q) (hour dayOfWeek noiseLag : Q) (n : nat) :
  generateStaticPredictions draws hour dayOfWeek noiseLag n =
  (Ok (imap (fun i loc =>
               pointOf hour dayOfWeek noiseLag loc
                 (draws (2 * i + n)%nat) (draws (S (2 * i) + n)%nat))
            locations),
   (18 + n)%nat).
Proof. reflexivity. Qed.

Lemma timeFactor_Z (hour : Z) :
  timeFactor (inject_Z hour) = specTimeFactor hour.
Proof.
  unfold timeFactor, specTimeFactor.
  change 8 with (inject_Z 8). change 10 with (inject_Z 10).
  change 17 with (inject_Z 17). change 20 with (inject_Z 20).
  change 0 with (inject_Z 0) at 1. change 5 with (inject_Z 5).
  now rewrite !leb_inject_Z.
Qed.

Lemma dayFactor_Z (dayOfWeek : Z) :
  dayFactor (inject_Z dayOfWeek) = specDayFactor dayOfWeek.
Proof.
  unfold dayFactor, specDayFactor.
  change 5 with (inject_Z 5). now rewrite leb_inject_Z.
Qed.

Lemma isNight_Z (hour : Z) :
  isNight (inject_Z hour) = (22 <=? hour)%Z || (hour <? 6)%Z.
Proof.
  unfold isNight.
  change 22 with (inject_Z 22). change 6 with (inject_Z 6).
  now rewrite leb_inject_Z, ltb_inject_Z.
Qed.

Lemma environmentalNoise_Z (hour dayOfWeek : Z) (loc : Location) :
  environmentalNoise (inject_Z hour) (inject_Z dayOfWeek) loc =
  specEnvNoise hour dayOfWeek loc.
Proof.
  unfold environmentalNoise, specEnvNoise.
  now rewrite timeFactor_Z, dayFactor_Z.
Qed.

(** The factors are multiples of 0.025, so 40 times a factor is an
    integer. *)
Lemma specTimeFactor_grid (hour : Z) :
  exists t : Z,
    specTimeFactor hour * 40 == inject_Z t /\ (-320 <= t <= 240)%Z.
Proof.
  unfold specTimeFactor.
  destruct ((8 <=? hour)%Z && (hour <=? 10)%Z);
    [exists 180%Z; split; [reflexivity | lia] |].
  destruct ((17 <=? hour)%Z && (hour <=? 20)%Z);
    [exists 240%Z; split; [reflexivity | lia] |].
  destruct ((0 <=? hour)%Z && (hour <=? 5)%Z);
    [exists (-320)%Z; split; [reflexivity | lia] |].
  exists 0%Z; split; [reflexivity | lia].
Qed.

Lemma specDayFactor_grid (dayOfWeek : Z) :
  exists t : Z,
    specDayFactor dayOfWeek * 40 == inject_Z t /\ (-140 <= t <= 0)%Z.
Proof.
  unfold specDayFactor.
  destruct (5 <=? dayOfWeek)%Z;
    [exists (-140)%Z | exists 0%Z]; (split; [reflexivity | lia]).
Qed.

Lemma pow10_21_large : 1000000 <= pow10 21.
Proof. apply Qle_bool_imp_le. reflexivity. Qed.

(** The jitter moves the rounded prediction at most 1.5 away from the
    blend of prior and environmental noise. *)
Lemma predicted_noise_within (hour dayOfWeek lag b : Z) (loc : Location) (r : Q) :
  baseNoise loc = inject_Z b ->
  (0 <= lag <= 1000)%Z -> (20 <= b <= 1000)%Z ->
  0 <= r -> r < 1 ->
  let centre :=
    0.6 * inject_Z lag + 0.4 * specEnvNoise hour dayOfWeek loc in
  centre - 1.5 <=
    toFixed (predictedNoise (inject_Z hour) (inject_Z dayOfWeek)
               (inject_Z lag) loc r) 2
  /\ toFixed (predictedNoise (inject_Z hour) (inject_Z dayOfWeek)
                (inject_Z lag) loc r) 2
     <= centre + 1.5.
Proof.
  intros Hb Hlag Hbase Hr0 Hr1 centre. subst centre.
  unfold predictedNoise. rewrite environmentalNoise_Z.
  unfold specEnvNoise. rewrite Hb.
  destruct (specTimeFactor_grid hour) as (t & Ht & Htb).
  destruct (specDayFactor_grid dayOfWeek) as (d & Hd & Hdb).
  generalize dependent (specTimeFactor hour); intros tf Ht.
  generalize dependent (specDayFactor dayOfWeek); intros df Hd.
  pose proof pow10_21_large as Hbig.
  assert (HL : 0 <= inject_Z lag <= 1000)
    by (apply (inject_Z_between 0 1000); lia).
  assert (HB : 20 <= inject_Z b <= 1000)
    by (apply (inject_Z_between 20 1000); lia).
  assert (HT : -320 <= inject_Z t <= 240)
    by (apply (inject_Z_between (-320) 240); lia).
  assert (HD : -140 <= inject_Z d <= 0)
    by (apply (inject_Z_between (-140) 0); lia).
  set (x := 0.6 * inject_Z lag + 0.4 * (inject_Z b + tf + df)
            + (r * 3 - 1.5)).
  destruct (toFixed2_between (60 * lag + 40 * b + t + d - 150)
              (60 * lag + 40 * b + t + d + 150) x) as [Hlo Hhi].
  - subst x. lra.
  - subst x. lra.
  - unfold Z.sub. rewrite !inject_Z_plus, !inject_Z_mult, inject_Z_opp.
    change (inject_Z 60) with 60. change (inject_Z 40) with 40.
    change (inject_Z 150) with 150. subst x. lra.
  - rewrite !inject_Z_plus, !inject_Z_mult.
    change (inject_Z 60) with 60. change (inject_Z 40) with 40.
    change (inject_Z 150) with 150. subst x. lra.
  - unfold Z.sub in Hlo.
    rewrite !inject_Z_plus, !inject_Z_mult in Hlo, Hhi.
    rewrite inject_Z_opp in Hlo.
    change (inject_Z 60) with 60 in Hlo, Hhi.
    change (inject_Z 40) with 40 in Hlo, Hhi.
    change (inject_Z 150) with 150 in Hlo, Hhi.
    unfold Qdiv in Hlo, Hhi.
    change (/ 100) with (1 # 100) in Hlo, Hhi.
    split; lra.
Qed.



(** C9: the records come in the order of the compiled-in location list,
    each with the identifier, latitude, longitude and zone of its
    location, and every [noise_limit] is a day or night entry of the
    four-zone limit table. *)
Theorem generateStaticPredictions_locations
    (draws : nat -> Q) (hour dayOfWeek noiseLag : Q) (n : nat) :
  exists recs,
    generateStaticPredictions draws hour dayOfWeek noiseLag n
      = (Ok recs, (18 + n)%nat)
    /\ map location recs =
         ["nsit"; "ito"; "punjabi"; "isbt"; "mandir_marg"; "civil_lines";
          "CPCBHQ"; "Dilshad"; "centralschool"]%string
    /\ map (fun rec => (latitude rec, longitude rec, zone_type rec)) recs =
         [(28.61, 77.04, "Silence Zone"); (28.631, 77.248, "Commercial");
          (28.66, 77.12, "Residential"); (28.667, 77.231, "Commercial");
          (28.628, 77.203, "Commercial"); (28.678, 77.222, "Residential");
          (28.59, 77.25, "Commercial"); (28.68, 77.31, "Residential");
          (28.53, 77.25, "Silence Zone")]%string
    /\ size noiseLimits = 4%nat
    /\ Forall (fun rec =>
          exists l, noiseLimits !! zone_type rec = Some l
                    /\ (noise_limit rec = day l \/ noise_limit rec = night l))
         recs.
Proof.
  rewrite generate_run. eexists. split; [reflexivity |].
  split; [reflexivity |]. split; [reflexivity |]. split; [reflexivity |].
  unfold locations; cbv [imap compose]; each_record;
    cbn [noise_limit zone_type pointOf]; unfold limitAt;
    (eexists; split; [reflexivity |]);
    destruct (isNight hour); auto.
Qed.

Lemma recordsOf_generate (draws : nat -> Q) (hour dayOfWeek noiseLag : Q)
    (n i : nat) (rec : MapDataPoint) :
  recordsOf (generateStaticPredictions draws hour dayOfWeek noiseLag n) !! i
    = Some rec <->
  exists loc,
    locations !! i = Some loc
    /\ rec = pointOf hour dayOfWeek noiseLag loc
              (draws (2 * i + n)%nat) (draws (S (2 * i) + n)%nat).
Proof.
  rewrite generate_run. cbn [recordsOf fst]. apply list_lookup_imap_Some.
Qed.

(** What the compiled-in tables hold: integer base noises between 62 and
    76, and for every location a zone of the limit table with integer
    limits between 40 and 75. *)
Lemma locations_facts (loc : Location) :
  loc ∈ locations ->
  exists (b : Z) (l : Limits) (dl nl : Z),
    baseNoise loc = inject_Z b /\ (62 <= b <= 76)%Z
    /\ noiseLimits !! zone loc = Some l
    /\ day l = inject_Z dl /\ night l = inject_Z nl
    /\ (40 <= dl <= 75)%Z /\ (40 <= nl <= 75)%Z.
Proof.
  unfold locations. intros H.
  repeat (apply elem_of_cons in H as [-> | H]);
    [.. | now apply elem_of_nil in H];
    (eexists _, _, _, _; split; [reflexivity |]; split; [lia |];
     split; [reflexivity |]; split; [reflexivity |];
     split; [reflexivity |]; lia).
Qed.

Lemma specTimeFactor_range (hour : Z) :
  -8 <= specTimeFactor hour /\ specTimeFactor hour <= 6.
Proof.
  destruct (specTimeFactor_grid hour) as (t & Ht & Htb).
  apply (inject_Z_between (-320) 240) in Htb.
  change (inject_Z (-320)) with (-320) in Htb.
  change (inject_Z 240) with 240 in Htb. lra.
Qed.

Lemma specDayFactor_range (dayOfWeek : Z) :
  -3.5 <= specDayFactor dayOfWeek /\ specDayFactor dayOfWeek <= 0.
Proof.
  destruct (specDayFactor_grid dayOfWeek) as (t & Ht & Htb).
  apply (inject_Z_between (-140) 0) in Htb.
  change (inject_Z (-140)) with (-140) in Htb.
  change (inject_Z 0) with 0 in Htb. lra.
Qed.

(** The value that is rounded and compared stays far inside the range
    where [toFixed] rounds. *)
Lemma predictedNoise_range (hour dayOfWeek lag b : Z) (loc : Location) (r : Q) :
  baseNoise loc = inject_Z b ->
  (0 <= lag <= 1000)%Z -> (20 <= b <= 1000)%Z ->
  0 <= r -> r < 1 ->
  0 <= predictedNoise (inject_Z hour) (inject_Z dayOfWeek) (inject_Z lag) loc r
  /\ predictedNoise (inject_Z hour) (inject_Z dayOfWeek) (inject_Z lag) loc r
     < pow10 21.
Proof.
  intros Hb Hlag Hbase Hr0 Hr1.
  unfold predictedNoise. rewrite environmentalNoise_Z.
  unfold specEnvNoise. rewrite Hb.
  pose proof (specTimeFactor_range hour) as Ht.
  pose proof (specDayFactor_range dayOfWeek) as Hd.
  pose proof pow10_21_large as Hbig.
  apply (inject_Z_between 0 1000) in Hlag.
  apply (inject_Z_between 20 1000) in Hbase.
  change (inject_Z 0) with 0 in Hlag.
  change (inject_Z 1000) with 1000 in Hlag, Hbase.
  change (inject_Z 20) with 20 in Hbase.
  split; lra.
Qed.

(** C4: at hour 17 on day 1 with prior noise 65 the record of [ito]
    (base noise 76, Commercial) has environmental noise 82.0, a
    predicted noise in [70.3, 73.3], the Commercial day limit 65, and is
    a violation for every jitter draw. *)
Theorem ito_tuesday_evening (draws : nat -> Q) (n : nat) :
  (forall k, 0 <= draws k /\ draws k < 1) ->
  exists recs loc rec,
    generateStaticPredictions draws 17 1 65 n = (Ok recs, (18 + n)%nat)
    /\ locations !! 1%nat = Some loc /\ recs !! 1%nat = Some rec
    /\ name loc = "ito"%string /\ location rec = "ito"%string
    /\ baseNoise loc = 76 /\ zone_type rec = "Commercial"%string
    /\ environmentalNoise 17 1 loc == 82.0
    /\ 70.3 <= predicted_noise rec /\ predicted_noise rec <= 73.3
    /\ isNight 17 = false
    /\ day <$> noiseLimits !! zone_type rec = Some (noise_limit rec)
    /\ noise_limit rec = 65
    /\ is_violation rec = true.
Proof.
  intros Hdraws. rewrite generate_run.
  destruct (Hdraws (2 * 1 + n)%nat) as [Hr0 Hr1].
  set (r := draws (2 * 1 + n)%nat) in *.
  set (ito := {| name := "ito"; lat := 28.631; lon := 77.248;
                 zone := "Commercial"; baseNoise := 76 |}).
  exists (imap (fun i loc =>
                  pointOf 17 1 65 loc (draws (2 * i + n)%nat)
                    (draws (S (2 * i) + n)%nat)) locations),
    ito, (pointOf 17 1 65 ito r (draws (S (2 * 1) + n)%nat)).
  split; [reflexivity |].
  split; [reflexivity |]. split; [reflexivity |].
  cbn [name location baseNoise zone_type noise_limit predicted_noise
       is_violation pointOf].
  repeat (split; [reflexivity |]).
  assert (Henv : specEnvNoise 17 1 ito == 82) by reflexivity.
  destruct (predicted_noise_within 17 1 65 76 ito r) as [Hlo Hhi];
    [reflexivity | lia | lia | assumption | assumption |].
  change (inject_Z 17) with 17 in Hlo, Hhi.
  change (inject_Z 1) with 1 in Hlo, Hhi.
  change (inject_Z 65) with 65 in Hlo, Hhi.
  split; [lra |]. split; [lra |].
  repeat (split; [reflexivity |]).
  apply ltb_lt. change (limitAt 17 ito) with 65.
  unfold predictedNoise, environmentalNoise.
  change (timeFactor 17) with 6.0. change (dayFactor 1) with 0.
  change (baseNoise ito) with 76. lra.
Qed.

Lemma ito_tuesday_evening_witness :
  exists recs loc rec,
    generateStaticPredictions (fun _ => 1 # 2) 17 1 65 0%nat
      = (Ok recs, (18 + 0)%nat)
    /\ locations !! 1%nat = Some loc /\ recs !! 1%nat = Some rec
    /\ name loc = "ito"%string /\ location rec = "ito"%string
    /\ baseNoise loc = 76 /\ zone_type rec = "Commercial"%string
    /\ environmentalNoise 17 1 loc == 82.0
    /\ 70.3 <= predicted_noise rec /\ predicted_noise rec <= 73.3
    /\ isNight 17 = false
    /\ day <$> noiseLimits !! zone_type rec = Some (noise_limit rec)
    /\ noise_limit rec = 65
    /\ is_violation rec = true.
Proof.
  apply (ito_tuesday_evening (fun _ => 1 # 2) 0%nat).
  intros _. split; [discriminate | reflexivity].
Defined.

(** C2, as the code has it: the flag of a record compares the limit with
    the prediction before it is rounded; the limit is the night limit of
    the zone when the hour is at least 22 or below 6 and the day limit
    otherwise.  Against the rounded [predicted_noise] field the flag is
    set whenever the field exceeds the limit, and a set flag only
    guarantees that the field is not below the limit. *)
Theorem violation_flag_compares_unrounded
    (draws : nat -> Q) (hour dayOfWeek priorNoise : Z) (n : nat) :
  (forall k, 0 <= draws k /\ draws k < 1) ->
  (0 <= hour <= 23)%Z -> (0 <= dayOfWeek <= 6)%Z ->
  priorNoise = 55%Z \/ priorNoise = 65%Z \/ priorNoise = 75%Z ->
  let recs :=
    recordsOf (generateStaticPredictions draws (inject_Z hour)
                 (inject_Z dayOfWeek) (inject_Z priorNoise) n) in
  length recs = 9%nat
  /\ forall (i : nat) (loc : Location) (rec : MapDataPoint),
       locations !! i = Some loc -> recs !! i = Some rec ->
       let unrounded :=
         predictedNoise (inject_Z hour) (inject_Z dayOfWeek)
           (inject_Z priorNoise) loc (draws (2 * i + n)%nat) in
       specLimit hour loc = Some (noise_limit rec)
       /\ predicted_noise rec = toFixed unrounded 2
       /\ (is_violation rec = true <-> noise_limit rec < unrounded)
       /\ (noise_limit rec < predicted_noise rec -> is_violation rec = true)
       /\ (is_violation rec = true -> noise_limit rec <= predicted_noise rec).
Proof.
  intros Hdraws Hhour Hday Hprior recs. split; [reflexivity |].
  intros i loc rec Hloc Hrec unrounded. subst recs.
  apply recordsOf_generate in Hrec as (loc' & Hloc' & ->).
  assert (loc' = loc) as -> by congruence.
  destruct (locations_facts loc (list_elem_of_lookup_2 _ _ _ Hloc))
    as (b & l & dl & nl & Hb & Hbb & Hl & Hdl & Hnl & Hdlb & Hnlb).
  cbn [noise_limit predicted_noise is_violation pointOf].
  assert (HlimZ : exists L : Z, limitAt (inject_Z hour) loc = inject_Z L).
  { unfold limitAt. rewrite Hl. destruct (isNight (inject_Z hour)); eauto. }
  destruct HlimZ as [L HL].
  destruct (predictedNoise_range hour dayOfWeek priorNoise b loc
              (draws (2 * i + n)%nat)) as [Hx0 Hx1];
    [assumption | lia | lia | apply Hdraws | apply Hdraws |].
  fold unrounded in Hx0, Hx1.
  destruct (toFixed2_integer_order L unrounded Hx0 Hx1) as [Hfield Hflag].
  split.
  { unfold specLimit, limitAt. rewrite Hl. cbn. now rewrite isNight_Z. }
  split; [reflexivity |].
  rewrite HL, ltb_lt. tauto.
Qed.

Lemma violation_flag_compares_unrounded_witness :
  let recs :=
    recordsOf (generateStaticPredictions (fun _ => 1 # 2) (inject_Z 17)
                 (inject_Z 1) (inject_Z 65) 0%nat) in
  length recs = 9%nat
  /\ forall (i : nat) (loc : Location) (rec : MapDataPoint),
       locations !! i = Some loc -> recs !! i = Some rec ->
       let unrounded :=
         predictedNoise (inject_Z 17) (inject_Z 1) (inject_Z 65) loc (1 # 2) in
       specLimit 17 loc = Some (noise_limit rec)
       /\ predicted_noise rec = toFixed unrounded 2
       /\ (is_violation rec = true <-> noise_limit rec < unrounded)
       /\ (noise_limit rec < predicted_noise rec -> is_violation rec = true)
       /\ (is_violation rec = true -> noise_limit rec <= predicted_noise rec).
Proof.
  apply (violation_flag_compares_unrounded (fun _ => 1 # 2) 17 1 65 0%nat).
  - intros _. split; [discriminate | reflexivity].
  - lia.
  - lia.
  - right; left; reflexivity.
Defined.

(** C2 as stated fails: at hour 8 on day 0 with prior noise 55 and the
    jitter draw 445/1024 the prediction of [ito] is 65.0037109375, above
    the Commercial day limit 65, so the flag is set, while the
    [predicted_noise] field is 65.00 and equals the limit. *)
Lemma violation_flag_on_equal_field :
  exists recs rec,
    generateStaticPredictions (fun _ => 445 # 1024) 8 0 55 0%nat
      = (Ok recs, 18%nat)
    /\ recs !! 1%nat = Some rec
    /\ location rec = "ito"%string
    /\ noise_limit rec = 65
    /\ predicted_noise rec == noise_limit rec
    /\ ~ noise_limit rec < predicted_noise rec
    /\ is_violation rec = true.
Proof.
  eexists _, _. split; [reflexivity |]. split; [reflexivity |].
  split; [reflexivity |]. split; [reflexivity |].
  split; [reflexivity |]. split; [| reflexivity].
  intros H. vm_compute in H. discriminate H.
Qed.

(** C3, as the code has it: the rounded confidence of every record lies
    in the closed interval from 0.75 to 0.95. *)
Theorem confidence_in_closed_range
    (draws : nat -> Q) (hour dayOfWeek noiseLag : Q) (n : nat) :
  (forall k, 0 <= draws k /\ draws k < 1) ->
  let recs :=
    recordsOf (generateStaticPredictions draws hour dayOfWeek noiseLag n) in
  length recs = 9%nat
  /\ Forall (fun rec => 0.75 <= confidence rec /\ confidence rec <= 0.95) recs.
Proof.
  intros Hdraws recs. subst recs. rewrite generate_run. cbn [recordsOf fst].
  split; [reflexivity |].
  pose proof pow10_21_large as Hbig.
  unfold locations; cbv [imap compose]; each_record;
    cbn [confidence pointOf];
    match goal with
    | |- context [draws ?k] =>
        destruct (Hdraws k) as [Hc0 Hc1];
        generalize dependent (draws k); intros c Hc0 Hc1
    end;
    (destruct (toFixed2_between 75 95 (0.75 + c * 0.2)) as [Hlo Hhi];
     [lra | lra | change (inject_Z 75) with 75; lra
     | change (inject_Z 95) with 95; lra |]);
    unfold Qdiv in Hlo, Hhi; change (/ 100) with (1 # 100) in Hlo, Hhi;
    change (inject_Z 75) with 75 in Hlo; change (inject_Z 95) with 95 in Hhi;
    split; lra.
Qed.

Lemma confidence_in_closed_range_witness :
  let recs :=
    recordsOf (generateStaticPredictions (fun _ => 1 # 2) 17 1 65 0%nat) in
  length recs = 9%nat
  /\ Forall (fun rec => 0.75 <= confidence rec /\ confidence rec <= 0.95) recs.
Proof.
  apply (confidence_in_closed_range (fun _ => 1 # 2) 17 1 65 0%nat).
  intros _. split; [discriminate | reflexivity].
Defined.

(** C3 as stated fails: with the draw 1023/1024, which is below 1, the
    value 0.9498046875 is rounded to 0.95, so the confidence is not
    strictly below 0.95. *)
Lemma confidence_reaches_upper_end :
  exists recs rec,
    generateStaticPredictions (fun _ => 1023 # 1024) 17 1 65 0%nat
      = (Ok recs, 18%nat)
    /\ recs !! 0%nat = Some rec
    /\ (0 <= 1023 # 1024 /\ 1023 # 1024 < 1)
    /\ confidence rec == 0.95
    /\ ~ confidence rec < 0.95.
Proof.
  eexists _, _. split; [reflexivity |]. split; [reflexivity |].
  split; [split; [discriminate | reflexivity] |].
  split; [reflexivity |].
  intros H. vm_compute in H. discriminate H.
Qed.



End PredictorFacts.

Module DataUtilsFacts.
Import JS JSFacts DataUtils DataUtilsSpec.

Lemma assign_lookup_same (row : gmap string cell) (key : string) (v : cell) :
  key <> "__proto__"%string -> assign row key v !! key = Some v.
Proof.
  intros Hk. unfold assign.
  apply String.eqb_neq in Hk. rewrite Hk. apply lookup_insert_eq.
Qed.

Lemma assign_lookup_other (row : gmap string cell) (key k : string) (v : cell) :
  k <> key -> assign row key v !! k = row !! k.
Proof.
  intros Hk. unfold assign.
  destruct (String.eqb key "__proto__"); [reflexivity |].
  now rewrite lookup_insert_ne by congruence.
Qed.

(** Only the header names are assigned. *)
Lemma forEachHeader_other (headers : list string) :
  forall (index : nat) (values : list string) (row : gmap string cell)
         (k : string),
    k ∉ headers ->
    forEachHeader headers index values row !! k = row !! k.
Proof.
  induction headers as [| h hs IH]; intros index values row k Hk;
    cbn [forEachHeader]; [reflexivity |].
  apply not_elem_of_cons in Hk as [Hkh Hks].
  rewrite IH by assumption. now apply assign_lookup_other.
Qed.

(** A header named [__proto__] never becomes an entry. *)
Lemma forEachHeader_proto (headers : list string) :
  forall (index : nat) (values : list string) (row : gmap string cell),
    forEachHeader headers index values row !! "__proto__"%string
    = row !! "__proto__"%string.
Proof.
  induction headers as [| h hs IH]; intros index values row;
    cbn [forEachHeader]; [reflexivity |].
  rewrite IH. unfold assign.
  destruct (String.eqb_spec h "__proto__") as [-> | Hne]; [reflexivity |].
  now apply lookup_insert_ne.
Qed.

(** The header at position [j] receives the coerced value at position
    [j] of the line, the empty string when the line is too short; of
    equal header names the last one counts. *)
Lemma forEachHeader_lookup (headers : list string) :
  forall (index : nat) (values : list string) (row : gmap string cell)
         (j : nat) (h : string),
    headers !! j = Some h ->
    (forall j', (j < j')%nat -> headers !! j' <> Some h) ->
    h <> "__proto__"%string ->
    forEachHeader headers index values row !! h
    = Some (coerce (default EmptyString (values !! (index + j)%nat))).
Proof.
  induction headers as [| a hs IH]; intros index values row j h Hj Hlast Hp;
    [discriminate |].
  cbn [forEachHeader]. destruct j as [| j]; cbn in Hj.
  - injection Hj as ->.
    rewrite forEachHeader_other.
    + rewrite Nat.add_0_r. now apply assign_lookup_same.
    + intros Hin. apply list_elem_of_lookup in Hin as [i Hi].
      apply (Hlast (S i)); [lia | exact Hi].
  - rewrite (IH (S index) values _ j h Hj); [| | assumption].
    + now rewrite Nat.add_succ_r.
    + intros j' Hlt. apply (Hlast (S j')). lia.
Qed.

Lemma dataLoop_spec (headers lines : list string) :
  forall data : list (gmap string cell),
    dataLoop headers lines data
    = data ++ map (recordOf headers) (nonBlankLines lines).
Proof.
  unfold nonBlankLines.
  induction lines as [| l ls IH]; intros data; cbn [dataLoop map List.filter].
  - now rewrite app_nil_r.
  - destruct (isEmpty (trim l)); cbn [negb].
    + apply IH.
    + rewrite IH. cbn [map]. now rewrite <- app_assoc.
Qed.

(** The records of a text: one per non-blank line after the first. *)
Lemma parseCSV_records (csvText first : string) (rest : list string) :
  split "010" (trim csvText) = first :: rest ->
  parseCSV csvText = map (recordOf (cellsOf first)) (nonBlankLines rest).
Proof.
  intros Hs. unfold parseCSV. rewrite Hs.
  destruct rest as [| l ls]; [reflexivity |].
  cbn [length Nat.ltb Nat.leb]. now rewrite dataLoop_spec.
Qed.

Lemma coerce_number (v : string) (n : number) :
  coerce v = NumberCell n
  <-> v <> EmptyString /\ Number v = n /\ isNaN n = false.
Proof.
  unfold coerce. destruct v as [| c v']; cbn [isEmpty negb andb].
  - split; [discriminate | intros [H _]; congruence].
  - destruct (isNaN (Number (String c v'))) eqn:Hnan; cbn [negb].
    + split; [discriminate | intros (_ & <- & H); congruence].
    + split.
      * intros [= <-]. repeat split; [discriminate | assumption].
      * intros (_ & <- & _). reflexivity.
Qed.

Lemma coerce_string (v s : string) :
  coerce v = StringCell s
  <-> s = v /\ (v = EmptyString \/ isNaN (Number v) = true).
Proof.
  unfold coerce. destruct v as [| c v']; cbn [isEmpty negb andb].
  - split; [intros [= <-]; auto | intros [-> _]; reflexivity].
  - destruct (isNaN (Number (String c v'))) eqn:Hnan; cbn [negb].
    + split; [intros [= <-]; auto | intros [-> _]; reflexivity].
    + split; [discriminate | intros [_ [H | H]]; discriminate].
Qed.

(** C6, as the code has it: the text with header line [A,B] and data
    line [1,2] gives one record with the numbers 1 and 2; in general the
    records are those of the non-blank lines after the first, in order,
    and a trimmed field is stored as a number when it is not empty and
    [Number] does not give [NaN] (an infinity is a number too), and as
    the string itself otherwise. *)
Theorem parseCSV_cells (csvText first : string) (rest : list string) :
  split "010" (trim csvText) = first :: rest ->
  parseCSV (unlines ["A,B"; "1,2"]%string)
    = [ {[ "A"%string := NumberCell (Finite 1);
           "B"%string := NumberCell (Finite 2) ]} ]
  /\ parseCSV csvText = map (recordOf (cellsOf first)) (nonBlankLines rest)
  /\ forall (line : string) (j : nat) (h : string),
       cellsOf first !! j = Some h ->
       (forall j', (j < j')%nat -> cellsOf first !! j' <> Some h) ->
       h <> "__proto__"%string ->
       let v := default EmptyString (cellsOf line !! j) in
       exists c : cell,
         recordOf (cellsOf first) line !! h = Some c
         /\ (forall n, c = NumberCell n
                       <-> v <> EmptyString /\ Number v = n
                           /\ isNaN n = false)
         /\ (forall s, c = StringCell s
                       <-> s = v /\ (v = EmptyString
                                     \/ isNaN (Number v) = true)).
Proof.
  intros Hs. split; [reflexivity |].
  split; [now apply parseCSV_records |].
  intros line j h Hj Hlast Hp v. exists (coerce v). split.
  - unfold recordOf.
    now rewrite (forEachHeader_lookup _ 0 _ _ j h Hj Hlast Hp).
  - split; intros; [apply coerce_number | apply coerce_string].
Qed.

Lemma parseCSV_cells_witness :
  parseCSV (unlines ["A,B"; "1,2"]%string)
    = [ {[ "A"%string := NumberCell (Finite 1);
           "B"%string := NumberCell (Finite 2) ]} ]
  /\ parseCSV (unlines ["A,B"; "1,2"]%string)
     = map (recordOf (cellsOf "A,B")) (nonBlankLines ["1,2"%string])
  /\ forall (line : string) (j : nat) (h : string),
       cellsOf "A,B" !! j = Some h ->
       (forall j', (j < j')%nat -> cellsOf "A,B" !! j' <> Some h) ->
       h <> "__proto__"%string ->
       let v := default EmptyString (cellsOf line !! j) in
       exists c : cell,
         recordOf (cellsOf "A,B") line !! h = Some c
         /\ (forall n, c = NumberCell n
                       <-> v <> EmptyString /\ Number v = n
                           /\ isNaN n = false)
         /\ (forall s, c = StringCell s
                       <-> s = v /\ (v = EmptyString
                                     \/ isNaN (Number v) = true)).
Proof.
  apply (parseCSV_cells (unlines ["A,B"; "1,2"]%string) "A,B"
           ["1,2"%string]).
  reflexivity.
Defined.

(** C6 as stated fails: the field [Infinity] does not parse as a finite
    number, yet it is stored as a number and not kept as a string. *)
Lemma parseCSV_Infinity_is_number :
  exists row : gmap string cell,
    parseCSV (unlines ["A"; "Infinity"]%string) = [row]
    /\ isFinite (Number "Infinity") = false
    /\ row !! "A"%string = Some (NumberCell PosInfinity)
    /\ row !! "A"%string <> Some (StringCell "Infinity").
Proof.
  eexists. split; [reflexivity |]. split; [reflexivity |].
  split; [reflexivity | discriminate].
Qed.

(** C7, as the code has it: a data line is never rejected for its number
    of fields.  Every non-blank line yields a record; the header at
    position [j] receives the value at position [j] of the line; values
    beyond the header fields are dropped; and for a line with fewer
    values than header fields the trailing header fields hold the empty
    string. *)
Theorem parseCSV_field_count (csvText first : string) (rest : list string) :
  split "010" (trim csvText) = first :: rest ->
  length (parseCSV csvText) = length (nonBlankLines rest)
  /\ forall (i : nat) (line : string),
       nonBlankLines rest !! i = Some line ->
       exists row : gmap string cell,
         parseCSV csvText !! i = Some row
         /\ (forall (j : nat) (h : string),
               cellsOf first !! j = Some h ->
               (forall j', (j < j')%nat -> cellsOf first !! j' <> Some h) ->
               h <> "__proto__"%string ->
               row !! h
               = Some (coerce (default EmptyString (cellsOf line !! j)))
               /\ ((length (cellsOf line) <= j)%nat ->
                   row !! h = Some (StringCell EmptyString)))
         /\ (forall k : string, k ∉ cellsOf first -> row !! k = None)
         /\ row !! "__proto__"%string = None.
Proof.
  intros Hs. rewrite (parseCSV_records _ _ _ Hs).
  split; [now rewrite length_map |].
  intros i line Hi. exists (recordOf (cellsOf first) line).
  split; [now rewrite list_lookup_fmap, Hi |].
  split; [| split].
  - intros j h Hj Hlast Hp.
    assert (Hcell : recordOf (cellsOf first) line !! h
                    = Some (coerce (default EmptyString
                                      (cellsOf line !! j)))).
    { unfold recordOf.
      now rewrite (forEachHeader_lookup _ 0 _ _ j h Hj Hlast Hp). }
    split; [exact Hcell |].
    intros Hshort. rewrite Hcell.
    now rewrite (lookup_ge_None_2 _ _ Hshort).
  - intros k Hk. unfold recordOf.
    rewrite forEachHeader_other by assumption. apply lookup_empty.
  - unfold recordOf. rewrite forEachHeader_proto. apply lookup_empty.
Qed.

Lemma parseCSV_field_count_witness :
  length (parseCSV (unlines ["A,B"; "1"; "1,2,3"]%string))
    = length (nonBlankLines ["1"; "1,2,3"]%string)
  /\ forall (i : nat) (line : string),
       nonBlankLines ["1"; "1,2,3"]%string !! i = Some line ->
       exists row : gmap string cell,
         parseCSV (unlines ["A,B"; "1"; "1,2,3"]%string) !! i = Some row
         /\ (forall (j : nat) (h : string),
               cellsOf "A,B" !! j = Some h ->
               (forall j', (j < j')%nat -> cellsOf "A,B" !! j' <> Some h) ->
               h <> "__proto__"%string ->
               row !! h
               = Some (coerce (default EmptyString (cellsOf line !! j)))
               /\ ((length (cellsOf line) <= j)%nat ->
                   row !! h = Some (StringCell EmptyString)))
         /\ (forall k : string, k ∉ cellsOf "A,B" -> row !! k = None)
         /\ row !! "__proto__"%string = None.
Proof.
  apply (parseCSV_field_count (unlines ["A,B"; "1"; "1,2,3"]%string) "A,B"
           ["1"; "1,2,3"]%string).
  reflexivity.
Defined.

(** C7 as stated fails: for the line [1] under the header [A,B] the
    entry of [B] is the empty string, not undefined. *)
Lemma parseCSV_short_line_has_empty_string :
  exists row : gmap string cell,
    parseCSV (unlines ["A,B"; "1"]%string) = [row]
    /\ row !! "A"%string = Some (NumberCell (Finite 1))
    /\ row !! "B"%string = Some (StringCell EmptyString)
    /\ row !! "B"%string <> None.
Proof.
  eexists. split; [reflexivity |]. split; [reflexivity |].
  split; [reflexivity | discriminate].
Qed.

(** Two header fields of the same name share one entry, which holds the
    cell of the last one; a header named [__proto__] gives no entry. *)
Example parseCSV_repeated_header :
  parseCSV (unlines ["A,A,__proto__"; "1,2,3"]%string)
  = [ {[ "A"%string := NumberCell (Finite 2) ]} ].
Proof. reflexivity. Qed.

(** Blank lines between records are skipped, values are trimmed, and a
    text of one line has no records. *)
Example parseCSV_blank_lines :
  parseCSV (unlines ["Location, Level"; ""; "ito , 76.5"; "   ";
                     "nsit,High"; ""]%string)
  = [ {[ "Location"%string := StringCell "ito";
         "Level"%string := NumberCell (Finite (153 # 2)) ]};
      {[ "Location"%string := StringCell "nsit";
         "Level"%string := StringCell "High" ]} ]
  /\ parseCSV "A,B" = [].
Proof. split; reflexivity. Qed.

(** The running sum of [reduce] is the sum of the list. *)
Lemma fold_left_sum (l : list Q) :
  forall acc : Q,
    fold_left (fun sum x => sum + x) l acc == acc + sumQ l.
Proof.
  induction l as [| x l IH]; intros acc; cbn [fold_left sumQ fold_right].
  - lra.
  - rewrite IH. unfold sumQ. lra.
Qed.

Lemma fold_left_percentages (es : list ExceedanceSummary.t) (acc : Q) :
  fold_left
    (fun sum station => sum + ExceedanceSummary.Exceedance_Percentage station)
    es acc
  == acc + sumQ (map ExceedanceSummary.Exceedance_Percentage es).
Proof.
  rewrite <- fold_left_sum. revert acc.
  induction es as [| e es IH]; intros acc; cbn [fold_left map];
    [reflexivity | apply IH].
Qed.



End DataUtilsFacts.

Module GeminiFacts.
Import JS Gemini GeminiSpec.

Lemma supportsGenerateContent_capable (m : ModelInfo) :
  supportsGenerateContent m = capable m.
Proof.
  unfold supportsGenerateContent, capable.
  destruct (supportedGenerationMethods m) as [methods |]; [| reflexivity].
  induction methods as [| x methods IH]; [reflexivity |].
  cbn [existsb]. rewrite IH.
  destruct (String.eqb_spec "generateContent" x) as [<- | Hne].
  - symmetry. apply bool_decide_eq_true. apply list_elem_of_here.
  - cbn [orb]. apply bool_decide_ext. rewrite elem_of_cons. tauto.
Qed.

(** The head of the usable models is the first capable model. *)
Lemma usable_head (ms : list ModelInfo) :
  head (List.filter supportsGenerateContent ms) = firstCapable ms.
Proof.
  unfold firstCapable.
  induction ms as [| m ms IH]; [reflexivity |].
  cbn [List.filter find]. rewrite supportsGenerateContent_capable.
  destruct (capable m); [reflexivity | exact IH].
Qed.

Section WithService.

Variable GEMINI_API_KEY : string.
Variable listReply : nat -> FetchResult ListModelsResponse.
Variable generateReply : nat -> Request -> FetchResult GeminiResponse.

Abbreviation pick := (pickModelWithGenerateContent GEMINI_API_KEY listReply).
Abbreviation call := (callGeminiAPI GEMINI_API_KEY listReply generateReply).
Abbreviation listReq := (listRequest GEMINI_API_KEY).
Abbreviation genReq := (generateRequest GEMINI_API_KEY).

(** Discovery: one listing request, whatever the log holds, and the name
    of the first capable model of the reply to that request. *)
Lemma pickModel_run (log : list Request) :
  pick log =
  (match listReply (length log) with
   | Rejected e => Throw e
   | Resolved resp =>
       if negb (ok resp)
       then Throw (Error ("Failed to list Gemini models: " ++ messageOf resp))
       else match json resp with
            | None => Throw (SyntaxError "Unexpected token in JSON")
            | Some data =>
                match firstCapable (models data) with
                | None =>
                    Throw (Error
                      "No model supports generateContent in this project.")
                | Some m => Ok (name m)
                end
            end
   end, log ++ [listReq]).
Proof.
  unfold pickModelWithGenerateContent, listAvailableModels, bind,
    fetchModels, readJson.
  destruct (listReply (length log)) as [e | resp]; cbn [settle];
    [reflexivity |].
  destruct (ok resp); cbn [negb]; [| reflexivity].
  destruct (json resp) as [data |]; [| reflexivity].
  cbn [ret]. rewrite <- usable_head.
  destruct (List.filter supportsGenerateContent (models data));
    reflexivity.
Qed.

(** One invocation, from any log. *)
Lemma callGeminiAPI_run (prompt : string) (log : list Request) :
  call prompt log =
  match pick log with
  | (Throw e, log') => (Throw e, log')
  | (Ok modelName, log') =>
      (match generateReply (length log') (genReq modelName prompt) with
       | Rejected e => Throw e
       | Resolved resp =>
           if negb (ok resp)
           then Throw (Error ("Gemini API error: " ++ messageOf resp))
           else match json resp with
                | None => Throw (SyntaxError "Unexpected token in JSON")
                | Some data =>
                    match candidates data with
                    | None | Some [] =>
                        Throw (Error "No response returned from Gemini API")
                    | Some (first :: _) =>
                        match parts (content first) with
                        | [] =>
                            Throw (TypeError
                              "Cannot read properties of undefined (reading 'text')")
                        | part :: _ => Ok (trim (text part))
                        end
                    end
                end
       end, log' ++ [genReq modelName prompt])
  end.
Proof.
  unfold callGeminiAPI. unfold bind at 1.
  destruct (pick log) as [[modelName | e] log']; [| reflexivity].
  unfold bind, fetchContent, readJson.
  destruct (generateReply (length log') (genReq modelName prompt))
    as [e | resp]; cbn [settle]; [reflexivity |].
  destruct (ok resp); cbn [negb]; [| reflexivity].
  destruct (json resp) as [data |]; [| reflexivity].
  cbn [ret]. destruct (candidates data) as [[| first cs] |];
    try reflexivity.
  destruct (parts (content first)); reflexivity.
Qed.

End WithService.



(** Two invocations in a row against a service whose listing changes
    between them: each sends its own listing request and posts to the
    model of its own listing. *)
Example callGeminiAPI_rediscovers :
  let model (n : string) :=
    {| name := n;
       supportedGenerationMethods := Some ["generateContent"%string] |} in
  let listed (n : string) :=
    Resolved {| ok := true; statusText := "OK"; errorMessage := None;
                json := Some {| models := [model n] |} |} in
  let listReply (k : nat) :=
    if (k <? 2)%nat then listed "models/a" else listed "models/b" in
  let generateReply (_ : nat) (req : Request) :=
    Resolved
      {| ok := true; statusText := "OK"; errorMessage := None;
         json := Some {| candidates :=
           Some [ {| content := {| parts := [ {| text := url req |} ] |} |} ] |} |} in
  let call := callGeminiAPI "k" listReply generateReply in
  let '(first, log1) := call "p" [] in
  let '(second, log2) := call "p" log1 in
  map url log2
  = [MODELS_LIST_URL "k"; url (generateRequest "k" "models/a" "p");
     MODELS_LIST_URL "k"; url (generateRequest "k" "models/b" "p")]
  /\ first = Ok (url (generateRequest "k" "models/a" "p"))
  /\ second = Ok (url (generateRequest "k" "models/b" "p")).
Proof. repeat split. Qed.

End GeminiFacts.

Module PredictiveMapFacts.
Import JS JSFacts Predictor PredictorSpec PredictorFacts PredictiveMap.

(** The colour and the radius of a marker use the same three thresholds:
    two noise levels share a colour exactly when they share a radius,
    and a louder level never gets a smaller radius. *)
Theorem getColor_getRadius_buckets (a b : Q) :
  (getColor a = getColor b <-> getRadius a = getRadius b)
  /\ (a <= b -> (getRadius a <= getRadius b)%Z)
  /\ (getRadius a = 20 \/ getRadius a = 25 \/ getRadius a = 30
      \/ getRadius a = 35)%Z.
Proof.
  unfold getColor, getRadius.
  destruct (ltb 80 a) eqn:Ha80, (ltb 75 a) eqn:Ha75, (ltb 65 a) eqn:Ha65,
    (ltb 80 b) eqn:Hb80, (ltb 75 b) eqn:Hb75, (ltb 65 b) eqn:Hb65;
    (split; [split; intros H; first [reflexivity | discriminate H] |]);
    (split; [| lia]); intros Hab; try lia;
    rewrite ?ltb_lt, ?ltb_ge in *; lra.
Qed.

(** Every record of a run is built from a location of the list and two
    draws of the stream. *)
Lemma generated_elem (draws : nat -> Q) (hour dayOfWeek noiseLag : Q)
    (n : nat) (rec : MapDataPoint) :
  rec ∈ recordsOf (generateStaticPredictions draws hour dayOfWeek noiseLag n) ->
  exists (i : nat) (loc : Location),
    locations !! i = Some loc /\ loc ∈ locations
    /\ rec = pointOf hour dayOfWeek noiseLag loc
               (draws (2 * i + n)%nat) (draws (S (2 * i) + n)%nat).
Proof.
  intros Hin. apply list_elem_of_lookup in Hin as [i Hi].
  apply recordsOf_generate in Hi as (loc & Hloc & ->).
  exists i, loc. split; [assumption |]. split; [| reflexivity].
  now apply list_elem_of_lookup_2 with i.
Qed.

Lemma recordsOf_length (draws : nat -> Q) (hour dayOfWeek noiseLag : Q)
    (n : nat) :
  length (recordsOf (generateStaticPredictions draws hour dayOfWeek
                       noiseLag n)) = 9%nat.
Proof. reflexivity. Qed.

(** The running sum of a list whose values lie between [lo] and [hi]. *)
Lemma fold_left_sum_bounds {A : Type} (f : A -> Q) (lo hi : Q) (l : list A) :
  Forall (fun x => lo <= f x /\ f x <= hi) l ->
  forall acc : Q,
    acc + inject_Z (Z.of_nat (length l)) * lo
      <= fold_left (fun sum x => sum + f x) l acc
    /\ fold_left (fun sum x => sum + f x) l acc
      <= acc + inject_Z (Z.of_nat (length l)) * hi.
Proof.
  induction 1 as [| x l [Hlo Hhi] _ IH]; intros acc.
  - cbn [fold_left length]. change (inject_Z (Z.of_nat 0)) with 0.
    split; lra.
  - cbn [fold_left length]. destruct (IH (acc + f x)) as [IHlo IHhi].
    rewrite Nat2Z.inj_succ, <- Z.add_1_r, inject_Z_plus.
    change (inject_Z 1) with 1. split; nra.
Qed.

(** The mean of a non-empty list lies between bounds of its values. *)
Lemma mean_bounds {A : Type} (f : A -> Q) (lo hi : Q) (l : list A) :
  l <> [] ->
  Forall (fun x => lo <= f x /\ f x <= hi) l ->
  lo <= fold_left (fun sum x => sum + f x) l 0
        / inject_Z (Z.of_nat (length l))
  /\ fold_left (fun sum x => sum + f x) l 0
     / inject_Z (Z.of_nat (length l)) <= hi.
Proof.
  intros Hne Hall.
  destruct (fold_left_sum_bounds f lo hi l Hall 0) as [Hlo Hhi].
  assert (Hn : 0 < inject_Z (Z.of_nat (length l))).
  { change 0 with (inject_Z 0). rewrite <- Zlt_Qlt.
    destruct l; [congruence | cbn [length]; lia]. }
  split.
  - apply Qle_shift_div_l; [assumption |]. lra.
  - apply Qle_shift_div_r; [assumption |]. lra.
Qed.

(** The rounded prediction of a location of the list, for valid inputs. *)
Lemma predicted_noise_range (hour dayOfWeek lag : Z) (loc : Location) (r : Q) :
  loc ∈ locations ->
  (55 <= lag <= 75)%Z -> 0 <= r -> r < 1 ->
  51.7 <= toFixed (predictedNoise (inject_Z hour) (inject_Z dayOfWeek)
                     (inject_Z lag) loc r) 2
  /\ toFixed (predictedNoise (inject_Z hour) (inject_Z dayOfWeek)
                (inject_Z lag) loc r) 2 <= 79.3.
Proof.
  intros Hloc Hlag Hr0 Hr1.
  destruct (locations_facts loc Hloc)
    as (b & l & dl & nl & Hb & Hbb & _).
  destruct (predicted_noise_within hour dayOfWeek lag b loc r)
    as [Hlo Hhi]; [assumption | lia | lia | assumption | assumption |].
  unfold specEnvNoise in Hlo, Hhi. rewrite Hb in Hlo, Hhi.
  pose proof (specTimeFactor_range hour) as Ht.
  pose proof (specDayFactor_range dayOfWeek) as Hd.
  apply (inject_Z_between 55 75) in Hlag.
  apply (inject_Z_between 62 76) in Hbb.
  change (inject_Z 55) with 55 in Hlag. change (inject_Z 75) with 75 in Hlag.
  change (inject_Z 62) with 62 in Hbb. change (inject_Z 76) with 76 in Hbb.
  split; lra.
Qed.

(** For valid inputs every predicted noise lies between 51.7 and 79.3, so
    no marker is ever drawn with the colour and radius of the levels
    above 80, and the average shown lies in the same range. *)
Theorem generated_noise_range
    (draws : nat -> Q) (hour dayOfWeek priorNoise : Z) (n : nat) :
  (forall k, 0 <= draws k /\ draws k < 1) ->
  (0 <= hour <= 23)%Z -> (0 <= dayOfWeek <= 6)%Z ->
  priorNoise = 55%Z \/ priorNoise = 65%Z \/ priorNoise = 75%Z ->
  let recs :=
    recordsOf (generateStaticPredictions draws (inject_Z hour)
                 (inject_Z dayOfWeek) (inject_Z priorNoise) n) in
  Forall (fun rec =>
            51.7 <= predicted_noise rec /\ predicted_noise rec <= 79.3
            /\ (getRadius (predicted_noise rec) <= 30)%Z
            /\ getColor (predicted_noise rec) <> "#ae017e"%string) recs
  /\ 51.7 <= avgNoise recs /\ avgNoise recs <= 79.3.
Proof.
  intros Hdraws Hhour Hday Hprior recs.
  assert (Hall : Forall (fun rec => 51.7 <= predicted_noise rec
                                    /\ predicted_noise rec <= 79.3) recs).
  { apply Forall_forall. intros rec Hin.
    apply generated_elem in Hin as (i & loc & _ & Hloc & ->).
    cbn [predicted_noise pointOf].
    apply predicted_noise_range; [assumption | lia | apply Hdraws ..]. }
  split.
  - eapply Forall_impl; [exact Hall |]. cbn beta.
    intros rec [Hlo Hhi]. split; [assumption |]. split; [assumption |].
    unfold getRadius, getColor.
    assert (H80 : ltb 80 (predicted_noise rec) = false)
      by (apply ltb_ge; lra).
    rewrite H80. split.
    + destruct (ltb 75 (predicted_noise rec)),
        (ltb 65 (predicted_noise rec)); lia.
    + destruct (ltb 75 (predicted_noise rec)),
        (ltb 65 (predicted_noise rec)); discriminate.
  - unfold avgNoise. subst recs. rewrite recordsOf_length. cbn [Nat.ltb Nat.leb].
    rewrite <- (recordsOf_length draws (inject_Z hour) (inject_Z dayOfWeek)
                  (inject_Z priorNoise) n).
    apply mean_bounds; [| exact Hall].
    intros Hnil. apply (f_equal length) in Hnil.
    rewrite recordsOf_length in Hnil. discriminate Hnil.
Qed.

Lemma generated_noise_range_witness :
  let recs :=
    recordsOf (generateStaticPredictions (fun _ => 1 # 2) (inject_Z 17)
                 (inject_Z 1) (inject_Z 65) 0%nat) in
  Forall (fun rec =>
            51.7 <= predicted_noise rec /\ predicted_noise rec <= 79.3
            /\ (getRadius (predicted_noise rec) <= 30)%Z
            /\ getColor (predicted_noise rec) <> "#ae017e"%string) recs
  /\ 51.7 <= avgNoise recs /\ avgNoise recs <= 79.3.
Proof.
  apply (generated_noise_range (fun _ => 1 # 2) 17 1 65 0%nat).
  - intros _. split; [discriminate | reflexivity].
  - lia.
  - lia.
  - right; left; reflexivity.
Defined.

(** From six o'clock on the time factor is not negative. *)
Lemma specTimeFactor_day (hour : Z) :
  (6 <= hour)%Z -> 0 <= specTimeFactor hour.
Proof.
  intros Hh. unfold specTimeFactor.
  destruct ((8 <=? hour)%Z && (hour <=? 10)%Z); [discriminate |].
  destruct ((17 <=? hour)%Z && (hour <=? 20)%Z); [discriminate |].
  destruct (Z.leb_spec 0 hour), (Z.leb_spec hour 5); cbn [andb];
    first [lia | discriminate].
Qed.

(** A location is flagged for every draw when its day limit lies below
    the lowest prediction of a day hour and its night limit below the
    lowest prediction of a night hour. *)
Lemma violation_certain (hour dayOfWeek lag b : Z) (loc : Location)
    (l : Limits) (r c : Q) :
  baseNoise loc = inject_Z b ->
  noiseLimits !! zone loc = Some l ->
  0 <= r ->
  day l < 0.6 * inject_Z lag + 0.4 * (inject_Z b - 3.5) - 1.5 ->
  night l < 0.6 * inject_Z lag + 0.4 * (inject_Z b - 11.5) - 1.5 ->
  is_violation (pointOf (inject_Z hour) (inject_Z dayOfWeek) (inject_Z lag)
                  loc r c) = true.
Proof.
  intros Hb Hl Hr Hday Hnight.
  cbn [is_violation pointOf]. apply ltb_lt.
  unfold limitAt. rewrite Hl, isNight_Z.
  unfold predictedNoise. rewrite environmentalNoise_Z.
  unfold specEnvNoise. rewrite Hb.
  pose proof (specTimeFactor_range hour) as Ht.
  pose proof (specDayFactor_range dayOfWeek) as Hd.
  destruct (Z.leb_spec 22 hour) as [H22 | H22]; cbn [orb]; [lra |].
  destruct (Z.ltb_spec hour 6) as [H6 | H6]; [lra |].
  pose proof (specTimeFactor_day hour H6) as Ht0. lra.
Qed.

(** The table values behind the flags: with any of the three prior
    noises the Residential and Silence Zone locations satisfy the two
    conditions of [violation_certain]; with 75 the Commercial ones do. *)
Lemma certain_at (lag : Z) (loc : Location) :
  loc ∈ locations ->
  (55 <= lag)%Z ->
  zone loc <> "Commercial"%string \/ (75 <= lag)%Z ->
  exists (b : Z) (l : Limits),
    baseNoise loc = inject_Z b /\ noiseLimits !! zone loc = Some l
    /\ day l < 0.6 * inject_Z lag + 0.4 * (inject_Z b - 3.5) - 1.5
    /\ night l < 0.6 * inject_Z lag + 0.4 * (inject_Z b - 11.5) - 1.5.
Proof.
  unfold locations. intros H Hlag Hzone.
  assert (H55 : 55 <= inject_Z lag)
    by (change 55 with (inject_Z 55); now rewrite <- Zle_Qle).
  assert (H75 : (75 <= lag)%Z -> 75 <= inject_Z lag)
    by (change 75 with (inject_Z 75); now rewrite <- Zle_Qle).
  repeat (apply elem_of_cons in H as [-> | H]);
    [.. | now apply elem_of_nil in H];
    cbn [zone] in Hzone;
    (eexists _, _; split; [reflexivity |]; split; [reflexivity |]);
    cbn [day night];
    repeat match goal with
           | |- context [inject_Z (Zpos ?p)] =>
               change (inject_Z (Zpos p)) with (Zpos p # 1)
           end;
    (destruct Hzone as [Hz | Hz]; [first [congruence | split; lra] |];
     specialize (H75 Hz); split; lra).
Qed.

Lemma filter_length_le {A : Type} (f g : A -> bool) (l : list A) :
  (forall x, x ∈ l -> g x = true -> f x = true) ->
  (length (List.filter g l) <= length (List.filter f l))%nat.
Proof.
  induction l as [| x l IH]; intros H; [reflexivity |].
  cbn [List.filter].
  assert (IH' : (length (List.filter g l) <= length (List.filter f l))%nat).
  { apply IH. intros y Hy. apply H. now apply list_elem_of_further. }
  destruct (g x) eqn:Hg.
  - rewrite (H x (list_elem_of_here x l) Hg). cbn [length]. lia.
  - destruct (f x); cbn [length]; lia.
Qed.

Lemma filter_length_all {A : Type} (f : A -> bool) (l : list A) :
  (forall x, x ∈ l -> f x = true) ->
  length (List.filter f l) = length l.
Proof.
  induction l as [| x l IH]; intros H; [reflexivity |].
  cbn [List.filter]. rewrite (H x (list_elem_of_here x l)).
  cbn [length]. f_equal. apply IH. intros y Hy. apply H.
  now apply list_elem_of_further.
Qed.

Lemma filter_length_bound {A : Type} (f : A -> bool) (l : list A) :
  (length (List.filter f l) <= length l)%nat.
Proof.
  induction l as [| x l IH]; [reflexivity |].
  cbn [List.filter]. destruct (f x); cbn [length]; lia.
Qed.

Lemma filter_length_le2 {A : Type} (f g : A -> bool) (l1 l2 : list A) :
  Forall2 (fun a b => f a = true -> g b = true) l1 l2 ->
  (length (List.filter f l1) <= length (List.filter g l2))%nat.
Proof.
  induction 1 as [| a b l1 l2 Hab _ IH]; [reflexivity |].
  cbn [List.filter]. destruct (f a).
  - rewrite (Hab eq_refl). cbn [length]. lia.
  - destruct (g b); cbn [length]; lia.
Qed.

Lemma Forall2_imap_same {A B : Type} (R : B -> B -> Prop) (l : list A) :
  forall f g : nat -> A -> B,
    (forall i x, R (f i x) (g i x)) ->
    Forall2 R (imap f l) (imap g l).
Proof.
  induction l as [| x l IH]; intros f g H; cbn [imap]; constructor.
  - apply H.
  - apply IH. intros i y. apply H.
Qed.

(** For valid inputs and every draw the five Residential and Silence Zone
    locations are flagged as violations, so at least five of the nine
    records are violations; with the prior noise 75 all nine are. *)
Theorem violation_count_bounds
    (draws : nat -> Q) (hour dayOfWeek priorNoise : Z) (n : nat) :
  (forall k, 0 <= draws k /\ draws k < 1) ->
  (0 <= hour <= 23)%Z -> (0 <= dayOfWeek <= 6)%Z ->
  priorNoise = 55%Z \/ priorNoise = 65%Z \/ priorNoise = 75%Z ->
  let recs :=
    recordsOf (generateStaticPredictions draws (inject_Z hour)
                 (inject_Z dayOfWeek) (inject_Z priorNoise) n) in
  Forall (fun rec => zone_type rec <> "Commercial"%string ->
                     is_violation rec = true) recs
  /\ (5 <= violationCount recs <= 9)%nat
  /\ (priorNoise = 75%Z -> violationCount recs = 9%nat).
Proof.
  intros Hdraws Hhour Hday Hprior recs.
  assert (Hflag : forall rec, rec ∈ recs ->
            zone_type rec <> "Commercial"%string \/ (75 <= priorNoise)%Z ->
            is_violation rec = true).
  { intros rec Hin Hz.
    apply generated_elem in Hin as (i & loc & _ & Hloc & ->).
    cbn [zone_type pointOf] in Hz.
    destruct (certain_at priorNoise loc Hloc) as (b & l & Hb & Hl & Hd & Hn);
      [lia | assumption |].
    eapply violation_certain; eauto. apply Hdraws. }
  split; [apply Forall_forall; intros rec Hin Hz; apply Hflag; auto |].
  split; [split |].
  - change 5%nat with
      (length (List.filter
                 (fun rec => negb (String.eqb (zone_type rec) "Commercial"))
                 recs)).
    apply filter_length_le. intros rec Hin Hz. apply Hflag; [assumption |].
    left. apply negb_true_iff in Hz. now apply String.eqb_neq.
  - unfold violationCount.
    change 9%nat with (length recs). apply filter_length_bound.
  - intros ->. unfold violationCount.
    change 9%nat with (length recs). apply filter_length_all.
    intros rec Hin. apply Hflag; [assumption | right; lia].
Qed.

Lemma violation_count_bounds_witness :
  let recs :=
    recordsOf (generateStaticPredictions (fun _ => 1 # 2) (inject_Z 3)
                 (inject_Z 6) (inject_Z 55) 0%nat) in
  Forall (fun rec => zone_type rec <> "Commercial"%string ->
                     is_violation rec = true) recs
  /\ (5 <= violationCount recs <= 9)%nat
  /\ (55%Z = 75%Z -> violationCount recs = 9%nat).
Proof.
  apply (violation_count_bounds (fun _ => 1 # 2) 3 6 55 0%nat).
  - intros _. split; [discriminate | reflexivity].
  - lia.
  - lia.
  - left; reflexivity.
Defined.

(** Under the same draws the number of violations does not decrease when
    the prior noise is raised, and a weekday has at least as many
    violations as any day at the same hour. *)
Theorem violation_count_monotone
    (draws : nat -> Q) (hour dayOfWeek weekday noiseLag d : Q) (n : nat) :
  0 <= d -> leb 5 weekday = false ->
  (violationCount
     (recordsOf (generateStaticPredictions draws hour dayOfWeek noiseLag n))
   <= violationCount
        (recordsOf (generateStaticPredictions draws hour dayOfWeek
                      (noiseLag + d) n)))%nat
  /\ (violationCount
        (recordsOf (generateStaticPredictions draws hour dayOfWeek
                      noiseLag n))
      <= violationCount
           (recordsOf (generateStaticPredictions draws hour weekday
                         noiseLag n)))%nat.
Proof.
  intros Hd Hweek. rewrite !generate_run. cbn [recordsOf fst].
  unfold violationCount.
  split; apply filter_length_le2, Forall2_imap_same; intros i loc;
    cbn [is_violation pointOf]; rewrite !ltb_lt;
    unfold predictedNoise, environmentalNoise, dayFactor.
  - lra.
  - rewrite Hweek. destruct (leb 5 dayOfWeek); lra.
Qed.

Lemma violation_count_monotone_witness :
  (violationCount
     (recordsOf (generateStaticPredictions (fun _ => 1 # 2) 9 6 55 0%nat))
   <= violationCount
        (recordsOf (generateStaticPredictions (fun _ => 1 # 2) 9 6
                      (55 + 10) 0%nat)))%nat
  /\ (violationCount
        (recordsOf (generateStaticPredictions (fun _ => 1 # 2) 9 6 55 0%nat))
      <= violationCount
           (recordsOf (generateStaticPredictions (fun _ => 1 # 2) 9 1
                         55 0%nat)))%nat.
Proof.
  apply (violation_count_monotone (fun _ => 1 # 2) 9 6 1 55 10 0%nat).
  - discriminate.
  - reflexivity.
Defined.



(** One run of [fetchPredictions], from any state. *)
Lemma fetchPredictions_run (draws : nat -> Q) (w : World) :
  fetchPredictions draws w =
  (Ok tt,
   {| rng := (18 + rng w)%nat;
      clock := (clock w + 800 + 600 + 700 + 900 + 500)%Z;
      ui := {| hour := hour (ui w); dayOfWeek := dayOfWeek (ui w);
               noiseLag := noiseLag (ui w);
               mapData := recordsOf (generateStaticPredictions draws
                            (hour (ui w)) (dayOfWeek (ui w))
                            (noiseLag (ui w)) (rng w));
               isLoading := false; loadingStage := "";
               loadingProgress := 0; error := "";
               updateKey := (updateKey (ui w) + 1)%Z;
               isMapOpen := isMapOpen (ui w) |};
      console := console w |}).
Proof.
  destruct w as [n t [h d l data loading stage prog err key open] out].
  reflexivity.
Qed.

(** A run of [fetchPredictions] from any state of the component never
    ends in the error state: the loading indicator is cleared, the
    former records are replaced by the nine records of one run of the
    generator on the hour, day and prior noise of the state, the update
    key grows by one, 3500 ms pass in timers, 18 draws are consumed and
    nothing is written to the console; the controls keep their values. *)
Theorem fetchPredictions_settles (draws : nat -> Q) (w : World) :
  let run := fetchPredictions draws w in
  let u := ui w in
  let u' := ui (snd run) in
  fst run = Ok tt
  /\ isLoading u' = false /\ loadingStage u' = ""%string
  /\ loadingProgress u' = 0 /\ error u' = ""%string
  /\ mapData u' = recordsOf (generateStaticPredictions draws (hour u)
                               (dayOfWeek u) (noiseLag u) (rng w))
  /\ length (mapData u') = 9%nat
  /\ updateKey u' = (updateKey u + 1)%Z
  /\ clock (snd run) = (clock w + 3500)%Z
  /\ rng (snd run) = (18 + rng w)%nat
  /\ console (snd run) = console w
  /\ (hour u', dayOfWeek u', noiseLag u', isMapOpen u')
     = (hour u, dayOfWeek u, noiseLag u, isMapOpen u).
Proof.
  cbv zeta. rewrite fetchPredictions_run.
  cbn [fst snd ui rng clock console isLoading loadingStage loadingProgress
       error mapData updateKey hour dayOfWeek noiseLag isMapOpen].
  repeat (split; [reflexivity |]).
  split; [lia |]. repeat split.
Qed.

End PredictiveMapFacts.

Module StringFacts.
Import JS StringSpec.

Lemma isEmpty_true (s : string) : isEmpty s = true <-> s = EmptyString.
Proof. destruct s; cbn; split; congruence. Qed.

Lemma trimStart_idem (s : string) : trimStart (trimStart s) = trimStart s.
Proof.
  induction s as [| c s IH]; [reflexivity |].
  cbn [trimStart]. destruct (isWhiteSpace c) eqn:Hc; [exact IH |].
  cbn [trimStart]. now rewrite Hc.
Qed.

Lemma trimEnd_idem (s : string) : trimEnd (trimEnd s) = trimEnd s.
Proof.
  induction s as [| c s IH]; [reflexivity |].
  cbn [trimEnd].
  destruct (isWhiteSpace c && isEmpty (trimEnd s)) eqn:Hc; [reflexivity |].
  cbn [trimEnd]. now rewrite IH, Hc.
Qed.

(** Trimming the two ends commutes. *)
Lemma trimStart_trimEnd (s : string) :
  trimStart (trimEnd s) = trimEnd (trimStart s).
Proof.
  induction s as [| c s IH]; [reflexivity |].
  cbn [trimStart trimEnd]. destruct (isWhiteSpace c) eqn:Hc; cbn [andb].
  - destruct (isEmpty (trimEnd s)) eqn:He.
    + apply isEmpty_true in He. rewrite <- IH, He. reflexivity.
    + cbn [trimStart]. now rewrite Hc.
  - cbn [trimStart trimEnd]. now rewrite Hc.
Qed.

Lemma trim_alt (s : string) : trim s = trimStart (trimEnd s).
Proof. unfold trim. now rewrite trimStart_trimEnd. Qed.

Lemma trim_idem (s : string) : trim (trim s) = trim s.
Proof.
  unfold trim. rewrite (trimStart_trimEnd (trimStart s)).
  now rewrite trimStart_idem, trimEnd_idem.
Qed.

(** What remains after trimming does not start with white space. *)
Lemma trimStart_head (s : string) (c : ascii) (r : string) :
  trimStart s = String c r -> isWhiteSpace c = false.
Proof.
  induction s as [| a s IH]; [discriminate |].
  cbn [trimStart]. destruct (isWhiteSpace a) eqn:Ha; [exact IH |].
  now intros [= <- _].
Qed.

Lemma trim_head (s : string) (c : ascii) (r : string) :
  trim s = String c r -> isWhiteSpace c = false.
Proof. rewrite trim_alt. apply trimStart_head. Qed.

Lemma trimEnd_last (s : string) (c : ascii) :
  lastChar (trimEnd s) = Some c -> isWhiteSpace c = false.
Proof.
  induction s as [| a s IH]; [discriminate |].
  cbn [trimEnd]. destruct (isWhiteSpace a) eqn:Ha; cbn [andb].
  - destruct (trimEnd s) as [| b t] eqn:Ht; [discriminate |].
    cbn [isEmpty lastChar]. exact IH.
  - destruct (trimEnd s) as [| b t] eqn:Ht.
    + cbn. now intros [= <-].
    + cbn [lastChar]. exact IH.
Qed.

Lemma trim_last (s : string) (c : ascii) :
  lastChar (trim s) = Some c -> isWhiteSpace c = false.
Proof. apply trimEnd_last. Qed.

Lemma split_cons (sep : ascii) (s : string) :
  exists p ps, split sep s = p :: ps.
Proof.
  induction s as [| c s (p & ps & IH)]; [now eexists _, _ |].
  cbn [split]. destruct (Ascii.eqb c sep); [now eexists _, _ |].
  rewrite IH. now eexists _, _.
Qed.

Lemma trimEnd_cons (c : ascii) (p q : string) :
  trimEnd p = trimEnd q -> trimEnd (String c p) = trimEnd (String c q).
Proof. intros H. cbn [trimEnd]. now rewrite H. Qed.

Lemma map_trim_trimEnd (l : list string) :
  map trim l = map trimStart (map trimEnd l).
Proof.
  rewrite map_map. apply map_ext. intros s. apply trim_alt.
Qed.

Lemma map_trimStart_blank (k : nat) :
  map trimStart (replicate k EmptyString) = replicate k EmptyString.
Proof. induction k as [| k IH]; [reflexivity |]. cbn. now rewrite IH. Qed.

(** White space in front of a text only reaches its first piece, unless
    it is the separator, which gives an empty first piece. *)
Lemma split_leading_space (sep c : ascii) (s : string) :
  isWhiteSpace c = true ->
  map trim (split sep (String c s))
  = if Ascii.eqb c sep then EmptyString :: map trim (split sep s)
    else map trim (split sep s).
Proof.
  intros Hc. cbn [split]. destruct (Ascii.eqb c sep); [reflexivity |].
  destruct (split_cons sep s) as (p & ps & ->). cbn [map]. f_equal.
  unfold trim. cbn [trimStart]. now rewrite Hc.
Qed.

(** Trimming the end of a text trims the end of its last piece and, when
    the separator is white space, drops empty pieces after it. *)
Lemma split_trimEnd (sep : ascii) (s : string) :
  exists k : nat,
    map trimEnd (split sep s)
    = map trimEnd (split sep (trimEnd s)) ++ replicate k EmptyString
    /\ (isWhiteSpace sep = false -> k = 0%nat).
Proof.
  induction s as [| c s (k & IH & Hk)].
  - exists 0%nat. split; [reflexivity | auto].
  - cbn [split trimEnd].
    destruct (Ascii.eqb_spec c sep) as [-> | Hne].
    + destruct (isWhiteSpace sep && isEmpty (trimEnd s)) eqn:Hc.
      * apply andb_true_iff in Hc as [Hws He].
        apply isEmpty_true in He. rewrite He in IH.
        exists (S k). split; [| congruence].
        cbn [map]. rewrite IH. reflexivity.
      * exists k. split; [| exact Hk].
        cbn [split]. rewrite Ascii.eqb_refl. cbn [map].
        now rewrite IH.
    + destruct (split_cons sep s) as (p & ps & Hs). rewrite Hs in *.
      destruct (isWhiteSpace c && isEmpty (trimEnd s)) eqn:Hc.
      * apply andb_true_iff in Hc as [Hws He].
        apply isEmpty_true in He. rewrite He in IH. cbn [split map app] in IH.
        injection IH as Hp Hps.
        exists k. split; [| exact Hk].
        cbn [split map app trimEnd]. rewrite Hp, Hws. cbn. now rewrite Hps.
      * exists k. split; [| exact Hk].
        cbn [split]. apply Ascii.eqb_neq in Hne. rewrite Hne.
        destruct (split_cons sep (trimEnd s)) as (q & qs & Hq).
        rewrite Hq in *. cbn [map app] in IH. injection IH as Hp Hps.
        cbn [map app]. f_equal; [now apply trimEnd_cons | exact Hps].
Qed.

End StringFacts.

Module ParseFacts.
Import JS StringSpec StringFacts DataUtils DataUtilsSpec DataUtilsFacts
  ParseSpec.

Lemma filter_blank (k : nat) :
  List.filter (fun l => negb (isEmpty l)) (replicate k EmptyString) = [].
Proof. induction k as [| k IH]; [reflexivity | exact IH]. Qed.

Lemma nonBlankLines_trimStart (s : string) :
  nonBlankLines (split "010" (trimStart s)) = nonBlankLines (split "010" s).
Proof.
  induction s as [| c s IH]; [reflexivity |].
  cbn [trimStart]. destruct (isWhiteSpace c) eqn:Hc; [| reflexivity].
  rewrite IH. unfold nonBlankLines.
  rewrite (split_leading_space "010" c s Hc).
  now destruct (Ascii.eqb c "010").
Qed.

Lemma nonBlankLines_trimEnd (s : string) :
  nonBlankLines (split "010" (trimEnd s)) = nonBlankLines (split "010" s).
Proof.
  destruct (split_trimEnd "010" s) as (k & H & _).
  unfold nonBlankLines. rewrite !map_trim_trimEnd, H.
  rewrite map_app, map_trimStart_blank, List.filter_app, filter_blank.
  now rewrite app_nil_r.
Qed.

Lemma nonBlankLines_trim (s : string) :
  nonBlankLines (split "010" (trim s)) = nonBlankLines (split "010" s).
Proof.
  unfold trim. now rewrite nonBlankLines_trimEnd, nonBlankLines_trimStart.
Qed.

Lemma whitespace_not_comma (c : ascii) :
  isWhiteSpace c = true -> Ascii.eqb c "," = false.
Proof.
  intros Hc. destruct (Ascii.eqb_spec c ",") as [-> | _];
    [discriminate Hc | reflexivity].
Qed.

Lemma cells_trimEnd (l : string) :
  map trim (split "," (trimEnd l)) = map trim (split "," l).
Proof.
  destruct (split_trimEnd "," l) as (k & H & Hk).
  rewrite (Hk eq_refl) in H. cbn [replicate] in H. rewrite app_nil_r in H.
  now rewrite !map_trim_trimEnd, H.
Qed.

Lemma cells_trimStart (l : string) :
  map trim (split "," (trimStart l)) = map trim (split "," l).
Proof.
  induction l as [| c l IH]; [reflexivity |].
  cbn [trimStart]. destruct (isWhiteSpace c) eqn:Hc; [| reflexivity].
  rewrite IH, (split_leading_space "," c l Hc).
  now rewrite (whitespace_not_comma c Hc).
Qed.

(** The fields of a line do not depend on the white space around it. *)
Lemma cellsOf_trim (l : string) : cellsOf (trim l) = cellsOf l.
Proof.
  unfold cellsOf, trim. now rewrite cells_trimEnd, cells_trimStart.
Qed.

(** A text that does not start with white space has a first line that is
    not blank. *)
Lemma split_first_line (c : ascii) (r : string) :
  isWhiteSpace c = false ->
  exists p ps,
    split "010" (String c r) = String c p :: ps
    /\ trim (String c p) = String c (trimEnd p).
Proof.
  intros Hc.
  assert (Hlf : Ascii.eqb c "010" = false).
  { destruct (Ascii.eqb_spec c "010") as [-> | _];
      [discriminate Hc | reflexivity]. }
  cbn [split]. rewrite Hlf.
  destruct (split_cons "010" r) as (p & ps & ->).
  exists p, ps. split; [reflexivity |].
  unfold trim. cbn [trimStart]. rewrite Hc. cbn [trimEnd]. now rewrite Hc.
Qed.

(** The records of a text, from its non-blank lines. *)
Lemma parseCSV_lines (csvText : string) :
  parseCSV csvText =
  match nonBlankLines (split "010" csvText) with
  | [] => []
  | header :: data => map (recordOf (cellsOf header)) data
  end.
Proof.
  rewrite <- nonBlankLines_trim.
  destruct (trim csvText) as [| c r] eqn:Ht.
  - unfold parseCSV. rewrite Ht. reflexivity.
  - pose proof (trim_head _ _ _ Ht) as Hc.
    destruct (split_first_line c r Hc) as (p & ps & Hs & Hfirst).
    rewrite (parseCSV_records csvText (String c p) ps)
      by (now rewrite Ht).
    rewrite Hs. unfold nonBlankLines at 2. cbn [map List.filter].
    rewrite Hfirst. cbn [isEmpty negb]. rewrite <- Hfirst.
    now rewrite cellsOf_trim.
Qed.

(** The records of a text depend only on its non-blank lines, trimmed:
    the first one names the fields, each further one gives a record.
    White space and blank lines around the text, blank lines before the
    header line and between the data lines have no effect.  There is
    one record less than there are non-blank lines, and none for a text
    of white space. *)
Theorem parseCSV_normal_form (csvText : string) :
  let lines := nonBlankLines (split "010" csvText) in
  parseCSV csvText
  = match lines with
    | [] => []
    | header :: data => map (recordOf (cellsOf header)) data
    end
  /\ length (parseCSV csvText) = pred (length lines)
  /\ (parseCSV csvText = [] <-> (length lines <= 1)%nat).
Proof.
  intros lines. pose proof (parseCSV_lines csvText) as H.
  fold lines in H. split; [exact H |].
  rewrite H. destruct lines as [| header data]; cbn [length pred].
  - split; [reflexivity |]. split; [lia | reflexivity].
  - rewrite length_map. split; [reflexivity |].
    destruct data as [| l ls]; cbn [map length].
    + split; [lia | reflexivity].
    + split; [discriminate | lia].
Qed.

Lemma split_crlf (s : string) :
  map trimEnd (split "010" (crlf s)) = map trimEnd (split "010" s).
Proof.
  induction s as [| c s IH]; [reflexivity |].
  cbn [crlf split]. destruct (Ascii.eqb c "010") eqn:Hc.
  - cbn [split]. change (Ascii.eqb "013" "010") with false.
    change (Ascii.eqb "010" "010") with true. cbn [map]. now rewrite IH.
  - cbn [split]. rewrite Hc.
    destruct (split_cons "010" (crlf s)) as (p' & ps' & Hs').
    destruct (split_cons "010" s) as (p & ps & Hs).
    rewrite Hs' , Hs in *. cbn [map] in *. injection IH as Hp Hps.
    f_equal; [now apply trimEnd_cons | exact Hps].
Qed.

(** A text with CR LF line ends gives the records of the text with LF
    line ends. *)
Theorem parseCSV_crlf (csvText : string) :
  parseCSV (crlf csvText) = parseCSV csvText.
Proof.
  rewrite !parseCSV_lines. unfold nonBlankLines.
  now rewrite !map_trim_trimEnd, split_crlf.
Qed.

Lemma assign_dom (row : gmap string cell) (key : string) (v : cell) :
  dom (assign row key v) = dom row ∪ keysOf [key].
Proof.
  unfold assign, keysOf.
  destruct (String.eqb_spec key "__proto__") as [-> | Hne].
  - set_solver.
  - rewrite dom_insert_L. set_solver.
Qed.

Lemma forEachHeader_dom (headers : list string) :
  forall (index : nat) (values : list string) (row : gmap string cell),
    dom (forEachHeader headers index values row)
    = dom row ∪ keysOf headers.
Proof.
  induction headers as [| h hs IH]; intros index values row;
    cbn [forEachHeader].
  - unfold keysOf. set_solver.
  - rewrite IH, assign_dom. unfold keysOf. set_solver.
Qed.

Lemma size_keysOf (headers : list string) :
  (size (keysOf headers) <= length headers)%nat.
Proof.
  unfold keysOf.
  transitivity (size (list_to_set headers : gset string));
    [apply subseteq_size; set_solver |].
  induction headers as [| x l IH]; cbn [list_to_set length].
  - now rewrite size_empty.
  - rewrite size_union_alt, size_singleton.
    assert (size (list_to_set l ∖ {[x]} : gset string)
            <= size (list_to_set l : gset string))%nat
      by (apply subseteq_size; set_solver).
    lia.
Qed.

(** All records of a text have the same keys: the names of the header
    line other than [__proto__]; so no record has more entries than the
    header line has fields. *)
Theorem parseCSV_uniform_keys (csvText : string) :
  let headers :=
    cellsOf (default EmptyString
               (head (nonBlankLines (split "010" csvText)))) in
  Forall (fun row : gmap string cell =>
            dom row = keysOf headers
            /\ (size row <= length headers)%nat)
         (parseCSV csvText).
Proof.
  intros headers. subst headers. rewrite parseCSV_lines.
  destruct (nonBlankLines (split "010" csvText)) as [| header data];
    [constructor |].
  cbn [head default]. apply Forall_forall. intros row Hin.
  apply list_elem_of_fmap in Hin as (line & -> & _).
  assert (Hdom : dom (recordOf (cellsOf header) line)
                 = keysOf (cellsOf header)).
  { unfold recordOf. rewrite forEachHeader_dom. set_solver. }
  split; [exact Hdom |].
  rewrite <- size_dom, Hdom. apply size_keysOf.
Qed.

Lemma coerce_wellFormed (v : string) :
  trim v = v -> wellFormedCell (coerce v).
Proof.
  intros Hv. unfold coerce.
  destruct (isEmpty v) eqn:He; cbn [negb andb].
  - apply isEmpty_true in He. cbn. auto.
  - destruct (isNaN (Number v)) eqn:Hn; cbn; auto.
Qed.

Lemma forEachHeader_wellFormed (headers : list string) :
  forall (index : nat) (values : list string) (row : gmap string cell),
    Forall (fun v => trim v = v) values ->
    map_Forall (fun _ c => wellFormedCell c) row ->
    map_Forall (fun _ c => wellFormedCell c)
      (forEachHeader headers index values row).
Proof.
  induction headers as [| h hs IH]; intros index values row Hv Hrow;
    cbn [forEachHeader]; [assumption |].
  apply IH; [assumption |]. unfold assign.
  destruct (String.eqb h "__proto__"); [assumption |].
  apply map_Forall_insert_2; [| assumption].
  apply coerce_wellFormed.
  destruct (values !! index) as [v |] eqn:Hi; cbn [default];
    [| reflexivity].
  rewrite Forall_forall in Hv. apply Hv.
  now apply list_elem_of_lookup_2 with index.
Qed.

(** Every stored cell is a number other than NaN or a trimmed string
    that is empty or not numeric: no record holds NaN, a numeric string
    or a string with white space around it. *)
Theorem parseCSV_cells_wellFormed (csvText : string) :
  Forall (fun row : gmap string cell =>
            map_Forall (fun _ c => wellFormedCell c) row)
         (parseCSV csvText).
Proof.
  rewrite parseCSV_lines.
  destruct (nonBlankLines (split "010" csvText)) as [| header data];
    [constructor |].
  apply Forall_forall. intros row Hin.
  apply list_elem_of_fmap in Hin as (line & -> & _).
  unfold recordOf. apply forEachHeader_wellFormed.
  - unfold cellsOf. apply Forall_forall. intros v Hin.
    apply list_elem_of_fmap in Hin as (x & -> & _). apply trim_idem.
  - apply map_Forall_empty.
Qed.

End ParseFacts.

Module DataUtilsRestFacts.
Import JS DataUtils DataUtilsRest.

(** [fetchCSV] never throws.  It sends one request, for the file under
    [data/Tables/] of the base path ([/] when [BASE_URL] is missing or
    empty).  When the reply is a success and its text can be read the
    result is [parseCSV] of the text and nothing is logged; in every
    other case (rejected request, other status, unreadable body) the
    result is the empty table and one error is logged, which for a reply
    that is not a success names the file and the status. *)
Theorem fetchCSV_outcome
    (BASE_URL : option string) (reply : nat -> string -> TextFetch)
    (filename : string) (p : Page) :
  let run := fetchCSV BASE_URL reply filename p in
  let url := (basePath BASE_URL ++ "data/Tables/" ++ filename)%string in
  let answer := reply (length (requested p)) url in
  let message := ("Error loading " ++ filename ++ ":")%string in
  requested (snd run) = requested p ++ [url]
  /\ (exists rows, fst run = Ok rows)
  /\ match answer with
     | Rejected e =>
         fst run = Ok [] /\ console (snd run) = console p ++ [(message, e)]
     | Resolved resp =>
         if ok resp
         then match text resp with
              | Ok csvText =>
                  fst run = Ok (parseCSV csvText)
                  /\ console (snd run) = console p
              | Throw e =>
                  fst run = Ok []
                  /\ console (snd run) = console p ++ [(message, e)]
              end
         else fst run = Ok []
              /\ console (snd run)
                 = console p
                   ++ [(message,
                        Error ("Failed to fetch " ++ filename ++ ": "
                               ++ integerToString (status resp)))]
     end
  /\ (BASE_URL = None \/ BASE_URL = Some EmptyString ->
      url = ("/data/Tables/" ++ filename)%string).
Proof.
  cbv zeta. unfold fetchCSV, tryCatch, bind, fetchText, readText,
    console_error, throw, ret.
  destruct (reply (length (requested p))
              (basePath BASE_URL ++ "data/Tables/" ++ filename)%string)
    as [e | resp]; cbn [fst snd requested console].
  - repeat split; eauto. intros [-> | ->]; reflexivity.
  - destruct (ok resp); cbn [negb fst snd requested console].
    + destruct (text resp) as [csvText | e];
        cbn [fst snd requested console].
      * repeat split; eauto. intros [-> | ->]; reflexivity.
      * repeat split; eauto. intros [-> | ->]; reflexivity.
    + repeat split; eauto. intros [-> | ->]; reflexivity.
Qed.

Lemma lowerChar_idem (c : ascii) : lowerChar (lowerChar c) = lowerChar c.
Proof. destruct c as [[] [] [] [] [] [] [] []]; reflexivity. Qed.

Lemma toLowerCase_idem (s : string) :
  toLowerCase (toLowerCase s) = toLowerCase s.
Proof.
  induction s as [| c s IH]; [reflexivity |].
  cbn [toLowerCase]. now rewrite lowerChar_idem, IH.
Qed.

Lemma toLowerCase_isEmpty (s : string) :
  isEmpty (toLowerCase s) = isEmpty s.
Proof. now destruct s. Qed.

(** [getSeverityColor] returns one of the four badge variants for every
    value of the property; [destructive] exactly for a string that is
    [extreme] or [severe] up to the case of its letters; [default] for
    an absent value, a number and the empty string; and it does not
    depend on the case of the letters. *)
Theorem getSeverityColor_variants (category : option cell) :
  getSeverityColor category
    ∈ ["default"; "destructive"; "secondary"; "outline"]%string
  /\ (getSeverityColor category = "destructive"%string
      <-> exists s, category = Some (StringCell s)
                    /\ (toLowerCase s = "extreme"%string
                        \/ toLowerCase s = "severe"%string))
  /\ getSeverityColor None = "default"%string
  /\ (forall n, getSeverityColor (Some (NumberCell n)) = "default"%string)
  /\ getSeverityColor (Some (StringCell EmptyString)) = "default"%string
  /\ (forall s, getSeverityColor (Some (StringCell (toLowerCase s)))
                = getSeverityColor (Some (StringCell s))).
Proof.
  split; [| split; [| repeat split]].
  - unfold getSeverityColor.
    destruct category as [[n | s] |]; [set_solver | | set_solver].
    destruct (isEmpty s); [set_solver |].
    repeat match goal with
           | |- context [String.eqb ?a ?b] => destruct (String.eqb a b)
           end; set_solver.
  - split.
    + unfold getSeverityColor.
      destruct category as [[n | s] |]; [discriminate | | discriminate].
      destruct (isEmpty s); [discriminate |].
      destruct (String.eqb_spec (toLowerCase s) "extreme") as [He | _];
        [intros _; eauto |].
      destruct (String.eqb_spec (toLowerCase s) "severe") as [Hs | _];
        [intros _; eauto |].
      repeat match goal with
             | |- context [String.eqb ?a ?b] => destruct (String.eqb a b)
             end; discriminate.
    + intros (s & -> & Hs). unfold getSeverityColor.
      assert (He : isEmpty s = false)
        by (destruct s; [destruct Hs; discriminate | reflexivity]).
      rewrite He. destruct Hs as [-> | ->]; reflexivity.
  - intros s. unfold getSeverityColor.
    now rewrite toLowerCase_isEmpty, toLowerCase_idem.
Qed.

End DataUtilsRestFacts.

Module GeminiMoreFacts.
Import JS StringSpec StringFacts Gemini GeminiSpec GeminiFacts.

(** No retry: an invocation sends the listing request and then at most
    one generation request, to the first capable model of the listing;
    the generation request is sent exactly when the listing succeeds
    with a capable model.  The earlier entries of the log are kept. *)
Theorem callGeminiAPI_requests
    (GEMINI_API_KEY : string)
    (listReply : nat -> FetchResult ListModelsResponse)
    (generateReply : nat -> Request -> FetchResult GeminiResponse)
    (prompt : string) (log : list Request) :
  let run := callGeminiAPI GEMINI_API_KEY listReply generateReply prompt log in
  let listReq := listRequest GEMINI_API_KEY in
  let discovered :=
    match listReply (length log) with
    | Resolved listed =>
        if ok listed
        then match json listed with
             | Some data => firstCapable (models data)
             | None => None
             end
        else None
    | Rejected _ => None
    end in
  snd run
  = log ++ listReq
        :: match discovered with
           | Some m => [generateRequest GEMINI_API_KEY (name m) prompt]
           | None => []
           end
  /\ (discovered = None -> exists e, fst run = Throw e)
  /\ method listReq = "GET"%string
  /\ (forall m, method (generateRequest GEMINI_API_KEY (name m) prompt)
                = "POST"%string).
Proof.
  cbv zeta. rewrite callGeminiAPI_run, pickModel_run.
  destruct (listReply (length log)) as [e | listed];
    [repeat split; eauto |].
  destruct (ok listed); cbn [negb]; [| repeat split; eauto].
  destruct (json listed) as [data |]; [| repeat split; eauto].
  destruct (firstCapable (models data)) as [m |];
    [| repeat split; eauto].
  cbn [snd]. rewrite <- app_assoc. repeat split. discriminate.
Qed.

(** A returned text is trimmed: trimming it again changes nothing, and
    it neither starts nor ends with white space. *)
Theorem callGeminiAPI_answer_trimmed
    (GEMINI_API_KEY : string)
    (listReply : nat -> FetchResult ListModelsResponse)
    (generateReply : nat -> Request -> FetchResult GeminiResponse)
    (prompt : string) (log : list Request) (answer : string) :
  fst (callGeminiAPI GEMINI_API_KEY listReply generateReply prompt log)
    = Ok answer ->
  trim answer = answer
  /\ (forall c rest, answer = String c rest -> isWhiteSpace c = false)
  /\ (forall c, lastChar answer = Some c -> isWhiteSpace c = false).
Proof.
  rewrite callGeminiAPI_run.
  destruct (pickModelWithGenerateContent GEMINI_API_KEY listReply log)
    as [[modelName | e] log']; [| discriminate].
  cbn [fst]. intros Hrun.
  assert (Ht : exists t, answer = trim t).
  { repeat case_match; simplify_eq; eauto. }
  destruct Ht as [t ->]. split; [apply trim_idem |]. split.
  - intros c rest H. now apply trim_head in H.
  - intros c H. now apply trim_last in H.
Qed.

Lemma callGeminiAPI_answer_trimmed_witness :
  let model :=
    {| name := "models/m";
       supportedGenerationMethods := Some ["generateContent"%string] |} in
  let listReply := fun _ : nat =>
    Resolved {| ok := true; statusText := "OK"; errorMessage := None;
                json := Some {| models := [model] |} |} in
  let generateReply := fun (_ : nat) (_ : Request) =>
    Resolved
      {| ok := true; statusText := "OK"; errorMessage := None;
         json := Some {| candidates :=
           Some [ {| content :=
                       {| parts := [ {| text := "  Noise is high.  " |} ] |} |} ]
                       |} |} in
  trim "Noise is high." = "Noise is high."%string
  /\ (forall c rest, "Noise is high."%string = String c rest ->
                     isWhiteSpace c = false)
  /\ (forall c, lastChar "Noise is high." = Some c -> isWhiteSpace c = false).
Proof.
  intros model listReply generateReply.
  apply (callGeminiAPI_answer_trimmed "k" listReply generateReply "p" []).
  reflexivity.
Defined.

End GeminiMoreFacts.

Module DataTableFacts.
Import JS JSFacts DataUtils DataTable DataTableSpec.

(** After a click the table is sorted by the clicked column; a column
    that was not the sort column starts descending; a further click on
    the same column reverses the direction, so three clicks on a column
    leave the state of one click. *)
Theorem handleSort_clicks (column : string) (st : SortState) :
  sortColumn (handleSort column st) = column
  /\ (sortColumn st <> column ->
      sortDirection (handleSort column st) = desc)
  /\ sortDirection (handleSort column (handleSort column st))
     <> sortDirection (handleSort column st)
  /\ handleSort column (handleSort column (handleSort column st))
     = handleSort column st
  /\ (column <> EmptyString ->
      handleSort column initialSort
      = {| sortColumn := column; sortDirection := desc |}).
Proof.
  unfold handleSort. destruct st as [col dir].
  cbn [sortColumn sortDirection].
  destruct (String.eqb_spec col column) as [-> | Hne];
    cbn [sortColumn sortDirection]; rewrite String.eqb_refl;
    cbn [sortColumn sortDirection]; rewrite ?String.eqb_refl;
    cbn [sortColumn sortDirection].
  - repeat split; try (destruct dir; congruence).
    intros Hc. unfold initialSort. cbn [sortColumn].
    destruct (String.eqb_spec "" column); congruence.
  - repeat split; try congruence.
    intros Hc. unfold initialSort. cbn [sortColumn].
    destruct (String.eqb_spec "" column); congruence.
Qed.

Lemma insert_Permutation {A} (compare : A -> A -> number) (x : A)
    (l : list A) :
  Permutation (insert compare x l) (x :: l).
Proof.
  induction l as [| y l IH]; cbn [insert]; [reflexivity |].
  destruct (negative (compare x y)); [reflexivity |].
  rewrite IH. apply perm_swap.
Qed.

Lemma fold_insert_Permutation {A} (compare : A -> A -> number) (l : list A) :
  forall acc : list A,
    Permutation (fold_left (fun sorted x => insert compare x sorted) l acc)
                (acc ++ l).
Proof.
  induction l as [| x l IH]; intros acc; cbn [fold_left].
  - now rewrite app_nil_r.
  - rewrite IH, insert_Permutation. apply Permutation_middle.
Qed.

Lemma sort_Permutation {A} (compare : A -> A -> number) (l : list A) :
  Permutation (sort compare l) l.
Proof. apply (fold_insert_Permutation compare l []). Qed.

(** With a comparator that always answers 0 the order is kept. *)
Lemma fold_insert_zero {A} (compare : A -> A -> number) (l : list A) :
  (forall a b, negative (compare a b) = false) ->
  forall acc : list A,
    fold_left (fun sorted x => insert compare x sorted) l acc = acc ++ l.
Proof.
  intros Hz.
  assert (Hins : forall x acc, insert compare x acc = acc ++ [x]).
  { intros x acc. induction acc as [| y acc IH]; cbn [insert];
      [reflexivity |]. now rewrite Hz, IH. }
  induction l as [| x l IH]; intros acc; cbn [fold_left].
  - now rewrite app_nil_r.
  - now rewrite IH, Hins, <- app_assoc.
Qed.

(** The rows shown are the rows given, each as often as it was given,
    whatever the column, the direction and the locale; while no column
    has been clicked they are shown in the order given. *)
Theorem sortedData_rows
    (numberToString : number -> string)
    (localeCompare : string -> string -> number)
    (st : SortState) (data : list (gmap string cell)) :
  Permutation (sortedData numberToString localeCompare st data) data
  /\ length (sortedData numberToString localeCompare st data) = length data
  /\ sortedData numberToString localeCompare initialSort data = data
  /\ (sortColumn st = EmptyString ->
      sortedData numberToString localeCompare st data = data).
Proof.
  unfold sortedData. split; [apply sort_Permutation |].
  split; [apply Permutation_length, sort_Permutation |].
  assert (H : forall s, sortColumn s = EmptyString ->
                        sort (compareRows numberToString localeCompare s) data
                        = data).
  { intros s Hs. unfold sort. rewrite fold_insert_zero; [reflexivity |].
    intros a b. unfold compareRows. now rewrite Hs. }
  split; [now apply H | apply H].
Qed.

Lemma negative_numberOf (q : Q) : negative (numberOf q) = ltb q 0.
Proof.
  unfold numberOf. destruct (leb overflowBound (Qabs q)).
  - now destruct (ltb q 0).
  - cbn [negative]. unfold ltb. f_equal.
    apply Qleb_comp; [reflexivity | apply Qred_correct].
Qed.

Section SortByKey.

Context {A : Type}.
Variable compare : A -> A -> number.
Variable key : A -> Q.
Variable P : A -> Prop.

(** On the elements that satisfy [P] the comparator orders by [key]. *)
Hypothesis compare_key :
  forall a b, P a -> P b -> negative (compare a b) = ltb (key a) (key b).

Let ordered (a b : A) : Prop := key a <= key b.

Lemma insert_Forall (x : A) (l : list A) :
  P x -> Forall P l -> Forall P (insert compare x l).
Proof.
  intros Hx Hl. rewrite insert_Permutation. now constructor.
Qed.

Lemma insert_ordered (x : A) (l : list A) :
  P x -> Forall P l -> StronglySorted ordered l ->
  StronglySorted ordered (insert compare x l).
Proof.
  intros Hx Hl Hs. induction Hs as [| y l Hs IH Hy]; cbn [insert].
  - repeat constructor.
  - apply Forall_cons in Hl as [Py Pl].
    rewrite (compare_key x y Hx Py).
    destruct (ltb (key x) (key y)) eqn:Hlt.
    + apply ltb_lt in Hlt. constructor; [now constructor |].
      constructor; [unfold ordered; lra |].
      eapply Forall_impl; [exact Hy |]. unfold ordered. intros z Hz. lra.
    + apply ltb_ge in Hlt. constructor; [now apply IH |].
      rewrite insert_Permutation.
      constructor; [exact Hlt | exact Hy].
Qed.

(** An element is inserted behind the elements of the same key. *)
Lemma insert_stable (k : Q) (x : A) (l : list A) :
  P x -> Forall P l -> StronglySorted ordered l ->
  List.filter (fun y => Qeq_bool (key y) k) (insert compare x l)
  = List.filter (fun y => Qeq_bool (key y) k) l
    ++ List.filter (fun y => Qeq_bool (key y) k) [x].
Proof.
  intros Hx Hl Hs. induction Hs as [| y l Hs IH Hy]; cbn [insert].
  - reflexivity.
  - apply Forall_cons in Hl as [Py Pl].
    rewrite (compare_key x y Hx Py).
    destruct (ltb (key x) (key y)) eqn:Hlt.
    + apply ltb_lt in Hlt. cbn [List.filter].
      destruct (Qeq_bool (key x) k) eqn:Hxk; [| now rewrite app_nil_r].
      apply Qeq_bool_eq in Hxk.
      assert (Hy' : Qeq_bool (key y) k = false).
      { apply not_true_iff_false. intros H. apply Qeq_bool_eq in H. lra. }
      rewrite Hy'.
      assert (Hnone : List.filter (fun z => Qeq_bool (key z) k) l = []).
      { clear IH Hs Pl. induction Hy as [| z l Hz _ IHl]; [reflexivity |].
        cbn [List.filter].
        assert (Hz' : Qeq_bool (key z) k = false).
        { apply not_true_iff_false. intros H. apply Qeq_bool_eq in H.
          unfold ordered in Hz. lra. }
        now rewrite Hz'. }
      now rewrite Hnone.
    + cbn [List.filter]. rewrite (IH Pl).
      now destruct (Qeq_bool (key y) k).
Qed.

Lemma fold_insert_sorted (l : list A) :
  forall acc : list A,
    Forall P l -> Forall P acc -> StronglySorted ordered acc ->
    let result := fold_left (fun sorted x => insert compare x sorted) l acc in
    StronglySorted ordered result
    /\ forall k,
         List.filter (fun y => Qeq_bool (key y) k) result
         = List.filter (fun y => Qeq_bool (key y) k) acc
           ++ List.filter (fun y => Qeq_bool (key y) k) l.
Proof.
  induction l as [| x l IH]; intros acc Hl Hacc Hs; cbn [fold_left].
  - split; [assumption |]. intros k. now rewrite app_nil_r.
  - apply Forall_cons in Hl as [Px Pl].
    destruct (IH (insert compare x acc) Pl
                (insert_Forall x acc Px Hacc)
                (insert_ordered x acc Px Hacc Hs)) as [Hsorted Hstable].
    split; [exact Hsorted |]. intros k.
    rewrite Hstable, (insert_stable k x acc Px Hacc Hs), <- app_assoc.
    cbn [List.filter]. now destruct (Qeq_bool (key x) k).
Qed.

(** The stable sort by [key]. *)
Lemma sort_by_key (l : list A) :
  Forall P l ->
  StronglySorted ordered (sort compare l)
  /\ forall k,
       List.filter (fun y => Qeq_bool (key y) k) (sort compare l)
       = List.filter (fun y => Qeq_bool (key y) k) l.
Proof.
  intros Hl.
  apply (fold_insert_sorted l [] Hl); constructor.
Qed.

End SortByKey.

Lemma ltb_minus (x y : Q) : ltb (x - y) 0 = ltb x y.
Proof.
  destruct (ltb x y) eqn:H.
  - apply ltb_lt in H. apply ltb_lt. lra.
  - apply ltb_ge in H. apply ltb_ge. lra.
Qed.

Lemma Qeq_bool_opp (a b : Q) : Qeq_bool (- a) (- b) = Qeq_bool a b.
Proof.
  destruct (Qeq_bool a b) eqn:H.
  - apply Qeq_bool_iff in H. apply Qeq_bool_iff. now rewrite H.
  - apply not_true_iff_false. intros H'. apply Qeq_bool_iff in H'.
    apply not_true_iff_false in H. apply H. apply Qeq_bool_iff. lra.
Qed.

Lemma StronglySorted_impl {A} (R S : A -> A -> Prop) (l : list A) :
  (forall a b, R a b -> S a b) ->
  StronglySorted R l -> StronglySorted S l.
Proof.
  intros HRS. induction 1 as [| x l _ IH Hx]; constructor;
    [exact IH |].
  eapply Forall_impl; [exact Hx | apply HRS].
Qed.

Lemma rowsWith_opp (column : string) (k : Q) (l : list (gmap string cell)) :
  List.filter (fun row => Qeq_bool (- keyAt column row) (- k)) l
  = rowsWith column k l.
Proof.
  unfold rowsWith. apply List.filter_ext. intros row. apply Qeq_bool_opp.
Qed.

(** Sorting by a column in which every row holds a finite number:
    ascending the numbers never decrease down the table, descending they
    never increase, and rows with equal numbers stay in the order in
    which they were given. *)
Theorem sortedData_numeric
    (numberToString : number -> string)
    (localeCompare : string -> string -> number)
    (column : string) (data : list (gmap string cell)) :
  column <> EmptyString ->
  numericColumn column data ->
  let up := sortedData numberToString localeCompare
              {| sortColumn := column; sortDirection := asc |} data in
  let down := sortedData numberToString localeCompare
                {| sortColumn := column; sortDirection := desc |} data in
  StronglySorted (fun a b => keyAt column a <= keyAt column b) up
  /\ StronglySorted (fun a b => keyAt column b <= keyAt column a) down
  /\ (forall k, rowsWith column k up = rowsWith column k data)
  /\ (forall k, rowsWith column k down = rowsWith column k data).
Proof.
  intros Hcol Hnum up down.
  assert (He : isEmpty column = false) by (now destruct column).
  set (P := fun row : gmap string cell =>
              exists q, row !! column = Some (NumberCell (Finite q))).
  assert (Hasc : forall a b, P a -> P b ->
            negative (compareRows numberToString localeCompare
                        {| sortColumn := column; sortDirection := asc |} a b)
            = ltb (keyAt column a) (keyAt column b)).
  { intros a b [x Ha] [y Hb]. unfold compareRows, keyAt.
    cbn [sortColumn sortDirection]. rewrite He, Ha, Hb. cbn [minus].
    now rewrite negative_numberOf, ltb_minus. }
  assert (Hdesc : forall a b, P a -> P b ->
            negative (compareRows numberToString localeCompare
                        {| sortColumn := column; sortDirection := desc |} a b)
            = ltb (- keyAt column a) (- keyAt column b)).
  { intros a b [x Ha] [y Hb]. unfold compareRows, keyAt.
    cbn [sortColumn sortDirection]. rewrite He, Ha, Hb. cbn [minus].
    rewrite negative_numberOf, ltb_minus.
    destruct (ltb y x) eqn:H.
    - apply ltb_lt in H. symmetry. apply ltb_lt. lra.
    - apply ltb_ge in H. symmetry. apply ltb_ge. lra. }
  destruct (sort_by_key _ _ P Hasc data Hnum) as [Hup Hup_stable].
  destruct (sort_by_key _ _ P Hdesc data Hnum) as [Hdown Hdown_stable].
  split; [exact Hup |]. split.
  - eapply StronglySorted_impl; [| exact Hdown]. cbn beta. intros a b H. lra.
  - split; [exact Hup_stable |].
    intros k. specialize (Hdown_stable (- k)).
    now rewrite !rowsWith_opp in Hdown_stable.
Qed.

Lemma sortedData_numeric_witness :
  let data : list (gmap string cell) :=
    [ {[ "Location"%string := StringCell "ito";
         "Level"%string := NumberCell (Finite 2) ]};
      {[ "Location"%string := StringCell "nsit";
         "Level"%string := NumberCell (Finite 1) ]};
      {[ "Location"%string := StringCell "isbt";
         "Level"%string := NumberCell (Finite 2) ]} ] in
  let numberToString := fun _ : number => EmptyString in
  let localeCompare := fun _ _ : string => Finite 0 in
  let up := sortedData numberToString localeCompare
              {| sortColumn := "Level"; sortDirection := asc |} data in
  let down := sortedData numberToString localeCompare
                {| sortColumn := "Level"; sortDirection := desc |} data in
  StronglySorted (fun a b => keyAt "Level" a <= keyAt "Level" b) up
  /\ StronglySorted (fun a b => keyAt "Level" b <= keyAt "Level" a) down
  /\ (forall k, rowsWith "Level" k up = rowsWith "Level" k data)
  /\ (forall k, rowsWith "Level" k down = rowsWith "Level" k data).
Proof.
  intros data numberToString localeCompare.
  apply (sortedData_numeric numberToString localeCompare "Level" data).
  - discriminate.
  - unfold numericColumn, data.
    repeat constructor; eexists; reflexivity.
Defined.

Example sortedData_sample :
  let data : list (gmap string cell) :=
    [ {[ "Location"%string := StringCell "ito";
         "Level"%string := NumberCell (Finite 2) ]};
      {[ "Location"%string := StringCell "nsit";
         "Level"%string := NumberCell (Finite 1) ]};
      {[ "Location"%string := StringCell "isbt";
         "Level"%string := NumberCell (Finite 2) ]} ] in
  map (fun row => row !! "Location"%string)
    (sortedData (fun _ => EmptyString) (fun _ _ => Finite 0)
       {| sortColumn := "Level"; sortDirection := desc |} data)
  = [Some (StringCell "ito"); Some (StringCell "isbt");
     Some (StringCell "nsit")]
  /\ map (fun row => row !! "Location"%string)
       (sortedData (fun _ => EmptyString) (fun _ _ => Finite 0)
          {| sortColumn := "Level"; sortDirection := asc |} data)
     = [Some (StringCell "nsit"); Some (StringCell "ito");
        Some (StringCell "isbt")].
Proof. split; reflexivity. Qed.

End DataTableFacts.


Module ValidatorFacts.
Import JS StringSpec StringFacts DataUtils DataUtilsSpec DataUtilsFacts.
Import ParseSpec ParseFacts Validator ValidatorSpec.

Lemma includes_elem_of (l : list string) (x : string) :
  includes l x = true <-> x ∈ l.
Proof.
  unfold includes. rewrite existsb_exists. split.
  - intros (y & Hy & Heq). apply String.eqb_eq in Heq as ->.
    now apply list_elem_of_In.
  - intros Hx. exists x. split; [now apply list_elem_of_In |].
    apply String.eqb_refl.
Qed.

Lemma indexOf_Some (x : string) (l : list string) :
  forall idx : nat,
    indexOf x l = Some idx ->
    l !! idx = Some x /\ forall j, (j < idx)%nat -> l !! j <> Some x.
Proof.
  induction l as [| y l IH]; intros idx H; [discriminate |].
  cbn [indexOf] in H. destruct (String.eqb_spec y x) as [-> | Hne].
  - injection H as <-. split; [reflexivity | intros j Hj; lia].
  - destruct (indexOf x l) as [k |]; [| discriminate].
    injection H as <-. destruct (IH k eq_refl) as [Hk Hbefore].
    split; [exact Hk |].
    intros [| j] Hj; cbn; [congruence | apply Hbefore; lia].
Qed.

Lemma indexOf_elem_of (x : string) (l : list string) :
  x ∈ l -> exists idx, indexOf x l = Some idx.
Proof.
  induction l as [| y l IH]; intros Hx; [now apply elem_of_nil in Hx |].
  cbn [indexOf]. destruct (String.eqb_spec y x) as [-> | Hne]; [eauto |].
  apply elem_of_cons in Hx as [-> | Hx]; [congruence |].
  destruct (IH Hx) as [k ->]. now exists (S k).
Qed.

(** Of a column that occurs once, the first occurrence is the last. *)
Lemma occursOnce_last (x : string) (l : list string) :
  forall idx : nat,
    occursOnce x l -> indexOf x l = Some idx ->
    forall j, (idx < j)%nat -> l !! j <> Some x.
Proof.
  unfold occursOnce.
  induction l as [| y l IH]; intros idx Honce H; [discriminate |].
  cbn [indexOf] in H. cbn [List.filter] in Honce.
  destruct (String.eqb_spec y x) as [-> | Hne].
  - rewrite String.eqb_refl in Honce. injection H as <-.
    injection Honce as Hnone. apply length_zero_iff_nil in Hnone.
    intros [| j] Hj Hl; [lia |]. cbn in Hl.
    assert (Hin : In x (List.filter (String.eqb x) l)).
    { apply filter_In. split; [| apply String.eqb_refl].
      apply list_elem_of_In. eapply list_elem_of_lookup_2. exact Hl. }
    now rewrite Hnone in Hin.
  - assert (Hxy : String.eqb x y = false).
    { apply String.eqb_neq. congruence. }
    rewrite Hxy in Honce.
    destruct (indexOf x l) as [k |]; [| discriminate].
    injection H as <-.
    intros [| j] Hj; cbn; [congruence |].
    apply (IH k Honce eq_refl). lia.
Qed.

(** *** The checks of one line *)

Lemma checkNumeric_counts (headers values : list string) (lineNum : nat)
    (columns : list string) :
  forall t : Tally,
    validRows (checkNumeric headers values lineNum columns t) = validRows t
    /\ warnings (checkNumeric headers values lineNum columns t) = warnings t.
Proof.
  induction columns as [| c cs IH]; intros t; cbn [checkNumeric];
    [split; reflexivity |].
  destruct (IH (match indexOf c headers with
                | Some idx =>
                    match values !! idx with
                    | Some v =>
                        if negb (isEmpty v) && isNaN (Number v)
                        then addError (NotNumeric lineNum c (Some v)) t
                        else t
                    | None => addError (NotNumeric lineNum c None) t
                    end
                | None => t
                end)) as [-> ->].
  destruct (indexOf c headers) as [idx |]; [| split; reflexivity].
  destruct (values !! idx) as [v |]; [| split; reflexivity].
  destruct (negb (isEmpty v) && isNaN (Number v)); split; reflexivity.
Qed.

Lemma checkNumeric_errors (headers values : list string) (lineNum : nat)
    (columns : list string) :
  length values = length headers ->
  forall t : Tally,
    errors (checkNumeric headers values lineNum columns t) = 0%nat
    <-> errors t = 0%nat
        /\ forallb (fun colName =>
                      match valueAt headers values colName with
                      | Some v => numericOrEmpty v
                      | None => true
                      end) columns = true.
Proof.
  intros Hlen.
  induction columns as [| c cs IH]; intros t; cbn [checkNumeric forallb].
  - tauto.
  - rewrite IH, andb_true_iff. unfold valueAt, numericOrEmpty.
    destruct (indexOf c headers) as [idx |] eqn:Hidx; [| tauto].
    destruct (indexOf_Some _ _ _ Hidx) as [Hh _].
    apply lookup_lt_Some in Hh. rewrite <- Hlen in Hh.
    destruct (lookup_lt_is_Some_2 values idx Hh) as [v ->].
    destruct (isEmpty v), (isNaN (Number v)); cbn; intuition congruence.
Qed.

Lemma checkSeverity_counts (headers values : list string) (lineNum : nat)
    (t : Tally) :
  validRows (checkSeverity headers values lineNum t) = validRows t
  /\ warnings (checkSeverity headers values lineNum t) = warnings t.
Proof.
  unfold checkSeverity.
  destruct (indexOf _ headers) as [idx |]; [| split; reflexivity].
  destruct (values !! idx) as [v |]; [| split; reflexivity].
  destruct (negb (isEmpty v) && negb (includes validCategories v));
    split; reflexivity.
Qed.

Lemma checkSeverity_errors (headers values : list string) (lineNum : nat)
    (t : Tally) :
  errors (checkSeverity headers values lineNum t) = 0%nat
  <-> errors t = 0%nat
      /\ match valueAt headers values "Severity_Category" with
         | Some v => categoryOrEmpty v
         | None => true
         end = true.
Proof.
  unfold checkSeverity, valueAt, categoryOrEmpty.
  destruct (indexOf _ headers) as [idx |]; [| tauto].
  destruct (values !! idx) as [v |]; [| tauto].
  destruct (isEmpty v), (includes validCategories v); cbn;
    intuition congruence.
Qed.

(** *** The loop over the data lines *)

(** The loop ends without an error exactly when it started without one
    and every non-blank line passes the checks. *)
Lemma rowLoop_errors (headers : list string) (options : Options)
    (lines : list string) :
  forall (i : nat) (t : Tally),
    errors (rowLoop headers options lines i t) = 0%nat
    <-> errors t = 0%nat
        /\ forallb (lineOk headers options) (nonBlankLines lines) = true.
Proof.
  unfold nonBlankLines.
  induction lines as [| l ls IH]; intros i t;
    cbn [rowLoop map List.filter forallb]; [tauto |].
  destruct (isEmpty (trim l)) eqn:Hblank; cbn [negb].
  - rewrite IH. cbn [addWarning errors]. tauto.
  - cbn [forallb]. rewrite andb_true_iff. unfold lineOk at 1.
    fold (cellsOf (trim l)).
    destruct (Nat.eqb_spec (length (cellsOf (trim l))) (length headers))
      as [Hlen | Hlen]; cbn [negb andb].
    + rewrite IH. cbn [addValidRow errors].
      set (t1 := match emptyIndices (cellsOf (trim l)) 0 with
                 | [] => t
                 | _ :: _ => _
                 end).
      assert (H1 : errors t1 = errors t).
      { unfold t1. now destruct (emptyIndices _ _). }
      set (t2 := match numericColumns options with
                 | Some columns => _
                 | None => t1
                 end).
      assert (H2 : errors t2 = 0%nat
                   <-> errors t = 0%nat
                       /\ forallb (fun colName =>
                            match valueAt headers (cellsOf (trim l)) colName with
                            | Some v => numericOrEmpty v
                            | None => true
                            end) (default [] (numericColumns options)) = true).
      { unfold t2. destruct (numericColumns options) as [columns |];
          cbn [default forallb].
        - rewrite checkNumeric_errors by exact Hlen. now rewrite H1.
        - rewrite H1. tauto. }
      destruct (validateSeverity options); cbn [negb orb].
      * rewrite checkSeverity_errors, H2, andb_true_iff. tauto.
      * rewrite H2, andb_true_r. tauto.
    + rewrite IH. cbn [addError errors]. intuition congruence.
Qed.

(** The rows counted are the non-blank lines with as many fields as the
    header line. *)
Lemma rowLoop_validRows (headers : list string) (options : Options)
    (lines : list string) :
  forall (i : nat) (t : Tally),
    validRows (rowLoop headers options lines i t)
    = (validRows t
       + length (List.filter
                   (fun line => length (cellsOf line) =? length headers)%nat
                   (nonBlankLines lines)))%nat.
Proof.
  unfold nonBlankLines.
  induction lines as [| l ls IH]; intros i t;
    cbn [rowLoop map List.filter length]; [lia |].
  destruct (isEmpty (trim l)) eqn:Hblank; cbn [negb].
  - rewrite IH. reflexivity.
  - cbn [List.filter]. fold (cellsOf (trim l)).
    destruct (Nat.eqb_spec (length (cellsOf (trim l))) (length headers))
      as [Hlen | Hlen]; cbn [negb].
    + rewrite IH. cbn [addValidRow validRows length].
      set (t1 := match emptyIndices (cellsOf (trim l)) 0 with
                 | [] => t
                 | _ :: _ => _
                 end).
      assert (H1 : validRows t1 = validRows t).
      { unfold t1. now destruct (emptyIndices _ _). }
      set (t2 := match numericColumns options with
                 | Some columns => _
                 | None => t1
                 end).
      assert (H2 : validRows t2 = validRows t).
      { unfold t2. destruct (numericColumns options) as [columns |];
          [| exact H1].
        now rewrite (proj1 (checkNumeric_counts _ _ _ _ _)). }
      destruct (validateSeverity options).
      * rewrite (proj1 (checkSeverity_counts _ _ _ _)), H2. lia.
      * rewrite H2. lia.
    + rewrite IH. reflexivity.
Qed.

Lemma lineOk_length (headers : list string) (options : Options)
    (line : string) :
  lineOk headers options line = true ->
  length (cellsOf line) = length headers.
Proof.
  unfold lineOk. rewrite !andb_true_iff. intros [[H _] _].
  now apply Nat.eqb_eq.
Qed.

Lemma filter_all {A : Type} (f g : A -> bool) (l : list A) :
  (forall x, f x = true -> g x = true) ->
  forallb f l = true -> List.filter g l = l.
Proof.
  intros Hfg. induction l as [| x l IH]; cbn; [reflexivity |].
  rewrite andb_true_iff. intros [Hx Hl].
  rewrite (Hfg x Hx). now rewrite IH.
Qed.

Lemma summary_output (t : Tally) :
  In (DataRows (validRows t)) (output (summary t)).
Proof.
  unfold summary.
  destruct (0 <? errors t)%nat, (0 <? warnings t)%nat,
    ((errors t =? 0)%nat && (warnings t =? 0)%nat);
    cbn [say output]; rewrite ?in_app_iff; cbn [In]; tauto.
Qed.

(** *** The lines of a trimmed text *)

Lemma split_last (sep : ascii) (s : string) :
  forall c : ascii,
    lastChar s = Some c -> Ascii.eqb c sep = false ->
    exists l, last (split sep s) = Some l /\ lastChar l = Some c.
Proof.
  induction s as [| a s IH]; intros c Hc Hsep; [discriminate |].
  destruct s as [| b s].
  - cbn in Hc. injection Hc as ->. cbn [split]. rewrite Hsep.
    now exists (String c EmptyString).
  - change (lastChar (String a (String b s)))
      with (lastChar (String b s)) in Hc.
    destruct (IH c Hc Hsep) as (l & Hl & Hlc).
    change (split sep (String a (String b s)))
      with (if Ascii.eqb a sep then EmptyString :: split sep (String b s)
            else match split sep (String b s) with
                 | piece :: pieces => String a piece :: pieces
                 | [] => [String a EmptyString]
                 end).
    destruct (split sep (String b s)) as [| p ps]; [discriminate |].
    destruct (Ascii.eqb a sep).
    + exists l. split; [| exact Hlc]. exact Hl.
    + destruct ps as [| p' ps].
      * cbn in Hl. injection Hl as ->. exists (String a l).
        split; [reflexivity |].
        destruct l; [discriminate | exact Hlc].
      * exists l. split; [exact Hl | exact Hlc].
Qed.

Lemma lastChar_is_Some (c : ascii) (s : string) :
  exists d, lastChar (String c s) = Some d.
Proof.
  revert c. induction s as [| b s IH]; intros c; [now exists c |].
  destruct (IH b) as [d Hd]. exists d. exact Hd.
Qed.

Lemma lastChar_trimStart (s : string) (c : ascii) :
  lastChar s = Some c -> isWhiteSpace c = false ->
  lastChar (trimStart s) = Some c.
Proof.
  induction s as [| a s IH]; intros Hc Hw; [discriminate |].
  cbn [trimStart]. destruct (isWhiteSpace a) eqn:Ha; [| exact Hc].
  destruct s as [| b s].
  - cbn in Hc. congruence.
  - apply IH; [exact Hc | exact Hw].
Qed.

Lemma lastChar_trimEnd (s : string) (c : ascii) :
  lastChar s = Some c -> isWhiteSpace c = false ->
  isEmpty (trimEnd s) = false.
Proof.
  induction s as [| a s IH]; intros Hc Hw; [discriminate |].
  cbn [trimEnd]. destruct s as [| b s].
  - cbn in Hc. injection Hc as ->. rewrite Hw. reflexivity.
  - rewrite (IH Hc Hw). now rewrite andb_false_r.
Qed.

Lemma lastChar_nonblank (s : string) (c : ascii) :
  lastChar s = Some c -> isWhiteSpace c = false ->
  isEmpty (trim s) = false.
Proof.
  intros Hc Hw. unfold trim.
  apply (lastChar_trimEnd _ c); [| exact Hw].
  now apply lastChar_trimStart.
Qed.

(** The first and the last line of a trimmed text are not blank. *)
Lemma trimmed_lines (s first : string) (rest : list string) :
  split "010" (trim s) = first :: rest -> rest <> [] ->
  isEmpty (trim first) = false /\ nonBlankLines rest <> [].
Proof.
  intros Hs Hrest.
  destruct (trim s) as [| c r] eqn:Ht.
  { cbn in Hs. injection Hs as _ <-. now contradiction Hrest. }
  pose proof (trim_head _ _ _ Ht) as Hc.
  destruct (split_first_line c r Hc) as (p & ps & Hs' & Hfirst).
  rewrite Hs' in Hs. injection Hs as <- <-.
  split; [now rewrite Hfirst |].
  destruct (lastChar_is_Some c r) as [d Hd].
  assert (Hdw : isWhiteSpace d = false).
  { apply (trim_last s). now rewrite Ht. }
  assert (Hdsep : Ascii.eqb d "010" = false).
  { destruct (Ascii.eqb_spec d "010") as [-> | _];
      [discriminate Hdw | reflexivity]. }
  destruct (split_last "010" _ d Hd Hdsep) as (l & Hl & Hlc).
  rewrite Hs' in Hl.
  destruct ps as [| p' ps]; [now contradiction Hrest |].
  change (last (String c p :: p' :: ps)) with (last (p' :: ps)) in Hl.
  apply last_Some_elem_of in Hl.
  pose proof (lastChar_nonblank l d Hlc Hdw) as Hnb.
  intros Hnil.
  assert (Hin : In (trim l) (nonBlankLines (p' :: ps))).
  { unfold nonBlankLines. apply filter_In. split.
    - apply in_map. now apply list_elem_of_In.
    - now rewrite Hnb. }
  now rewrite Hnil in Hin.
Qed.

(** The non-blank lines of a text with at least two lines after
    trimming, and of one with a single line. *)
Lemma nonBlankLines_text (s first : string) (rest : list string) :
  split "010" (trim s) = first :: rest ->
  nonBlankLines (split "010" s)
  = if isEmpty (trim first) then nonBlankLines rest
    else trim first :: nonBlankLines rest.
Proof.
  intros Hs. rewrite <- nonBlankLines_trim, Hs.
  unfold nonBlankLines. cbn [map List.filter].
  now destruct (isEmpty (trim first)).
Qed.

Section WithFiles.

Variable files : string -> option string.

(** The verdict on a file that is there. *)
Lemma validateCSV_verdict (filename content first : string)
    (rest : list string) (requiredColumns : list string) (options : Options) :
  files filename = Some content ->
  split "010" (trim content) = first :: rest ->
  fst (validateCSV files filename requiredColumns options)
  = negb (length rest =? 0)%nat
    && forallb (includes (cellsOf first)) requiredColumns
    && forallb (lineOk (cellsOf first) options) (nonBlankLines rest).
Proof.
  intros Hf Hs. unfold validateCSV. rewrite Hf, Hs.
  destruct rest as [| r rs]; [reflexivity |].
  cbn [length Nat.ltb Nat.leb Nat.eqb negb andb].
  fold (cellsOf first).
  destruct (forallb (includes (cellsOf first)) requiredColumns) eqn:Hreq.
  - assert (Hmissing :
      List.filter (fun col => negb (includes (cellsOf first) col))
        requiredColumns = []).
    { clear -Hreq. induction requiredColumns as [| c cs IH];
        [reflexivity |].
      cbn in Hreq |- *. apply andb_true_iff in Hreq as [-> Hcs].
      now apply IH. }
    rewrite Hmissing. cbn [fst andb].
    match goal with
    | |- (errors ?t =? 0)%nat = ?b =>
        destruct b eqn:Hb;
        [ apply Nat.eqb_eq, rowLoop_errors; now split
        | apply Nat.eqb_neq; intros He;
          apply rowLoop_errors in He as [_ He]; congruence ]
    end.
  - assert (Hmissing :
      List.filter (fun col => negb (includes (cellsOf first) col))
        requiredColumns <> []).
    { clear -Hreq. induction requiredColumns as [| c cs IH];
        [discriminate |].
      cbn in Hreq |- *.
      destruct (includes (cellsOf first) c); cbn [negb andb] in *;
        [now apply IH | discriminate]. }
    destruct (List.filter _ requiredColumns); [congruence | reflexivity].
Qed.

End WithFiles.


Lemma occursOnce_elem_of (x : string) (l : list string) :
  occursOnce x l -> x ∈ l.
Proof.
  unfold occursOnce. intros H.
  destruct (List.filter (String.eqb x) l) as [| y ys] eqn:Hf;
    [discriminate |].
  assert (Hy : In y (List.filter (String.eqb x) l))
    by (rewrite Hf; now left).
  apply filter_In in Hy as [Hy Heq]. apply String.eqb_eq in Heq as ->.
  now apply list_elem_of_In.
Qed.

(** The cell stored for a column that occurs once is the coerced value
    the script looks at. *)
Lemma recordOf_valueAt (headers : list string) (line col : string) :
  length (cellsOf line) = length headers ->
  occursOnce col headers -> col <> "__proto__"%string ->
  exists v, valueAt headers (cellsOf line) col = Some v
            /\ recordOf headers line !! col = Some (coerce v).
Proof.
  intros Hlen Honce Hp.
  destruct (indexOf_elem_of col headers (occursOnce_elem_of _ _ Honce))
    as [idx Hidx].
  destruct (indexOf_Some _ _ _ Hidx) as [Hh _].
  pose proof (occursOnce_last _ _ _ Honce Hidx) as Hlast.
  pose proof (lookup_lt_Some _ _ _ Hh) as Hlt. rewrite <- Hlen in Hlt.
  destruct (lookup_lt_is_Some_2 (cellsOf line) idx Hlt) as [v Hv].
  exists v. unfold valueAt. rewrite Hidx. split; [exact Hv |].
  unfold recordOf.
  rewrite (forEachHeader_lookup headers 0 (cellsOf line) ∅ idx col Hh Hlast Hp).
  cbn [Nat.add]. now rewrite Hv.
Qed.

Lemma coerce_category (v : string) :
  v ∈ validCategories -> coerce v = StringCell v.
Proof.
  unfold validCategories. intros H.
  repeat (apply elem_of_cons in H as [-> | H]; [reflexivity |]).
  now apply elem_of_nil in H.
Qed.

Lemma lineOk_recordOf (headers : list string) (options : Options)
    (line : string) :
  lineOk headers options line = true ->
  let row := recordOf headers line in
  (forall col, col ∈ headers -> col <> "__proto__"%string ->
               is_Some (row !! col))
  /\ (forall col,
        col ∈ default [] (numericColumns options) ->
        occursOnce col headers -> col <> "__proto__"%string ->
        row !! col = Some (StringCell EmptyString)
        \/ exists n, row !! col = Some (NumberCell n) /\ isNaN n = false)
  /\ (validateSeverity options = true ->
      occursOnce "Severity_Category" headers ->
      row !! "Severity_Category"%string = Some (StringCell EmptyString)
      \/ exists v, v ∈ validCategories
                   /\ row !! "Severity_Category"%string = Some (StringCell v)).
Proof.
  intros Hok row. pose proof (lineOk_length _ _ _ Hok) as Hlen.
  unfold lineOk in Hok. rewrite !andb_true_iff in Hok.
  destruct Hok as [[_ Hnum] Hsev].
  split; [| split].
  - intros col Hcol Hp. apply elem_of_dom. unfold row, recordOf.
    rewrite forEachHeader_dom. unfold keysOf. set_solver.
  - intros col Hcol Honce Hp.
    destruct (recordOf_valueAt headers line col Hlen Honce Hp)
      as (v & Hv & Hrow).
    rewrite forallb_forall in Hnum.
    specialize (Hnum col (proj1 (list_elem_of_In _ _) Hcol)).
    rewrite Hv in Hnum. unfold numericOrEmpty in Hnum.
    unfold row. rewrite Hrow. unfold coerce.
    destruct v as [| c v]; [now left |]. cbn [isEmpty negb orb andb] in *.
    rewrite Hnum. right. eexists. split; [reflexivity |].
    now apply negb_true_iff.
  - intros Hflag Honce. rewrite Hflag in Hsev. cbn [negb orb] in Hsev.
    destruct (recordOf_valueAt headers line "Severity_Category" Hlen Honce)
      as (v & Hv & Hrow); [discriminate |].
    rewrite Hv in Hsev. unfold categoryOrEmpty in Hsev.
    unfold row. rewrite Hrow.
    destruct v as [| c v]; [now left |]. cbn [isEmpty orb] in Hsev.
    apply includes_elem_of in Hsev. right. exists (String c v).
    split; [exact Hsev |]. now rewrite coerce_category.
Qed.

Section Accepted.

Variable files : string -> option string.
Variables (filename content : string).
Variables (requiredColumns : list string) (options : Options).
Hypothesis Hfile : files filename = Some content.
Hypothesis Haccepted :
  fst (validateCSV files filename requiredColumns options) = true.

(** The lines of an accepted file. *)
Lemma accepted_lines :
  exists first rest,
    split "010" (trim content) = first :: rest
    /\ rest <> []
    /\ nonBlankLines (split "010" content)
       = trim first :: nonBlankLines rest
    /\ nonBlankLines rest <> []
    /\ (forall col, col ∈ requiredColumns -> col ∈ cellsOf (trim first))
    /\ forallb (lineOk (cellsOf (trim first)) options) (nonBlankLines rest)
       = true.
Proof.
  destruct (split_cons "010" (trim content)) as (first & rest & Hs).
  pose proof Haccepted as H.
  rewrite (validateCSV_verdict files _ _ _ _ _ _ Hfile Hs) in H.
  rewrite !andb_true_iff in H. destruct H as [[Hrest Hreq] Hok].
  assert (Hne : rest <> []).
  { intros ->. discriminate Hrest. }
  destruct (trimmed_lines _ _ _ Hs Hne) as [Hfirst Hdata].
  exists first, rest. rewrite cellsOf_trim.
  repeat split; try assumption.
  - rewrite (nonBlankLines_text _ _ _ Hs). now rewrite Hfirst.
  - intros col Hcol. apply includes_elem_of.
    rewrite forallb_forall in Hreq. apply Hreq.
    now apply list_elem_of_In.
Qed.

Lemma accepted_output :
  In (DataRows (length (parseCSV content)))
     (snd (validateCSV files filename requiredColumns options)).
Proof.
  destruct accepted_lines as (first & rest & Hs & Hne & _ & _ & _ & Hok).
  rewrite cellsOf_trim in Hok.
  rewrite (parseCSV_records _ _ _ Hs), length_map.
  pose proof Haccepted as H. revert H.
  unfold validateCSV. rewrite Hfile, Hs.
  destruct rest as [| r rs]; [now contradiction Hne |].
  cbn [length Nat.ltb Nat.leb]. fold (cellsOf first).
  destruct (List.filter _ requiredColumns); [| discriminate].
  cbn [fst snd]. intros _.
  match goal with
  | |- In _ (output (summary ?t)) =>
      replace (length (nonBlankLines (r :: rs))) with (validRows t);
      [apply summary_output |]
  end.
  rewrite rowLoop_validRows. cbn [validRows Nat.add].
  f_equal. apply (filter_all (lineOk (cellsOf first) options)); [| exact Hok].
  intros line Hline. apply Nat.eqb_eq. eapply lineOk_length. exact Hline.
Qed.

End Accepted.


(** *** What is printed is never taken back *)

Lemma checkNumeric_output (headers values : list string) (lineNum : nat)
    (columns : list string) :
  forall t : Tally,
    exists more,
      output (checkNumeric headers values lineNum columns t)
      = output t ++ more.
Proof.
  induction columns as [| c cs IH]; intros t; cbn [checkNumeric].
  - exists []. now rewrite app_nil_r.
  - match goal with
    | |- exists more, output (checkNumeric _ _ _ _ ?t') = _ =>
        destruct (IH t') as [more Hmore]; rewrite Hmore
    end.
    destruct (indexOf c headers) as [idx |]; [| eauto].
    destruct (values !! idx) as [v |];
      [destruct (negb (isEmpty v) && isNaN (Number v)) |];
      cbn [addError output]; rewrite <- ?app_assoc; eauto.
Qed.

Lemma checkSeverity_output (headers values : list string) (lineNum : nat)
    (t : Tally) :
  exists more,
    output (checkSeverity headers values lineNum t) = output t ++ more.
Proof.
  unfold checkSeverity.
  assert (Hsame : exists more, output t = output t ++ more)
    by (exists []; now rewrite app_nil_r).
  destruct (indexOf _ headers) as [idx |]; [| exact Hsame].
  destruct (values !! idx) as [v |]; [| exact Hsame].
  destruct (negb (isEmpty v) && negb (includes validCategories v));
    [| exact Hsame].
  cbn [addError output]. eauto.
Qed.

Lemma rowLoop_output (headers : list string) (options : Options)
    (lines : list string) :
  forall (i : nat) (t : Tally),
    exists more,
      output (rowLoop headers options lines i t) = output t ++ more.
Proof.
  induction lines as [| l ls IH]; intros i t; cbn [rowLoop].
  - exists []. now rewrite app_nil_r.
  - destruct (isEmpty (trim l)).
    { destruct (IH (S i) (addWarning (EmptyLine (i + 1)) t)) as [more ->].
      cbn [addWarning output]. rewrite <- app_assoc. eauto. }
    destruct (negb _).
    { match goal with
      | |- exists more, output (rowLoop _ _ _ _ ?t') = _ =>
          destruct (IH (S i) t') as [more ->]
      end.
      cbn [addError output]. rewrite <- app_assoc. eauto. }
    match goal with
    | |- exists more, output (rowLoop _ _ _ _ ?t') = _ =>
        destruct (IH (S i) t') as [more ->]
    end.
    cbn [addValidRow output].
    set (values := map trim (split "," (trim l))).
    set (t1 := match emptyIndices values 0 with
               | [] => t
               | _ :: _ => _
               end).
    assert (H1 : exists more1, output t1 = output t ++ more1).
    { unfold t1. destruct (emptyIndices values 0).
      - exists []. now rewrite app_nil_r.
      - cbn [addWarning output]. eauto. }
    destruct H1 as [more1 H1].
    set (t2 := match numericColumns options with
               | Some columns => _
               | None => t1
               end).
    assert (H2 : exists more2, output t2 = output t1 ++ more2).
    { unfold t2. destruct (numericColumns options).
      - apply checkNumeric_output.
      - exists []. now rewrite app_nil_r. }
    destruct H2 as [more2 H2].
    destruct (validateSeverity options).
    + destruct (checkSeverity_output headers values (i + 1) t2)
        as [more3 ->].
      rewrite H2, H1, <- !app_assoc. eauto.
    + rewrite H2, H1, <- !app_assoc. eauto.
Qed.

Lemma summary_output_grows (t : Tally) :
  exists more, output (summary t) = output t ++ more.
Proof.
  unfold summary.
  destruct (0 <? errors t)%nat, (0 <? warnings t)%nat,
    ((errors t =? 0)%nat && (warnings t =? 0)%nat);
    cbn [say output]; rewrite <- ?app_assoc; eauto.
Qed.

(** The first line printed for a file names it. *)
Lemma validateCSV_first_message (files : string -> option string)
    (filename : string) (requiredColumns : list string) (options : Options) :
  exists more,
    snd (validateCSV files filename requiredColumns options)
    = match files filename with
      | Some _ => Validating filename
      | None => FileNotFound filename
      end :: more.
Proof.
  unfold validateCSV. destruct (files filename) as [content |];
    [| now exists []].
  destruct (length _ <? 2)%nat; [cbn; eauto |].
  destruct (split "010" (trim content)) as [| first rest]; [cbn; eauto |].
  destruct (List.filter _ requiredColumns); [| cbn; eauto].
  cbn [snd].
  match goal with
  | |- exists more, output (summary ?t) = _ =>
      destruct (summary_output_grows t) as [more1 ->]
  end.
  match goal with
  | |- exists more, output (rowLoop ?h ?o ?l ?j ?t) ++ _ = _ =>
      destruct (rowLoop_output h o l j t) as [more2 ->]
  end.
  cbn [output]. destruct (List.filter _ _); cbn; eauto.
Qed.

(** The validation script accepts a file exactly when the file is there,
    its non-blank lines are a header line followed by at least one data
    line, every required column is among the header fields, and every
    data line has as many fields as the header line, a number or nothing
    in each numeric column and, when categories are checked, a known
    category or nothing in the first column named Severity_Category.
    Blank lines, empty cells and extra columns only give warnings. *)
Theorem validateCSV_accepts (files : string -> option string)
    (filename : string) (requiredColumns : list string) (options : Options) :
  fst (validateCSV files filename requiredColumns options) = true
  <-> exists content header data,
        files filename = Some content
        /\ nonBlankLines (split "010" content) = header :: data
        /\ data <> []
        /\ (forall col, col ∈ requiredColumns -> col ∈ cellsOf header)
        /\ forallb (lineOk (cellsOf header) options) data = true.
Proof.
  split.
  - intros Hacc. destruct (files filename) as [content |] eqn:Hfile.
    + destruct (accepted_lines files filename content requiredColumns
                  options Hfile Hacc)
        as (first & rest & _ & _ & Hlines & Hdata & Hreq & Hok).
      exists content, (trim first), (nonBlankLines rest). auto.
    + unfold validateCSV in Hacc. rewrite Hfile in Hacc. discriminate.
  - intros (content & header & data & Hfile & Hlines & Hdata & Hreq & Hok).
    destruct (split_cons "010" (trim content)) as (first & rest & Hs).
    rewrite (validateCSV_verdict files _ _ _ _ _ _ Hfile Hs).
    rewrite (nonBlankLines_text _ _ _ Hs) in Hlines.
    destruct rest as [| r rs].
    + destruct (isEmpty (trim first)); cbn in Hlines; [discriminate |].
      injection Hlines as _ <-. now contradiction Hdata.
    + destruct (trimmed_lines _ _ _ Hs) as [Hfirst _]; [discriminate |].
      rewrite Hfirst in Hlines. injection Hlines as <- <-.
      rewrite cellsOf_trim in Hreq, Hok.
      cbn [length Nat.eqb negb andb]. rewrite Hok, andb_true_r.
      apply forallb_forall. intros col Hcol. apply includes_elem_of.
      apply Hreq. now apply list_elem_of_In.
Qed.

(** What the dashboard reads from a file the validation script accepts:
    [parseCSV] gives at least one record, as many as the script reports
    as data rows; every record has every required column; a numeric
    column that occurs once in the header line holds a number other than
    NaN or the empty string; with category checking, a Severity_Category
    column that occurs once holds a known category or the empty
    string. *)
Theorem validated_file_parses (files : string -> option string)
    (filename content : string) (requiredColumns : list string)
    (options : Options) :
  files filename = Some content ->
  fst (validateCSV files filename requiredColumns options) = true ->
  let headers :=
    cellsOf (default EmptyString
               (head (nonBlankLines (split "010" content)))) in
  let rows := parseCSV content in
  rows <> []
  /\ In (DataRows (length rows))
        (snd (validateCSV files filename requiredColumns options))
  /\ Forall (fun row : gmap string cell =>
       (forall col, col ∈ requiredColumns -> col <> "__proto__"%string ->
                    is_Some (row !! col))
       /\ (forall col,
             col ∈ default [] (numericColumns options) ->
             occursOnce col headers -> col <> "__proto__"%string ->
             row !! col = Some (StringCell EmptyString)
             \/ exists n, row !! col = Some (NumberCell n)
                          /\ isNaN n = false)
       /\ (validateSeverity options = true ->
           occursOnce "Severity_Category" headers ->
           row !! "Severity_Category"%string = Some (StringCell EmptyString)
           \/ exists v, v ∈ validCategories
                        /\ row !! "Severity_Category"%string
                           = Some (StringCell v))) rows.
Proof.
  intros Hfile Hacc headers rows.
  destruct (accepted_lines files filename content requiredColumns
              options Hfile Hacc)
    as (first & rest & Hs & _ & Hlines & Hdata & Hreq & Hok).
  assert (Hheaders : headers = cellsOf (trim first)).
  { unfold headers. now rewrite Hlines. }
  assert (Hrows : rows = map (recordOf headers) (nonBlankLines rest)).
  { unfold rows. rewrite Hheaders, cellsOf_trim.
    now apply parseCSV_records. }
  split; [| split].
  - rewrite Hrows. intros Hnil. apply map_eq_nil in Hnil. contradiction.
  - now apply accepted_output.
  - rewrite Hrows. apply Forall_map. rewrite <- Hheaders in Hreq, Hok.
    rewrite forallb_forall in Hok. apply List.Forall_forall.
    intros line Hline.
    destruct (lineOk_recordOf headers options line (Hok line Hline))
      as (Hkeys & Hnum & Hsev).
    split; [| split; assumption].
    intros col Hcol. apply Hkeys. now apply Hreq.
Qed.

Lemma validated_file_parses_witness :
  let content := unlines ["Location,Level"; "ito,61.5"; EmptyString; "nsit,"] in
  let options := {| numericColumns := Some ["Level"%string];
                    validateSeverity := false |} in
  let headers :=
    cellsOf (default EmptyString
               (head (nonBlankLines (split "010" content)))) in
  let rows := parseCSV content in
  rows <> []
  /\ In (DataRows (length rows))
        (snd (validateCSV sampleFiles "levels.csv" ["Location"; "Level"]
                options))
  /\ Forall (fun row : gmap string cell =>
       (forall col, col ∈ ["Location"; "Level"]%string ->
                    col <> "__proto__"%string -> is_Some (row !! col))
       /\ (forall col,
             col ∈ default [] (numericColumns options) ->
             occursOnce col headers -> col <> "__proto__"%string ->
             row !! col = Some (StringCell EmptyString)
             \/ exists n, row !! col = Some (NumberCell n)
                          /\ isNaN n = false)
       /\ (validateSeverity options = true ->
           occursOnce "Severity_Category" headers ->
           row !! "Severity_Category"%string = Some (StringCell EmptyString)
           \/ exists v, v ∈ validCategories
                        /\ row !! "Severity_Category"%string
                           = Some (StringCell v))) rows.
Proof.
  intros content options.
  apply (validated_file_parses sampleFiles "levels.csv" content
           ["Location"; "Level"]%string options).
  - reflexivity.
  - vm_compute. reflexivity.
Defined.

(** The accepted sample: two data rows, one warning for the blank line
    and one for the empty cell, which is stored as an empty string. *)
Example validateCSV_sample :
  validateCSV sampleFiles "levels.csv" ["Location"; "Level"]
    {| numericColumns := Some ["Level"%string]; validateSeverity := false |}
  = (true,
     [ Validating "levels.csv";
       HeadersFound ["Location"; "Level"]%string;
       EmptyLine 3;
       EmptyValues 4 [Some "Level"%string];
       DataRows 2;
       WarningsFound 2 ])
  /\ parseCSV (unlines ["Location,Level"; "ito,61.5"; EmptyString; "nsit,"])
     = [ {[ "Location"%string := StringCell "ito";
            "Level"%string := NumberCell (Finite (123 # 2)) ]};
         {[ "Location"%string := StringCell "nsit";
            "Level"%string := StringCell EmptyString ]} ].
Proof. split; vm_compute; reflexivity. Qed.

(** With a column name twice in the header line the script looks at the
    first of the two columns and the parser keeps the second: the file
    is accepted and the numeric column holds a string. *)
Example validateCSV_duplicate_column :
  let content := unlines ["Level,Level"; "61.5,loud"] in
  let files := fun _ : string => Some content in
  fst (validateCSV files "levels.csv" ["Level"%string]
         {| numericColumns := Some ["Level"%string];
            validateSeverity := false |}) = true
  /\ parseCSV content = [ {[ "Level"%string := StringCell "loud" ]} ].
Proof. split; vm_compute; reflexivity. Qed.

Lemma validateCSV_missing (files : string -> option string)
    (filename : string) (requiredColumns : list string) (options : Options) :
  files filename = None ->
  fst (validateCSV files filename requiredColumns options) = false.
Proof. intros H. unfold validateCSV. now rewrite H. Qed.

Lemma accepted_parses (files : string -> option string)
    (filename : string) (requiredColumns : list string) (options : Options) :
  fst (validateCSV files filename requiredColumns options) = true ->
  "Location"%string ∈ requiredColumns ->
  "Zone_Type"%string ∈ requiredColumns ->
  exists content,
    files filename = Some content
    /\ parseCSV content <> []
    /\ Forall (fun row : gmap string cell =>
         is_Some (row !! "Location"%string)
         /\ is_Some (row !! "Zone_Type"%string))
         (parseCSV content).
Proof.
  intros Hacc Hloc Hzone.
  destruct (files filename) as [content |] eqn:Hfile;
    [| now rewrite validateCSV_missing in Hacc].
  destruct (accepted_lines files filename content requiredColumns options
              Hfile Hacc)
    as (first & rest & Hs & _ & _ & Hdata & Hreq & Hok).
  exists content. split; [reflexivity |].
  rewrite (parseCSV_records _ _ _ Hs). split.
  - intros Hnil. apply map_eq_nil in Hnil. contradiction.
  - apply Forall_map. rewrite forallb_forall in Hok.
    apply List.Forall_forall. intros line Hline.
    rewrite cellsOf_trim in Hreq, Hok.
    destruct (lineOk_recordOf _ options line (Hok line Hline))
      as (Hkeys & _).
    split; apply Hkeys; auto; discriminate.
Qed.

Lemma main_run (files : string -> option string) :
  let r1 :=
    validateCSV files "01_station_rankings.csv"
      ["Location"; "Average_LAeq_dBA"; "Zone_Type"; "Day_Limit_dBA";
       "Night_Limit_dBA"]
      {| numericColumns :=
           Some ["Average_LAeq_dBA"; "Day_Limit_dBA"; "Night_Limit_dBA"];
         validateSeverity := false |} in
  let r2 :=
    validateCSV files "02_exceedance_summary.csv"
      ["Location"; "Zone_Type"; "Day_Limit_dBA"; "Night_Limit_dBA";
       "Exceedance_Count"; "Total_Count"; "Exceedance_Percentage"]
      {| numericColumns :=
           Some ["Day_Limit_dBA"; "Night_Limit_dBA"; "Exceedance_Count";
                 "Total_Count"; "Exceedance_Percentage"];
         validateSeverity := false |} in
  let r3 :=
    validateCSV files "04_violation_severity.csv"
      ["Location"; "Zone_Type"; "Avg_Excess_dBA"; "Max_Excess_dBA";
       "Severity_Category"]
      {| numericColumns := Some ["Avg_Excess_dBA"; "Max_Excess_dBA"];
         validateSeverity := true |} in
  let allValid := fst r1 && fst r2 && fst r3 in
  main files
  = (if allValid then 0%Z else 1%Z,
     Banner :: snd r1 ++ snd r2 ++ snd r3
       ++ [if allValid then AllFilesValid else SomeFilesInvalid]).
Proof.
  unfold main.
  destruct (validateCSV files "01_station_rankings.csv" _ _) as [v1 o1].
  destruct (validateCSV files "02_exceedance_summary.csv" _ _) as [v2 o2].
  destruct (validateCSV files "04_violation_severity.csv" _ _) as [v3 o3].
  cbn [fst snd]. destruct (v1 && v2 && v3); cbn [app];
    now rewrite <- !app_assoc.
Qed.

(** The script exits with 0 or 1. With 0, each of the three files is
    there and [parseCSV] gives at least one record of it, every record
    with a Location and a Zone_Type. A missing file gives 1, and all
    three files are looked at whatever the first verdicts are. *)
Theorem main_exit_status (files : string -> option string) :
  let names := ["01_station_rankings.csv"; "02_exceedance_summary.csv";
                "04_violation_severity.csv"]%string in
  (fst (main files) = 0 \/ fst (main files) = 1)%Z
  /\ (fst (main files) = 0%Z ->
      Forall (fun name =>
        exists content,
          files name = Some content
          /\ parseCSV content <> []
          /\ Forall (fun row : gmap string cell =>
               is_Some (row !! "Location"%string)
               /\ is_Some (row !! "Zone_Type"%string))
               (parseCSV content)) names)
  /\ (Exists (fun name => files name = None) names ->
      fst (main files) = 1%Z)
  /\ Forall (fun name =>
       In (Validating name) (snd (main files))
       \/ In (FileNotFound name) (snd (main files))) names.
Proof.
  intros names. pose proof (main_run files) as Hrun. cbv zeta in Hrun.
  rewrite Hrun. clear Hrun.
  match goal with
  | |- context [validateCSV files "01_station_rankings.csv" ?r ?o] =>
      pose proof (validateCSV_missing files "01_station_rankings.csv" r o)
        as Hm1;
      pose proof (accepted_parses files "01_station_rankings.csv" r o)
        as Hp1;
      destruct (validateCSV_first_message files "01_station_rankings.csv"
                  r o) as [more1 Hf1];
      set (r1 := validateCSV files "01_station_rankings.csv" r o) in *
  end.
  match goal with
  | |- context [validateCSV files "02_exceedance_summary.csv" ?r ?o] =>
      pose proof (validateCSV_missing files "02_exceedance_summary.csv" r o)
        as Hm2;
      pose proof (accepted_parses files "02_exceedance_summary.csv" r o)
        as Hp2;
      destruct (validateCSV_first_message files "02_exceedance_summary.csv"
                  r o) as [more2 Hf2];
      set (r2 := validateCSV files "02_exceedance_summary.csv" r o) in *
  end.
  match goal with
  | |- context [validateCSV files "04_violation_severity.csv" ?r ?o] =>
      pose proof (validateCSV_missing files "04_violation_severity.csv" r o)
        as Hm3;
      pose proof (accepted_parses files "04_violation_severity.csv" r o)
        as Hp3;
      destruct (validateCSV_first_message files "04_violation_severity.csv"
                  r o) as [more3 Hf3];
      set (r3 := validateCSV files "04_violation_severity.csv" r o) in *
  end.
  cbn [fst snd]. split; [| split; [| split]].
  - destruct (fst r1 && fst r2 && fst r3); auto.
  - intros Hexit.
    assert (Hall : fst r1 && fst r2 && fst r3 = true).
    { destruct (fst r1 && fst r2 && fst r3);
        [reflexivity | discriminate Hexit]. }
    rewrite !andb_true_iff in Hall. destruct Hall as [[Ha1 Ha2] Ha3].
    unfold names.
    apply Forall_cons. split; [| apply Forall_cons; split;
                                 [| apply Forall_cons; split;
                                    [| apply Forall_nil; exact I]]].
    + apply Hp1; [exact Ha1 | set_solver | set_solver].
    + apply Hp2; [exact Ha2 | set_solver | set_solver].
    + apply Hp3; [exact Ha3 | set_solver | set_solver].
  - intros Hmissing.
    assert (Hsome : fst r1 && fst r2 && fst r3 = false).
    { unfold names in Hmissing.
      repeat (apply Exists_cons in Hmissing as [Hmissing | Hmissing]).
      - now rewrite (Hm1 Hmissing).
      - rewrite (Hm2 Hmissing). now destruct (fst r1).
      - rewrite (Hm3 Hmissing). now destruct (fst r1), (fst r2).
      - now apply Exists_nil in Hmissing. }
    now rewrite Hsome.
  - rewrite Hf1, Hf2, Hf3. unfold names.
    apply Forall_cons. split; [| apply Forall_cons; split;
                                 [| apply Forall_cons; split;
                                    [| apply Forall_nil; exact I]]].
    + destruct (files "01_station_rankings.csv"); [left | right];
        apply list_elem_of_In; set_solver.
    + destruct (files "02_exceedance_summary.csv"); [left | right];
        apply list_elem_of_In; set_solver.
    + destruct (files "04_violation_severity.csv"); [left | right];
        apply list_elem_of_In; set_solver.
Qed.

End ValidatorFacts.


Module AIPanelsFacts.
Import JS StringSpec StringFacts DataUtils Gemini GeminiSpec GeminiFacts.
Import AIPanels.

Section WithService.

Variable GEMINI_API_KEY : string.
Variable listReply : nat -> FetchResult ListModelsResponse.
Variable generateReply : nat -> Request -> FetchResult GeminiResponse.

(** One call: one or two requests after the ones logged, two when it
    returns, and then a trimmed text. *)
Lemma callGeminiAPI_effect (prompt : string) (log : list Request) :
  let run := callGeminiAPI GEMINI_API_KEY listReply generateReply prompt log in
  exists sent,
    snd run = log ++ sent
    /\ (1 <= length sent <= 2)%nat
    /\ forall answer, fst run = Ok answer ->
                      trim answer = answer /\ length sent = 2%nat.
Proof.
  cbv zeta. rewrite callGeminiAPI_run, pickModel_run.
  destruct (match listReply (length log) with
            | Rejected e => Throw e
            | Resolved resp => _
            end) as [modelName | e].
  - eexists [_; _]. cbn [fst snd]. rewrite <- app_assoc.
    split; [reflexivity |]. split; [cbn; lia |].
    intros answer Hrun. split; [| reflexivity].
    assert (Ht : exists t, answer = trim t).
    { repeat case_match; simplify_eq; eauto. }
    destruct Ht as [t ->]. apply trim_idem.
  - eexists [_]. cbn [fst snd]. split; [reflexivity |].
    split; [cbn; lia | discriminate].
Qed.

Variable analysisPrompt : KeyMetrics -> string.
Variable policyPrompt : PolicyLocation -> string.

Abbreviation handle :=
  (handleGenerateSummary GEMINI_API_KEY listReply generateReply
     analysisPrompt).
Abbreviation effect :=
  (policyEffect GEMINI_API_KEY listReply generateReply policyPrompt).

Lemma handleGenerateSummary_run (keyMetrics : KeyMetrics) (w : Page) :
  handle keyMetrics w
  = match generateAnalysisSummary GEMINI_API_KEY listReply generateReply
            analysisPrompt keyMetrics (requests w) with
    | (Ok result, log) =>
        {| panel := {| shown := result; loading := false;
                       error := EmptyString |};
           requests := log |}
    | (Throw err, log) =>
        {| panel := {| shown := shown (panel w); loading := false;
                       error := message err |};
           requests := log |}
    end.
Proof.
  unfold handleGenerateSummary, tryAwait. cbn [setError setLoading requests].
  now destruct (generateAnalysisSummary _ _ _ _ _ _) as [[result | err] log].
Qed.

Lemma policyEffect_run (isOpen : bool) (location : option PolicyLocation)
    (w : Page) :
  effect isOpen location w
  = match isOpen, location with
    | true, Some loc =>
        match generatePolicySuggestions GEMINI_API_KEY listReply
                generateReply policyPrompt loc (requests w) with
        | (Ok result, log) =>
            {| panel := {| shown := result; loading := false;
                           error := EmptyString |};
               requests := log |}
        | (Throw err, log) =>
            {| panel := {| shown := EmptyString; loading := false;
                           error := message err |};
               requests := log |}
        end
    | _, _ =>
        {| panel := {| shown := EmptyString; loading := loading (panel w);
                       error := EmptyString |};
           requests := requests w |}
    end.
Proof.
  unfold policyEffect. destruct isOpen, location as [loc |]; try reflexivity.
  cbn [andb bool_decide decide_rel]. 
  unfold generateSuggestions, tryAwait.
  cbn [setError setLoading setShown requests].
  now destruct (generatePolicySuggestions _ _ _ _ _ _)
    as [[result | err] log].
Qed.

End WithService.

(** A click on the summary button ends with [loading] off, after one or
    two requests.  When the call returns, its trimmed text is shown and
    no error; when it throws, the message of the exception is the error
    and the text shown stays as it was.  A click on an enabled button
    never leaves both a text and an error, and afterwards the button is
    disabled exactly when a text is shown. *)
Theorem handleGenerateSummary_settles
    (GEMINI_API_KEY : string)
    (listReply : nat -> FetchResult ListModelsResponse)
    (generateReply : nat -> Request -> FetchResult GeminiResponse)
    (analysisPrompt : KeyMetrics -> string)
    (keyMetrics : KeyMetrics) (w : Page) :
  let run := generateAnalysisSummary GEMINI_API_KEY listReply generateReply
               analysisPrompt keyMetrics (requests w) in
  let w' := handleGenerateSummary GEMINI_API_KEY listReply generateReply
              analysisPrompt keyMetrics w in
  loading (panel w') = false
  /\ (exists sent, requests w' = requests w ++ sent
                   /\ (1 <= length sent <= 2)%nat)
  /\ match fst run with
     | Ok answer =>
         shown (panel w') = answer /\ error (panel w') = EmptyString
         /\ trim answer = answer
     | Throw err =>
         shown (panel w') = shown (panel w)
         /\ error (panel w') = message err
     end
  /\ (disabled (panel w) = false ->
      shown (panel w') = EmptyString \/ error (panel w') = EmptyString)
  /\ disabled (panel w') = negb (isEmpty (shown (panel w'))).
Proof.
  cbv zeta. rewrite handleGenerateSummary_run.
  unfold generateAnalysisSummary.
  destruct (callGeminiAPI_effect GEMINI_API_KEY listReply generateReply
              (analysisPrompt keyMetrics) (requests w))
    as (sent & Hsent & Hlen & Hanswer).
  destruct (callGeminiAPI _ _ _ _ _) as [[answer | err] log];
    cbn [fst snd] in *; cbn [panel requests shown loading error disabled orb].
  - destruct (Hanswer answer eq_refl) as [Htrim _].
    repeat split; eauto.
  - repeat split; eauto.
    unfold disabled. intros Hd. apply orb_false_iff in Hd as [_ Hd].
    apply negb_false_iff, isEmpty_true in Hd. now left.
Qed.


(** A discovery that fails: the panel shows the message of the error,
    and one request was sent. *)
Example handleGenerateSummary_listing_refused :
  let listReply := fun _ : nat =>
    Resolved {| ok := false; statusText := "Forbidden";
                errorMessage := Some "API key not valid"%string;
                json := None |} in
  let generateReply := fun (_ : nat) (_ : Request) =>
    Rejected (TypeError "Failed to fetch") in
  let w := {| panel := {| shown := EmptyString; loading := false;
                          error := "old" |};
              requests := [] |} in
  handleGenerateSummary "k" listReply generateReply
    (fun _ => "prompt"%string)
    {| loudestStation := "ITO"; highestAvgNoise := 74.5;
       avgViolationRate := 88.1 |} w
  = {| panel := {| shown := EmptyString; loading := false;
                   error := "Failed to list Gemini models: API key not valid" |};
       requests := [listRequest "k"] |}.
Proof. reflexivity. Qed.

End AIPanelsFacts.
